(** * heat.optim.dp_optimizer: the SkipBatches synchronisation scheduler

    A shallow embedding of [src/heat/optim/dp_optimizer.py] (class
    [SkipBatches]) and the properties of its skip-state controller, its
    per-batch step, its parameter packing and its merge of reduced
    parameters.

    Conventions of the embedding
    - Python [int] is [Z]; [//] is [Z.div] and [%] is [Z.modulo] (both floor,
      as in Python).  Every [%] and every [/] between floats is checked for
      a zero divisor; the only [//] of the class divides by the literal 2.
    - Python [float] scalars and the per-epoch loss averages are rationals
      ([Q]).  The averages are float32 values: their mean and their
      difference are operations of the tensor library, which rounds them,
      and the literal 0.075 they are compared with is the float32 it is
      converted to.
    - Tensor elements are abstract; the tensor library and the MPI / torch
      collectives are interfaces ([TensorLib], [World]) whose results the
      scheduler cannot see into.
    - The instance [self] is the record [SkipBatches]; a method is a function
      in the monad [M], which threads [self] and keeps every mutation made
      before an exception was raised, as Python does. *)

From Stdlib Require Import String ZArith QArith Qabs List Bool Lia Lqa.
Import ListNotations.

Set Implicit Arguments.

Local Open Scope Z_scope.

(** ** Exceptions and results *)

Inductive exn : Type :=
| ZeroDivisionError
| TypeError
| AttributeError
| IndexError
| KeyError
| ValueError
| RuntimeError.

Inductive result (A : Type) : Type :=
| Ok (a : A)
| Raise (e : exn).

Arguments Ok {A} a.
Arguments Raise {A} e.

Definition is_ok {A} (r : result A) : bool :=
  match r with Ok _ => true | Raise _ => false end.

(** ** Python integer and sequence primitives *)

(** [a % b] *)
Definition py_mod (a b : Z) : result Z :=
  if b =? 0 then Raise ZeroDivisionError else Ok (a mod b).

(** [a / b] on Python floats *)
Definition py_truediv (a b : Q) : result Q :=
  if Qeq_bool b 0 then Raise ZeroDivisionError else Ok (a / b)%Q.

(** [l[i]], negative indices counting from the end *)
Definition py_index {A} (l : list A) (i : Z) : result A :=
  let n := Z.of_nat (length l) in
  let j := if i <? 0 then n + i else i in
  if (0 <=? j) && (j <? n)
  then match nth_error l (Z.to_nat j) with
       | Some x => Ok x
       | None => Raise IndexError
       end
  else Raise IndexError.

(** [l[i] = v] *)
Fixpoint set_nth {A} (l : list A) (i : nat) (v : A) : list A :=
  match l, i with
  | [], _ => []
  | _ :: r, O => v :: r
  | x :: r, S j => x :: set_nth r j v
  end.

Definition py_setitem {A} (l : list A) (i : Z) (v : A) : result (list A) :=
  let n := Z.of_nat (length l) in
  let j := if i <? 0 then n + i else i in
  if (0 <=? j) && (j <? n) then Ok (set_nth l (Z.to_nat j) v)
  else Raise IndexError.

(** [x in l] for a tuple of ranks *)
Definition py_in (x : Z) (l : list Z) : bool := existsb (Z.eqb x) l.

(** [l[a:b]] with [0 <= a], [0 <= b]: the bounds are clamped to the length *)
Definition py_slice {A} (l : list A) (a b : nat) : list A :=
  firstn (b - a) (skipn a l).

(** [range(start, stop, step)] for a positive step *)
Fixpoint range_from (fuel : nat) (start stop step : Z) : list Z :=
  match fuel with
  | O => []
  | S f => if start <? stop then start :: range_from f (start + step) stop step
           else []
  end.

Definition py_range3 (start stop step : Z) : list Z :=
  range_from (Z.to_nat (stop - start)) start stop step.

Definition py_range (n : Z) : list Z := py_range3 0 n 1.

(** ** Dictionaries

    A Python [dict] keeps insertion order and [ __pack_data ] iterates over it,
    so a dictionary is an association list; assigning to a key that is
    present overwrites the value in place. *)

Fixpoint dict_set {V} (d : list (string * V)) (k : string) (v : V)
  : list (string * V) :=
  match d with
  | [] => [(k, v)]
  | (k', v') :: r =>
      if String.eqb k k' then (k, v) :: r else (k', v') :: dict_set r k v
  end.

Fixpoint dict_get {V} (d : list (string * V)) (k : string) : result V :=
  match d with
  | [] => Raise KeyError
  | (k', v') :: r => if String.eqb k k' then Ok v' else dict_get r k
  end.

(** ** Tensors *)

Inductive dtype : Type := float16 | bfloat16 | float32 | float64.

(** The element arithmetic of the tensor library (an external collaborator). *)
Class TensorLib : Type := {
  elem : Type;
  (** the element of [torch.zeros] *)
  ezero : elem;
  (** conversion of one element to a dtype: [.to(dtype)] and the implicit
      conversion of a value stored into a tensor of that dtype *)
  to_dtype : dtype -> elem -> elem;
  (** [tensor *= float] *)
  mul_scalar : elem -> Q -> elem;
  (** [tensor / float] *)
  div_scalar : elem -> Q -> elem;
  (** [tensor += tensor] *)
  add_elem : elem -> elem -> elem;
  (** [torch.mean] of the float32 vector of losses *)
  loss_mean : list Q -> Q;
  (** the difference of two float32 loss averages, rounded to float32 *)
  loss_sub : Q -> Q -> Q
}.

Fixpoint numel_of (shape : list nat) : nat :=
  match shape with
  | [] => 1%nat
  | d :: r => (d * numel_of r)%nat
  end.

Section Tensors.
Context {TL : TensorLib}.

(** A tensor: its shape, dtype, [requires_grad] flag and its elements in
    row-major order ([torch.flatten] is [t_data]). *)
Record tensor : Type := mkTensor {
  t_shape : list nat;
  t_dtype : dtype;
  requires_grad : bool;
  t_data : list elem
}.

Definition numel (t : tensor) : nat := numel_of (t_shape t).

Definition wf_tensor (t : tensor) : Prop := length (t_data t) = numel t.

Definition with_data (t : tensor) (d : list elem) : tensor :=
  mkTensor (t_shape t) (t_dtype t) (requires_grad t) d.

(** [torch.zeros(n, dtype=dt)]; [dtype=None] is the default dtype, float32 *)
Definition torch_zeros (n : nat) (dt : option dtype) : tensor :=
  mkTensor [n] (match dt with Some d => d | None => float32 end) false
           (repeat ezero n).

(** [t.to(dt)] *)
Definition tensor_to (t : tensor) (dt : dtype) : tensor :=
  mkTensor (t_shape t) dt (requires_grad t) (map (to_dtype dt) (t_data t)).

(** [t / c] for a Python float [c]; the result is a new tensor *)
Definition tensor_div (t : tensor) (c : Q) : tensor :=
  mkTensor (t_shape t) (t_dtype t) false
           (map (fun x => div_scalar x c) (t_data t)).

(** [t[a:b]] on a one-dimensional tensor *)
Definition tensor_slice (t : tensor) (a b : nat) : tensor :=
  let d := py_slice (t_data t) a b in
  mkTensor [length d] (t_dtype t) false d.

(** [t.reshape(shape)]: the element count has to agree *)
Definition reshape (t : tensor) (shape : list nat) : result tensor :=
  if Nat.eqb (length (t_data t)) (numel_of shape)
  then Ok (mkTensor shape (t_dtype t) (requires_grad t) (t_data t))
  else Raise RuntimeError.

Definition shape_eqb (a b : list nat) : bool :=
  if list_eq_dec Nat.eq_dec a b then true else false.

(** [param[:] = v]: the values of [v], converted to the dtype of [param],
    replace those of [param].  A tensor without dimensions cannot be
    sliced: [param[:]] raises [IndexError] on it.  The shapes the scheduler
    records are those of the parameter itself, so the copy is between equal
    shapes; a different shape is reported as the library's
    [RuntimeError]. *)
Definition copy_into (param v : tensor) : result tensor :=
  match t_shape param with
  | [] => Raise IndexError
  | _ :: _ =>
      if shape_eqb (t_shape param) (t_shape v)
      then Ok (with_data param (map (to_dtype (t_dtype param)) (t_data v)))
      else Raise RuntimeError
  end.

(** [param *= c] *)
Definition imul_scalar (param : tensor) (c : Q) : tensor :=
  with_data param (map (fun x => mul_scalar x c) (t_data param)).

Fixpoint zip_with {A B C} (f : A -> B -> C) (l : list A) (m : list B)
  : list C :=
  match l, m with
  | x :: l', y :: m' => f x y :: zip_with f l' m'
  | _, _ => []
  end.

(** [param += v] between equal shapes *)
Definition iadd (param v : tensor) : result tensor :=
  if shape_eqb (t_shape param) (t_shape v)
  then Ok (with_data param (zip_with add_elem (t_data param) (t_data v)))
  else Raise RuntimeError.

(** [buf[a:b] = p] on a one-dimensional buffer: the slice is clamped to the
    buffer, [p] has to fill it exactly (a one-element [p] is broadcast over
    it), and the stored values take the dtype of the buffer. *)
Definition slice_assign (buf : tensor) (a b : nat) (p : list elem)
  : result tensor :=
  let n := length (t_data buf) in
  let lo := Nat.min a n in
  let hi := Nat.max lo (Nat.min b n) in
  let conv := map (to_dtype (t_dtype buf)) in
  let put v := with_data buf (firstn lo (t_data buf) ++ conv v
                              ++ skipn hi (t_data buf)) in
  if Nat.eqb (length p) (hi - lo) then Ok (put p)
  else match p with
       | [x] => Ok (put (repeat x (hi - lo)))
       | _ => Raise RuntimeError
       end.

End Tensors.

Fixpoint mapi_from {A B} (i : nat) (f : nat -> A -> B) (l : list A) : list B :=
  match l with
  | [] => []
  | x :: r => f i x :: mapi_from (S i) f r
  end.

Definition mapi {A B} (f : nat -> A -> B) (l : list A) : list B :=
  mapi_from 0 f l.

(** ** The world outside the scheduler

    What a collective or the local optimizer leaves in a tensor is decided by
    the other ranks and by torch.  Each such operation is stamped with the
    number of operations issued before it ([tick]) and its result is read
    from the interface below, element by element, so the shape of a buffer
    never changes under it. *)
Class World {TL : TensorLib} : Type := {
  (** [comm.Allreduce(MPI.IN_PLACE, loss_send, MPI.SUM)]: the loss vector
      after the reduction *)
  allreduce_loss : nat -> list Q -> list Q;
  (** the element at a position of a send buffer once the request of
      [Iallreduce] has been waited for *)
  allreduce_elem : nat -> nat -> elem -> elem;
  (** whether a rank belongs to the process group of [torch.distributed];
      [torch.distributed.broadcast] raises for a source outside it *)
  in_torch_group : Z -> bool;
  (** the element at a position of a named parameter after
      [torch.distributed.broadcast(param, src)] *)
  bcast_elem : nat -> Z -> string -> nat -> elem -> elem;
  (** the element at a position of a named parameter after the local
      optimizer has stepped *)
  optim_elem : nat -> string -> nat -> elem -> elem
}.

Inductive event : Type :=
| EvScalerStep
| EvOptimizerStep
| EvSchedulerStep
| EvAllreduceLoss
| EvIallreduce (slot : Z) (low_precision : bool)
| EvWait (request : nat)
| EvBroadcast (src : Z) (name : string).

Section Scheduler.
Context {TL : TensorLib} {W : World}.

(** ** The state of a [SkipBatches] instance *)

(** [self.module]: whether it is a torch [DistributedDataParallel] wrapper,
    the flag [require_backward_grad_sync] of that wrapper, and
    [named_parameters()] in the model's order. *)
Record Module_ : Type := mkModule {
  is_tDDP : bool;
  require_backward_grad_sync : bool;
  named_parameters : list (string * tensor)
}.

(** An entry [[param.shape, slice(st, st + numel), param.dtype]] of
    [self.shapes]. *)
Record shape_entry : Type := mkEntry {
  e_shape : list nat;
  e_start : nat;
  e_stop : nat;
  e_dtype : dtype
}.

Definition shapes_dict : Type := list (string * shape_entry).

(** An entry [[new_wait, params, shapes, batches_to_wait, None]] of
    [self._prev_params]. *)
Record pending : Type := mkPending {
  p_request : nat;
  p_params : tensor;
  p_shapes : shapes_dict;
  p_batches_to_wait : Z;
  p_tag : option string
}.

(** The attributes of [self].  [reduced_ranks] stands for the attributes
    [reduced_comms], [reduced_ranks], [base_loc_ranks] and [device], which
    the constructor sets together and only when [loc_gpus > 1]; the
    communicator of a slot is identified with the index of the slot.
    [param_dict] maps a name to the position of the parameter in
    [named_parameters]: the dictionary holds the parameter objects
    themselves, not copies.  [scheduler] and [amp] say whether
    [self.scheduler] is set and whether a scaler was added; [dist_initialized]
    is [torch.distributed.is_initialized()].  [trace] lists the operations
    issued to the outside so far. *)
Record SkipBatches : Type := mkSkipBatches {
  comm_rank : Z;
  comm_size : Z;
  scheduler : bool;
  apex : bool;
  loc_gpus : Z;
  reduced_ranks : option (list (list Z));
  current_batch : Z;
  last_batch : option Z;
  _prev_params : list pending;
  epoch : Z;
  _send_mod : Z;
  _send_mod_m1 : option Z;
  _prev_losses_mean : list Q;
  global_skip : Z;
  local_skip : Z;
  batches_to_wait : Z;
  epochs_to_wait : Z;
  warmup_epochs : Z;
  total_epochs : Z;
  _param_send_buffer_shape : option nat;
  param_dict : option (list (string * nat));
  shapes : option shapes_dict;
  amp : bool;
  module : option Module_;
  dist_initialized : bool;
  trace : list event
}.

Definition set_current_batch (v : Z) (s : SkipBatches) : SkipBatches :=
  mkSkipBatches (comm_rank s) (comm_size s) (scheduler s) (apex s) (loc_gpus s)
    (reduced_ranks s) v (last_batch s) (_prev_params s) (epoch s)
    (_send_mod s) (_send_mod_m1 s) (_prev_losses_mean s) (global_skip s)
    (local_skip s) (batches_to_wait s) (epochs_to_wait s) (warmup_epochs s)
    (total_epochs s) (_param_send_buffer_shape s) (param_dict s) (shapes s)
    (amp s) (module s) (dist_initialized s) (trace s).

Definition set_last_batch (v : option Z) (s : SkipBatches) : SkipBatches :=
  mkSkipBatches (comm_rank s) (comm_size s) (scheduler s) (apex s) (loc_gpus s)
    (reduced_ranks s) (current_batch s) v (_prev_params s) (epoch s)
    (_send_mod s) (_send_mod_m1 s) (_prev_losses_mean s) (global_skip s)
    (local_skip s) (batches_to_wait s) (epochs_to_wait s) (warmup_epochs s)
    (total_epochs s) (_param_send_buffer_shape s) (param_dict s) (shapes s)
    (amp s) (module s) (dist_initialized s) (trace s).

Definition set_prev_params (v : list pending) (s : SkipBatches) : SkipBatches :=
  mkSkipBatches (comm_rank s) (comm_size s) (scheduler s) (apex s) (loc_gpus s)
    (reduced_ranks s) (current_batch s) (last_batch s) v (epoch s)
    (_send_mod s) (_send_mod_m1 s) (_prev_losses_mean s) (global_skip s)
    (local_skip s) (batches_to_wait s) (epochs_to_wait s) (warmup_epochs s)
    (total_epochs s) (_param_send_buffer_shape s) (param_dict s) (shapes s)
    (amp s) (module s) (dist_initialized s) (trace s).

Definition set_epoch (v : Z) (s : SkipBatches) : SkipBatches :=
  mkSkipBatches (comm_rank s) (comm_size s) (scheduler s) (apex s) (loc_gpus s)
    (reduced_ranks s) (current_batch s) (last_batch s) (_prev_params s) v
    (_send_mod s) (_send_mod_m1 s) (_prev_losses_mean s) (global_skip s)
    (local_skip s) (batches_to_wait s) (epochs_to_wait s) (warmup_epochs s)
    (total_epochs s) (_param_send_buffer_shape s) (param_dict s) (shapes s)
    (amp s) (module s) (dist_initialized s) (trace s).

Definition set_send_mod (v : Z) (s : SkipBatches) : SkipBatches :=
  mkSkipBatches (comm_rank s) (comm_size s) (scheduler s) (apex s) (loc_gpus s)
    (reduced_ranks s) (current_batch s) (last_batch s) (_prev_params s)
    (epoch s) v (_send_mod_m1 s) (_prev_losses_mean s) (global_skip s)
    (local_skip s) (batches_to_wait s) (epochs_to_wait s) (warmup_epochs s)
    (total_epochs s) (_param_send_buffer_shape s) (param_dict s) (shapes s)
    (amp s) (module s) (dist_initialized s) (trace s).

Definition set_send_mod_m1 (v : option Z) (s : SkipBatches) : SkipBatches :=
  mkSkipBatches (comm_rank s) (comm_size s) (scheduler s) (apex s) (loc_gpus s)
    (reduced_ranks s) (current_batch s) (last_batch s) (_prev_params s)
    (epoch s) (_send_mod s) v (_prev_losses_mean s) (global_skip s)
    (local_skip s) (batches_to_wait s) (epochs_to_wait s) (warmup_epochs s)
    (total_epochs s) (_param_send_buffer_shape s) (param_dict s) (shapes s)
    (amp s) (module s) (dist_initialized s) (trace s).

Definition set_prev_losses_mean (v : list Q) (s : SkipBatches) : SkipBatches :=
  mkSkipBatches (comm_rank s) (comm_size s) (scheduler s) (apex s) (loc_gpus s)
    (reduced_ranks s) (current_batch s) (last_batch s) (_prev_params s)
    (epoch s) (_send_mod s) (_send_mod_m1 s) v (global_skip s)
    (local_skip s) (batches_to_wait s) (epochs_to_wait s) (warmup_epochs s)
    (total_epochs s) (_param_send_buffer_shape s) (param_dict s) (shapes s)
    (amp s) (module s) (dist_initialized s) (trace s).

Definition set_global_skip (v : Z) (s : SkipBatches) : SkipBatches :=
  mkSkipBatches (comm_rank s) (comm_size s) (scheduler s) (apex s) (loc_gpus s)
    (reduced_ranks s) (current_batch s) (last_batch s) (_prev_params s)
    (epoch s) (_send_mod s) (_send_mod_m1 s) (_prev_losses_mean s) v
    (local_skip s) (batches_to_wait s) (epochs_to_wait s) (warmup_epochs s)
    (total_epochs s) (_param_send_buffer_shape s) (param_dict s) (shapes s)
    (amp s) (module s) (dist_initialized s) (trace s).

Definition set_local_skip (v : Z) (s : SkipBatches) : SkipBatches :=
  mkSkipBatches (comm_rank s) (comm_size s) (scheduler s) (apex s) (loc_gpus s)
    (reduced_ranks s) (current_batch s) (last_batch s) (_prev_params s)
    (epoch s) (_send_mod s) (_send_mod_m1 s) (_prev_losses_mean s)
    (global_skip s) v (batches_to_wait s) (epochs_to_wait s) (warmup_epochs s)
    (total_epochs s) (_param_send_buffer_shape s) (param_dict s) (shapes s)
    (amp s) (module s) (dist_initialized s) (trace s).

Definition set_batches_to_wait (v : Z) (s : SkipBatches) : SkipBatches :=
  mkSkipBatches (comm_rank s) (comm_size s) (scheduler s) (apex s) (loc_gpus s)
    (reduced_ranks s) (current_batch s) (last_batch s) (_prev_params s)
    (epoch s) (_send_mod s) (_send_mod_m1 s) (_prev_losses_mean s)
    (global_skip s) (local_skip s) v (epochs_to_wait s) (warmup_epochs s)
    (total_epochs s) (_param_send_buffer_shape s) (param_dict s) (shapes s)
    (amp s) (module s) (dist_initialized s) (trace s).

Definition set_epochs_to_wait (v : Z) (s : SkipBatches) : SkipBatches :=
  mkSkipBatches (comm_rank s) (comm_size s) (scheduler s) (apex s) (loc_gpus s)
    (reduced_ranks s) (current_batch s) (last_batch s) (_prev_params s)
    (epoch s) (_send_mod s) (_send_mod_m1 s) (_prev_losses_mean s)
    (global_skip s) (local_skip s) (batches_to_wait s) v (warmup_epochs s)
    (total_epochs s) (_param_send_buffer_shape s) (param_dict s) (shapes s)
    (amp s) (module s) (dist_initialized s) (trace s).

Definition set_param_send_buffer_shape (v : option nat) (s : SkipBatches)
  : SkipBatches :=
  mkSkipBatches (comm_rank s) (comm_size s) (scheduler s) (apex s) (loc_gpus s)
    (reduced_ranks s) (current_batch s) (last_batch s) (_prev_params s)
    (epoch s) (_send_mod s) (_send_mod_m1 s) (_prev_losses_mean s)
    (global_skip s) (local_skip s) (batches_to_wait s) (epochs_to_wait s)
    (warmup_epochs s) (total_epochs s) v (param_dict s) (shapes s)
    (amp s) (module s) (dist_initialized s) (trace s).

Definition set_param_dict (v : option (list (string * nat))) (s : SkipBatches)
  : SkipBatches :=
  mkSkipBatches (comm_rank s) (comm_size s) (scheduler s) (apex s) (loc_gpus s)
    (reduced_ranks s) (current_batch s) (last_batch s) (_prev_params s)
    (epoch s) (_send_mod s) (_send_mod_m1 s) (_prev_losses_mean s)
    (global_skip s) (local_skip s) (batches_to_wait s) (epochs_to_wait s)
    (warmup_epochs s) (total_epochs s) (_param_send_buffer_shape s) v
    (shapes s) (amp s) (module s) (dist_initialized s) (trace s).

Definition set_shapes (v : option shapes_dict) (s : SkipBatches) : SkipBatches :=
  mkSkipBatches (comm_rank s) (comm_size s) (scheduler s) (apex s) (loc_gpus s)
    (reduced_ranks s) (current_batch s) (last_batch s) (_prev_params s)
    (epoch s) (_send_mod s) (_send_mod_m1 s) (_prev_losses_mean s)
    (global_skip s) (local_skip s) (batches_to_wait s) (epochs_to_wait s)
    (warmup_epochs s) (total_epochs s) (_param_send_buffer_shape s)
    (param_dict s) v (amp s) (module s) (dist_initialized s) (trace s).

Definition set_amp (v : bool) (s : SkipBatches) : SkipBatches :=
  mkSkipBatches (comm_rank s) (comm_size s) (scheduler s) (apex s) (loc_gpus s)
    (reduced_ranks s) (current_batch s) (last_batch s) (_prev_params s)
    (epoch s) (_send_mod s) (_send_mod_m1 s) (_prev_losses_mean s)
    (global_skip s) (local_skip s) (batches_to_wait s) (epochs_to_wait s)
    (warmup_epochs s) (total_epochs s) (_param_send_buffer_shape s)
    (param_dict s) (shapes s) v (module s) (dist_initialized s) (trace s).

Definition set_module (v : option Module_) (s : SkipBatches) : SkipBatches :=
  mkSkipBatches (comm_rank s) (comm_size s) (scheduler s) (apex s) (loc_gpus s)
    (reduced_ranks s) (current_batch s) (last_batch s) (_prev_params s)
    (epoch s) (_send_mod s) (_send_mod_m1 s) (_prev_losses_mean s)
    (global_skip s) (local_skip s) (batches_to_wait s) (epochs_to_wait s)
    (warmup_epochs s) (total_epochs s) (_param_send_buffer_shape s)
    (param_dict s) (shapes s) (amp s) v (dist_initialized s) (trace s).

Definition set_trace (v : list event) (s : SkipBatches) : SkipBatches :=
  mkSkipBatches (comm_rank s) (comm_size s) (scheduler s) (apex s) (loc_gpus s)
    (reduced_ranks s) (current_batch s) (last_batch s) (_prev_params s)
    (epoch s) (_send_mod s) (_send_mod_m1 s) (_prev_losses_mean s)
    (global_skip s) (local_skip s) (batches_to_wait s) (epochs_to_wait s)
    (warmup_epochs s) (total_epochs s) (_param_send_buffer_shape s)
    (param_dict s) (shapes s) (amp s) (module s) (dist_initialized s) v.

(** The skip triple [(global_skip, local_skip, batches_to_wait)]. *)
Definition skip_state (s : SkipBatches) : Z * Z * Z :=
  (global_skip s, local_skip s, batches_to_wait s).

(** ** The monad of methods *)

Definition M (A : Type) : Type := SkipBatches -> result A * SkipBatches.

Definition ret {A} (a : A) : M A := fun s => (Ok a, s).

Definition raise {A} (e : exn) : M A := fun s => (Raise e, s).

Definition bind {A B} (m : M A) (k : A -> M B) : M B :=
  fun s => match m s with
           | (Ok a, s') => k a s'
           | (Raise e, s') => (Raise e, s')
           end.

Definition get : M SkipBatches := fun s => (Ok s, s).

Definition modify (f : SkipBatches -> SkipBatches) : M unit :=
  fun s => (Ok tt, f s).

Definition lift {A} (r : result A) : M A := fun s => (r, s).

End Scheduler.

Declare Scope method_scope.
Delimit Scope method_scope with method.
Notation "x <- c ;; k" := (bind c (fun x => k))
  (at level 61, c at next level, right associativity) : method_scope.
Notation "c ;; k" := (bind c (fun _ => k))
  (at level 61, right associativity) : method_scope.

Section Methods.
Context {TL : TensorLib} {W : World}.
Local Open Scope method_scope.

(** *** Access to attributes and to the outside *)

Definition tick : M nat := fun s => (Ok (length (trace s)), s).

Definition emit (evs : list event) : M unit :=
  modify (fun s => set_trace (trace s ++ evs) s).

(** [self.module]; the attribute exists once [set_model] has been called *)
Definition get_module : M Module_ :=
  s <- get ;;
  match module s with
  | Some m => ret m
  | None => raise AttributeError
  end.

(** [self.reduced_ranks] (and [self.reduced_comms]) *)
Definition get_reduced : M (list (list Z)) :=
  s <- get ;;
  match reduced_ranks s with
  | Some r => ret r
  | None => raise AttributeError
  end.

(** [self.device]: the constructor sets it together with the slots *)
Definition get_device : M unit :=
  s <- get ;;
  match reduced_ranks s with
  | Some _ => ret tt
  | None => raise AttributeError
  end.

(** [for name, param in self.module.named_parameters(): body], where the
    body works on [param] in place: a parameter changed before an exception
    stays changed. *)
Fixpoint for_params (body : string -> tensor -> result unit * tensor)
  (ps : list (string * tensor)) : result unit * list (string * tensor) :=
  match ps with
  | [] => (Ok tt, [])
  | (name, param) :: rest =>
      match body name param with
      | (Ok _, param') =>
          let (r, rest') := for_params body rest in (r, (name, param') :: rest')
      | (Raise e, param') => (Raise e, (name, param') :: rest)
      end
  end.

Definition for_named_parameters
  (body : string -> tensor -> result unit * tensor) : M unit :=
  m <- get_module ;;
  let (r, ps) := for_params body (named_parameters m) in
  modify (set_module
            (Some (mkModule (is_tDDP m) (require_backward_grad_sync m) ps))) ;;
  lift r.

(** *** [__init__]

    [device_count] is [torch.cuda.device_count()] and [dist_init] is
    [torch.distributed.is_initialized()]. *)
Definition __init__ (total_epochs_ rank size warmup_epochs_ : Z)
  (scheduler_ : bool) (device_count : Z) (dist_init : bool)
  : result SkipBatches :=
  let loc_gpus_ := device_count in
  match py_mod rank loc_gpus_ with
  | Raise e => Raise e
  | Ok local_rank =>
      let reduced :=
        if loc_gpus_ >? 1 then
          let base_loc_ranks := py_range3 0 size loc_gpus_ in
          Some (map (fun i => map (fun j => j + i) base_loc_ranks)
                    (py_range loc_gpus_))
        else None in
      Ok (mkSkipBatches rank size scheduler_ false loc_gpus_ reduced
            0 None [] 0 0 None [] 0 0 0 3 warmup_epochs_ total_epochs_
            None None None false None dist_init [])
  end.

Definition set_model (model : Module_) : M unit :=
  modify (set_module (Some model)).

Definition add_scaler : M unit := modify (set_amp true).

Definition set_sync_flag (m : Module_) (b : bool) : M unit :=
  modify (set_module (Some (mkModule (is_tDDP m) b (named_parameters m)))).

Definition _stop_local_sync : M unit :=
  m <- get_module ;;
  if negb (is_tDDP m) || negb (require_backward_grad_sync m) then ret tt
  else set_sync_flag m false.

Definition _start_local_sync : M unit :=
  m <- get_module ;;
  if negb (is_tDDP m) || require_backward_grad_sync m then ret tt
  else set_sync_flag m true.

(** *** [epoch_loss_logic] *)

(** [torch.mean] *)
Definition mean (l : list Q) : Q := loss_mean l.

(** The literal [0.075] of the stability test.  The test compares a float32
    tensor with it, so it is converted to float32 first: the bound is
    5033165 / 2^26 = 0.07500000298023224. *)
Definition stability_bound : Q := 5033165 # 67108864.

Definition epoch_loss_logic (loss : Q) : M unit :=
  s <- get ;;
  loss_send <- lift (py_setitem (repeat 0%Q (Z.to_nat (comm_size s)))
                                (comm_rank s) loss) ;;
  t <- tick ;;
  emit [EvAllreduceLoss] ;;
  let loss_send := allreduce_loss t loss_send in
  let avg_loss := mean loss_send in
  modify (fun s => set_prev_losses_mean (_prev_losses_mean s ++ [avg_loss]) s) ;;
  s <- get ;;
  if epoch s <? warmup_epochs s then
    modify (set_global_skip 0) ;;
    modify (set_local_skip 0) ;;
    modify (set_batches_to_wait 0)
  else
    (if 4 =? epoch s then
       modify (set_global_skip 4) ;;
       modify (set_local_skip 1) ;;
       modify (set_batches_to_wait 1) ;;
       modify (set_prev_losses_mean [])
     else ret tt) ;;
    s <- get ;;
    if epoch s >=? total_epochs s - 5 then
      modify (set_global_skip 0) ;;
      modify (set_local_skip 0) ;;
      modify (set_batches_to_wait 0)
    else if Z.of_nat (length (_prev_losses_mean s)) <? epochs_to_wait s then
      ret tt
    else
      let means := _prev_losses_mean s in
      last <- lift (py_index means (-1)) ;;
      back <- lift (py_index means (-1 * epochs_to_wait s)) ;;
      let diff := Qabs (loss_sub last back) in
      let stable := Qle_bool diff stability_bound in
      if stable && (global_skip s >? 1) then
        modify (fun s => set_global_skip (global_skip s / 2) s) ;;
        modify (fun s => set_local_skip (local_skip s / 2) s) ;;
        modify (fun s => set_batches_to_wait (batches_to_wait s / 2) s) ;;
        modify (fun s => set_epochs_to_wait (epochs_to_wait s + 1) s) ;;
        modify (set_prev_losses_mean []) ;;
        s <- get ;;
        if global_skip s >? 0 then
          (if batches_to_wait s =? 0 then modify (set_batches_to_wait 1)
           else ret tt) ;;
          s <- get ;;
          if local_skip s =? 0 then modify (set_local_skip 1) else ret tt
        else ret tt
      else if (global_skip s =? 1) && stable then
        modify (set_global_skip 8) ;;
        modify (set_local_skip 2) ;;
        modify (set_batches_to_wait 3) ;;
        modify (set_prev_losses_mean []) ;;
        modify (set_epochs_to_wait 3)
      else ret tt.

(** *** The parameter map and the send buffer *)

(** The loop of [_create_param_dict_n_shapes]; [i] is the position of the
    next parameter in [named_parameters]. *)
Fixpoint param_dict_n_shapes_loop (ps : list (string * tensor)) (i : nat)
  (param_dict_ : list (string * nat)) (shapes_ : shapes_dict) (st : nat)
  : list (string * nat) * shapes_dict * nat :=
  match ps with
  | [] => (param_dict_, shapes_, st)
  | (name, param) :: rest =>
      let param_dict_ := dict_set param_dict_ name i in
      let numel_ := numel param in
      let shapes_ :=
        dict_set shapes_ name
                 (mkEntry (t_shape param) st (st + numel_) (t_dtype param)) in
      param_dict_n_shapes_loop rest (S i) param_dict_ shapes_ (st + numel_)
  end.

Definition _create_param_dict_n_shapes
  : M (list (string * nat) * shapes_dict) :=
  s <- get ;;
  match shapes s, param_dict s with
  | Some shapes_, Some param_dict_ => ret (param_dict_, shapes_)
  | _, _ =>
      m <- get_module ;;
      let '(param_dict_, shapes_, st) :=
        param_dict_n_shapes_loop (named_parameters m) 0 [] [] 0 in
      (match _param_send_buffer_shape s with
       | None => modify (set_param_send_buffer_shape (Some st))
       | Some _ => ret tt
       end) ;;
      modify (set_param_dict (Some param_dict_)) ;;
      modify (set_shapes (Some shapes_)) ;;
      ret (param_dict_, shapes_)
  end.

(** The loop of [__pack_data].  The entries of [iter_dict] are the
    parameter objects of the model the map was built from; an entry names
    its object by its position in that model, and [ps] are these objects
    in their present state: the parameters of [self.module], the model the
    map was built from. *)
Fixpoint pack_loop (ps : list (string * tensor)) (items : list (string * nat))
  (params : tensor) (cast : bool) (st : nat) : result tensor :=
  match items with
  | [] => Ok params
  | (name, i) :: rest =>
      match nth_error ps i with
      | None => Raise RuntimeError
      | Some (_, param) =>
          if requires_grad param then
            let p := t_data param in
            let p := if cast then map (to_dtype bfloat16) p else p in
            match slice_assign params st (st + numel param) p with
            | Ok params' => pack_loop ps rest params' cast (st + numel param)
            | Raise e => Raise e
            end
          else pack_loop ps rest params cast st
      end
  end.

Definition __pack_data (ps : list (string * tensor))
  (iter_dict : list (string * nat)) (params : tensor) (cast : bool)
  : result tensor :=
  pack_loop ps iter_dict params cast 0.

(** [rcv_params[shapes[name][1]].reshape(shapes[name][0]).to(shapes[name][2])] *)
Definition unpack_region (rcv_params : tensor) (shapes_ : shapes_dict)
  (name : string) : result tensor :=
  match dict_get shapes_ name with
  | Raise e => Raise e
  | Ok e =>
      match reshape (tensor_slice rcv_params (e_start e) (e_stop e))
                    (e_shape e) with
      | Raise x => Raise x
      | Ok t => Ok (tensor_to t (e_dtype e))
      end
  end.

(** [prev_params[0].Wait()]: the buffer of the record now holds the sum *)
Definition waited (p : pending) : tensor :=
  with_data (p_params p) (mapi (allreduce_elem (p_request p))
                               (t_data (p_params p))).

(** [self._prev_params.pop(0)] *)
Definition pop_prev_params : M pending :=
  s <- get ;;
  match _prev_params s with
  | [] => raise IndexError
  | p :: rest => modify (set_prev_params rest) ;; ret p
  end.

(** *** [_global_send_update]

    [self.apex_dict] exists only if [self.apex] held in the constructor, which
    sets it to [False]; under [self.apex] the first access to it in
    [_create_apex_dict] therefore fails. *)
Definition _global_send_update (current_comm : Z) (batches_to_wait_ : Z)
  : M unit :=
  s <- get ;;
  let cast := global_skip s <? 1 in
  if negb (apex s) then
    ds <- _create_param_dict_n_shapes ;;
    let '(param_dict_, shapes_) := ds in
    s <- get ;;
    get_device ;;
    n <- match _param_send_buffer_shape s with
         | Some n => ret n
         | None => raise TypeError
         end ;;
    let params := torch_zeros n (if cast then Some bfloat16 else None) in
    m <- get_module ;;
    params <- lift (__pack_data (named_parameters m) param_dict_ params cast) ;;
    new_wait <- tick ;;
    emit [EvIallreduce current_comm cast] ;;
    modify (fun s => set_prev_params
                       (_prev_params s
                        ++ [mkPending new_wait params shapes_
                                      batches_to_wait_ None]) s)
  else raise AttributeError.

(** *** [_local_torch_param_update]

    The first loop issues one broadcast per trainable parameter; with a
    source outside the process group the first of them raises, before any
    parameter has changed. *)

Definition trainable_names (ps : list (string * tensor)) : list string :=
  map fst (filter (fun np => requires_grad (snd np)) ps).

Definition _local_torch_param_update (mod_hold_pr : option Z) : M unit :=
  match mod_hold_pr with
  | None => ret tt
  | Some src =>
      s <- get ;;
      if dist_initialized s then
        m <- get_module ;;
        (match trainable_names (named_parameters m) with
         | [] => ret tt
         | _ :: _ => if in_torch_group src then ret tt else raise RuntimeError
         end) ;;
        t <- tick ;;
        emit (map (EvBroadcast src) (trainable_names (named_parameters m))) ;;
        for_named_parameters
          (fun name param =>
             if requires_grad param
             then (Ok tt, with_data param (mapi (bcast_elem t src name)
                                                (t_data param)))
             else (Ok tt, param))
      else ret tt
  end.

(** *** [_update_parameters] *)

Definition merge_numer (batches_between : Q) : Q :=
  if negb (Qle_bool batches_between 0) then (batches_between * 2)%Q else 1%Q.

Definition merge_denom (n_ranks : nat) (numer : Q) : Q :=
  (inject_Z (Z.of_nat n_ranks) + numer)%Q.

(** The body of the loop over the parameters in [_update_parameters]. *)
Definition merge_param (rcv_params : tensor) (shapes_ : shapes_dict)
  (factor : Q) (name : string) (param : tensor) : result unit * tensor :=
  if requires_grad param then
    match unpack_region rcv_params shapes_ name with
    | Raise e => (Raise e, param)
    | Ok update =>
        let param := imul_scalar param factor in
        match iadd param update with
        | Raise e => (Raise e, param)
        | Ok param => (Ok tt, param)
        end
    end
  else (Ok tt, param).

Definition _update_parameters : M unit :=
  s <- get ;;
  match _send_mod_m1 s with
  | None => ret tt
  | Some m1 =>
      reduced <- get_reduced ;;
      prev_ranks <- lift (py_index reduced m1) ;;
      if negb (py_in (comm_rank s) prev_ranks) then ret tt
      else if Nat.eqb (length (_prev_params s)) 0 then ret tt
      else if apex s then ret tt
      else
        prev_params <- pop_prev_params ;;
        let batches_between := inject_Z (p_batches_to_wait prev_params) in
        let shapes_ := p_shapes prev_params in
        let numer := merge_numer batches_between in
        let denom := merge_denom (length prev_ranks) numer in
        factor <- lift (py_truediv numer denom) ;;
        emit [EvWait (p_request prev_params)] ;;
        let rcv_params := tensor_div (waited prev_params) denom in
        for_named_parameters (merge_param rcv_params shapes_ factor)
  end.

(** *** [_full_global_sync]

    [self.reduced_comms] and [self.reduced_ranks] have one entry per slot, so
    the two lookups at [self._send_mod] succeed or fail together and the
    communicator is named by the slot. *)

(** [self.current_batch == self.last_batch]; an [int] never equals [None] *)
Definition at_last_batch (s : SkipBatches) : bool :=
  match last_batch s with
  | Some lb => current_batch s =? lb
  | None => false
  end.

Definition next_send_mod (s : SkipBatches) : Z :=
  if _send_mod s <=? loc_gpus s - 2 then _send_mod s + 1 else 0.

(** The body of the loop that overwrites the parameters with the reduced
    values. *)
Definition receive_param (rcv_params : tensor) (shapes_ : shapes_dict)
  (name : string) (param : tensor) : result unit * tensor :=
  if requires_grad param then
    match unpack_region rcv_params shapes_ name with
    | Raise e => (Raise e, param)
    | Ok v =>
        match copy_into param v with
        | Raise e => (Raise e, param)
        | Ok param => (Ok tt, param)
        end
    end
  else (Ok tt, param).

(** The merge point: the branch of [_full_global_sync] taken on the last
    batch or when [batches_to_wait] is 0. *)
Definition merge_point (current_ranks : list Z) : M unit :=
  s <- get ;;
  (if py_in (comm_rank s) current_ranks then
     if (1 <? length (_prev_params s))%nat then raise ValueError
     else
       prev_params <- pop_prev_params ;;
       let shapes_ := p_shapes prev_params in
       emit [EvWait (p_request prev_params)] ;;
       let rcv_params :=
         tensor_div (waited prev_params)
                    (inject_Z (Z.of_nat (length current_ranks))) in
       for_named_parameters (receive_param rcv_params shapes_) ;;
       modify (set_prev_params [])
   else
     if (0 <? length (_prev_params s))%nat then raise ValueError
     else ret tt) ;;
  s <- get ;;
  _local_torch_param_update (Some (_send_mod s)) ;;
  modify (set_send_mod_m1 None) ;;
  s <- get ;;
  if at_last_batch s then
    modify (set_send_mod 0) ;;
    modify (fun s => set_epoch (epoch s + 1) s) ;;
    modify (set_current_batch 0)
  else
    modify (fun s => set_current_batch (current_batch s + 1) s) ;;
    modify (fun s => set_send_mod (next_send_mod s) s).

Definition _full_global_sync (batches_to_wait_ : Z) : M unit :=
  s <- get ;;
  reduced <- get_reduced ;;
  current_ranks <- lift (py_index reduced (_send_mod s)) ;;
  let current_comm := _send_mod s in
  (if py_in (comm_rank s) current_ranks
   then _global_send_update current_comm batches_to_wait_
   else ret tt) ;;
  s <- get ;;
  (if negb (batches_to_wait s =? 0) then
     _update_parameters ;;
     s <- get ;;
     _local_torch_param_update (_send_mod_m1 s)
   else ret tt) ;;
  s <- get ;;
  if at_last_batch s || (batches_to_wait s =? 0) then merge_point current_ranks
  else
    modify (fun s => set_current_batch (current_batch s + 1) s) ;;
    modify (fun s => set_send_mod_m1 (Some (_send_mod s)) s) ;;
    modify (fun s => set_send_mod (next_send_mod s) s).

(** *** [step] *)

(** The update by the local optimizer: through the scaler, the optimizer
    itself or the scheduler. *)
Definition local_optimizer_step : M unit :=
  s <- get ;;
  t <- tick ;;
  emit [if amp s then EvScalerStep
        else if negb (scheduler s) then EvOptimizerStep
        else EvSchedulerStep] ;;
  match module s with
  | None => ret tt
  | Some _ =>
      for_named_parameters
        (fun name param =>
           (Ok tt, with_data param (mapi (optim_elem t name) (t_data param))))
  end.

Definition incr_current_batch : M unit :=
  modify (fun s => set_current_batch (current_batch s + 1) s).

Definition step : M unit :=
  local_optimizer_step ;;
  s <- get ;;
  let batch := current_batch s in
  let next_batch := batch + 1 in
  let gs := global_skip s in
  let ls := local_skip s in
  gmod <- (if gs >? 0 then lift (py_mod batch gs) else ret 0) ;;
  lmod <- (if ls >? 0 then lift (py_mod batch ls) else ret 0) ;;
  let batches_to_wait_ := batches_to_wait s in
  lb <- match last_batch s with
        | Some lb => ret lb
        | None => raise TypeError
        end ;;
  let btw := if batches_to_wait_ + batch <=? lb then batches_to_wait_
             else lb - batch in
  if (batch =? lb) || (gmod =? 0) then _full_global_sync btw
  else
    r <- lift (py_mod next_batch gs) ;;
    if r =? 0 then
      _start_local_sync ;;
      incr_current_batch
    else if gmod <? btw then
      incr_current_batch ;;
      (if next_batch =? lb then _start_local_sync else ret tt)
    else
      (if gmod =? btw then
         _update_parameters ;;
         s' <- get ;;
         _local_torch_param_update (_send_mod_m1 s') ;;
         (if ls >? 1 then _stop_local_sync else ret tt)
       else ret tt) ;;
      if (ls =? 1) && negb (next_batch =? lb) then
        incr_current_batch ;;
        _start_local_sync
      else
        (if lmod =? 0 then _stop_local_sync
         else
           r <- lift (py_mod next_batch ls) ;;
           if r =? 0 then _start_local_sync else ret tt) ;;
        (if next_batch =? lb then _start_local_sync else ret tt) ;;
        incr_current_batch.

End Methods.

(** ** Vocabulary of the properties *)

Section Vocabulary.
Context {TL : TensorLib} {W : World}.

(** The rank of a process lies within its communicator. *)
Definition valid_comm (s : SkipBatches) : Prop :=
  0 <= comm_rank s < comm_size s.

(** The average that [epoch_loss_logic] appends to the history. *)
Definition avg_loss (s : SkipBatches) (loss : Q) : Q :=
  mean (allreduce_loss (length (trace s))
          (set_nth (repeat 0%Q (Z.to_nat (comm_size s)))
                   (Z.to_nat (comm_rank s)) loss)).

(** The instance once the loss has been reduced and appended. *)
Definition recorded (s : SkipBatches) (loss : Q) : SkipBatches :=
  set_prev_losses_mean (_prev_losses_mean s ++ [avg_loss s loss])
                       (set_trace (trace s ++ [EvAllreduceLoss]) s).

(** The clamp after a halving: a value that dropped to 0 goes back to 1. *)
Definition halved (v : Z) : Z := if v / 2 =? 0 then 1 else v / 2.

(** The attributes owned by the controller. *)
Definition controller_view (s : SkipBatches)
  : Z * Z * Z * Z * Z * Z * list Q :=
  (global_skip s, local_skip s, batches_to_wait s, epochs_to_wait s,
   warmup_epochs s, total_epochs s, _prev_losses_mean s).

(** The attributes [step] reads before it branches. *)
Definition cursor_view (s : SkipBatches) : Z * option Z * (Z * Z * Z) :=
  (current_batch s, last_batch s, skip_state s).

(** *** Pending records and the model *)

(** An entry of a parameter map describes [param] within a buffer of
    [buf_len] elements: its shape, and a range of as many elements as the
    parameter has, inside the buffer. *)
Definition fits_entry (buf_len : nat) (param : tensor) (en : shape_entry)
  : Prop :=
  e_shape en = t_shape param /\
  (e_start en + numel param = e_stop en)%nat /\
  (e_stop en <= buf_len)%nat.

(** The map of a pending record has such an entry for every trainable
    parameter of the model. *)
Definition fits (ps : list (string * tensor)) (rec : pending) : Prop :=
  Forall (fun np =>
            requires_grad (snd np) = true ->
            exists en, dict_get (p_shapes rec) (fst np) = Ok en /\
                       fits_entry (length (t_data (p_params rec))) (snd np) en)
         ps.



Definition map_params (g : string -> tensor -> tensor)
  (ps : list (string * tensor)) : list (string * tensor) :=
  map (fun np => (fst np, g (fst np) (snd np))) ps.

Definition with_parameters (m : Module_) (ps : list (string * tensor))
  : Module_ :=
  mkModule (is_tDDP m) (require_backward_grad_sync m) ps.

(** *** The parameter map of a model *)

(** The element count of all the parameters, trainable or not. *)
Fixpoint total_numel (ps : list (string * tensor)) : nat :=
  match ps with
  | [] => 0%nat
  | (_, param) :: rest => (numel param + total_numel rest)%nat
  end.

(** The element count of the parameters that require a gradient. *)
Fixpoint trainable_numel (ps : list (string * tensor)) : nat :=
  match ps with
  | [] => 0%nat
  | (_, param) :: rest =>
      ((if requires_grad param then numel param else 0)
       + trainable_numel rest)%nat
  end.

(** One entry per parameter, in the order of the model, each range starting
    where the previous one stops. *)
Fixpoint shapes_of (ps : list (string * tensor)) (st : nat) : shapes_dict :=
  match ps with
  | [] => []
  | (name, param) :: rest =>
      (name, mkEntry (t_shape param) st (st + numel param) (t_dtype param))
      :: shapes_of rest (st + numel param)
  end.

Fixpoint param_dict_of (ps : list (string * tensor)) (i : nat)
  : list (string * nat) :=
  match ps with
  | [] => []
  | (name, _) :: rest => (name, i) :: param_dict_of rest (S i)
  end.

(** Packing a model without downcast into a buffer of the size and with the
    map that [_create_param_dict_n_shapes] computes, and unpacking a buffer
    through that map with the loop of the merge point. *)
Definition pack_model (ps : list (string * tensor)) : result tensor :=
  __pack_data ps (param_dict_of ps 0) (torch_zeros (total_numel ps) None) false.

Definition unpack_model (ps : list (string * tensor)) (buf : tensor)
  : result unit * list (string * tensor) :=
  for_params (receive_param buf (shapes_of ps 0)) ps.

(** The values of a parameter survive the float32 buffer and the two
    conversions back to the dtype of the parameter. *)
Definition lossless (param : tensor) : Prop :=
  Forall (fun x => to_dtype (t_dtype param)
                     (to_dtype (t_dtype param) (to_dtype float32 x)) = x)
         (t_data param).

(** The contents of the buffer of a model whose parameters are all packed. *)
Definition flat_data (ps : list (string * tensor)) : list elem :=
  concat (map (fun np => map (to_dtype float32) (t_data (snd np))) ps).

(** The trainable parameters that [param[:]] can slice: they have at least
    one dimension. *)
Definition sliceable (ps : list (string * tensor)) : Prop :=
  Forall (fun np => requires_grad (snd np) = true -> t_shape (snd np) <> [])
         ps.


(** *** Frames and exceptions of methods *)

(** The method [m] never changes the view [f] of the instance, whether it
    returns or raises. *)
Definition preserves {X A} (f : SkipBatches -> X) (m : M A) : Prop :=
  forall s, f (snd (m s)) = f s.

(** The method [m] does not raise [e]. *)
Definition never_raises {A} (e : exn) (m : M A) : Prop :=
  forall s, fst (m s) <> Raise e.

(** *** Trainable parameters *)

(** A parameter that requires a gradient and holds as many elements as its
    shape says. *)
Definition trainable (np : string * tensor) : Prop :=
  requires_grad (snd np) = true /\ wf_tensor (snd np).

(** *** Runs of the training loop *)

(** What the training loop does with the optimizer: the public methods, and
    the assignment to [last_batch] that [step] relies on. *)
Inductive call : Type :=
| CallSetModel (model : Module_)
| CallAddScaler
| SetLastBatch (n : Z)
| CallStep
| CallEpochLossLogic (loss : Q).

Definition perform (c : call) : M unit :=
  match c with
  | CallSetModel model => set_model model
  | CallAddScaler => add_scaler
  | SetLastBatch n => modify (set_last_batch (Some n))
  | CallStep => step
  | CallEpochLossLogic loss => epoch_loss_logic loss
  end.

(** The instance after a sequence of calls; a call that raised leaves the
    instance as it was when the exception left the method. *)
Fixpoint run (cs : list call) (s : SkipBatches) : SkipBatches :=
  match cs with
  | [] => s
  | c :: rest => run rest (snd (perform c s))
  end.

(** The invariant of a run with a warm-up longer than 4 epochs. *)
Definition stuck_synchronous (s : SkipBatches) : Prop :=
  skip_state s = (0, 0, 0) /\ 4 < warmup_epochs s.

End Vocabulary.

(** ** A concrete tensor library and world

    Rational elements with exact arithmetic and identity conversions, and a
    world of one process: every collective returns what was put in, the
    process group of [torch.distributed] is rank 0 alone and the local
    optimizer leaves the parameters alone.  Used to run the methods on
    concrete inputs, on which the float32 operations round nothing. *)

Definition QTensorLib : TensorLib := {|
  elem := Q;
  ezero := 0%Q;
  to_dtype := fun _ x => x;
  mul_scalar := Qmult;
  div_scalar := Qdiv;
  add_elem := Qplus;
  loss_mean := fun l =>
    (fold_right Qplus 0 l / inject_Z (Z.of_nat (length l)))%Q;
  loss_sub := Qminus
|}.

Definition LoneWorld : @World QTensorLib := {|
  allreduce_loss := fun _ v => v;
  allreduce_elem := fun _ _ x => x;
  in_torch_group := fun src => src =? 0;
  bcast_elem := fun _ _ _ _ x => x;
  optim_elem := fun _ _ _ x => x
|}.

(** *** Concrete optimizers and models *)

Section Demo.
#[local] Existing Instance QTensorLib.
#[local] Existing Instance LoneWorld.
Local Open Scope string_scope.

(** [SkipBatches(optimizer, total_epochs=10, warmup_epochs=2)] on rank 0 of
    4 processes with 2 devices per node. *)
Definition demo_init : SkipBatches :=
  mkSkipBatches 0 4 false false 2 (Some [[0; 2]; [1; 3]]) 0 None [] 0 0 None
    [] 0 0 0 3 2 10 None None None false None false [].

(** The same with [total_epochs=20, warmup_epochs=6]. *)
Definition demo_long_warmup : SkipBatches :=
  mkSkipBatches 0 4 false false 2 (Some [[0; 2]; [1; 3]]) 0 None [] 0 0 None
    [] 0 0 0 3 6 20 None None None false None false [].

(** A model whose parameters all require a gradient: a 2x1 weight and an
    empty bias. *)
Definition demo_model : Module_ :=
  mkModule false false
    [("w", mkTensor [2; 1]%nat float32 true [3#1; 4#1]);
     ("b", mkTensor [0%nat] float32 true [])].

(** The same model behind a frozen parameter of two elements. *)
Definition frozen_model : Module_ :=
  mkModule false false
    [("frozen", mkTensor [2%nat] float32 false [1#1; 2#1]);
     ("w", mkTensor [2; 1]%nat float32 true [3#1; 4#1]);
     ("b", mkTensor [0%nat] float32 true [])].

(** [demo_init] with its model set and ten batches per epoch. *)
Definition demo_ready : SkipBatches :=
  run [CallSetModel demo_model; SetLastBatch 9] demo_init.

(** [demo_init] after two epochs of one batch each. *)
Definition demo_epoch_2 : SkipBatches :=
  run [CallSetModel demo_model; SetLastBatch 0;
       CallStep; CallEpochLossLogic (1#2); CallStep] demo_init.

(** A steady-state epoch: epoch 6 of 20, skip state (4, 1, 1), two loss
    averages recorded. *)
Definition demo_steady : SkipBatches :=
  set_prev_losses_mean [1#8; 1#8]
    (set_batches_to_wait 1 (set_local_skip 1 (set_global_skip 4
      (set_epoch 6 demo_long_warmup)))).

(** [demo_ready] in skip state (4, 1, 1) after its first batch: the
    reduction of slot 0 is pending. *)
Definition demo_pending : SkipBatches :=
  run [CallStep]
      (set_batches_to_wait 1 (set_local_skip 1 (set_global_skip 4 demo_ready))).


(** [demo_init] with the model that has a frozen parameter. *)
Definition demo_frozen : SkipBatches :=
  run [CallSetModel frozen_model; SetLastBatch 9] demo_init.

(** [demo_ready] with [torch.distributed] initialized. *)
Definition demo_distributed : SkipBatches :=
  match __init__ 10 0 4 2 false 2 true with
  | Ok s => run [CallSetModel demo_model; SetLastBatch 9] s
  | Raise _ => demo_ready
  end.

(** [SkipBatches(optimizer, total_epochs=20, warmup_epochs=2)] on rank 0 of
    4 processes with 2 devices per node. *)
Definition demo_twenty : SkipBatches :=
  mkSkipBatches 0 4 false false 2 (Some [[0; 2]; [1; 3]]) 0 None [] 0 0 None
    [] 0 0 0 3 2 20 None None None false None false [].

(** The start of epoch 7 of a training run of one batch per epoch on
    [demo_twenty]: the trigger of epoch 4 has set the skip state to
    (4, 1, 1), and the loss [l] of epochs 5 and 6 is on record. *)
Definition demo_epoch_7 (l : Q) : SkipBatches :=
  run [CallSetModel demo_model; SetLastBatch 0;
       CallStep; CallEpochLossLogic (1#2);
       CallStep; CallEpochLossLogic (1#2);
       CallStep; CallEpochLossLogic (1#2);
       CallStep; CallEpochLossLogic (1#2);
       CallStep; CallEpochLossLogic l;
       CallStep; CallEpochLossLogic l;
       CallStep] demo_twenty.

(** A loss whose average over the 4 processes is 0.075 converted to
    float32, which lies above 0.075. *)
Definition loss_at_bound : Q := 5033165 # 16777216.




(** Packing without downcast: the buffer of [_global_send_update] filled by
    [__pack_data], for the map and buffer size of
    [_create_param_dict_n_shapes]. *)
Definition packed (s : SkipBatches) : result (tensor * shapes_dict) :=
  match _create_param_dict_n_shapes s with
  | (Ok (param_dict_, shapes_), s') =>
      match _param_send_buffer_shape s', module s' with
      | Some n, Some m =>
          match __pack_data (named_parameters m) param_dict_
                            (torch_zeros n None) false with
          | Ok params => Ok (params, shapes_)
          | Raise e => Raise e
          end
      | _, _ => Raise AttributeError
      end
  | (Raise e, _) => Raise e
  end.

(** Unpacking: the loop of the merge point over the parameters. *)
Definition unpacked (s : SkipBatches) (buf : tensor) (shapes_ : shapes_dict)
  : result unit * list (string * tensor) :=
  match module s with
  | Some m => for_params (receive_param buf shapes_) (named_parameters m)
  | None => (Raise AttributeError, [])
  end.

End Demo.

(** * The rest of the module *)

(** ** [addCounter]

    The reduction operator [counterSumOp] merges the counter [counter2] into
    [counter1], which it changes in place and returns.  A counter is a [dict]
    from keys to integers; the loop runs over the keys of [counter2] in
    insertion order and each subscript is a lookup that can fail. *)

Definition counter : Type := list (string * Z).

(** [k in d] *)
Definition dict_mem {V} (d : list (string * V)) (k : string) : bool :=
  existsb (fun kv => String.eqb k (fst kv)) d.

(** A [dict] has every key once. *)
Definition valid_dict {V} (d : list (string * V)) : Prop := NoDup (map fst d).

(** The count of a key, 0 when the key is absent. *)
Definition count_of (d : counter) (k : string) : Z :=
  match dict_get d k with
  | Ok v => v
  | Raise _ => 0
  end.

Fixpoint addCounter_loop (counter1 counter2 : counter) (items : list string)
  : result counter :=
  match items with
  | [] => Ok counter1
  | item :: rest =>
      if dict_mem counter1 item then
        match dict_get counter1 item with
        | Raise e => Raise e
        | Ok v1 =>
            match dict_get counter2 item with
            | Raise e => Raise e
            | Ok v2 =>
                addCounter_loop (dict_set counter1 item (v1 + v2)) counter2 rest
            end
        end
      else
        match dict_get counter2 item with
        | Raise e => Raise e
        | Ok v2 => addCounter_loop (dict_set counter1 item v2) counter2 rest
        end
  end.

Definition addCounter (counter1 counter2 : counter) : result counter :=
  addCounter_loop counter1 counter2 (map fst counter2).

(** ** [DataParallelOptimizer]

    The wrapped torch optimizer is seen through what the class does with it:
    which list object [param_groups[0]["params"]] is, how many times [step]
    was called on it and for which parameters [zero_grad] reset the
    gradients.  List objects live in [lists]; a parameter is named by a
    number.  [params_ref] is a reference to a list object, not a copy. *)

Module DPO.

Record TorchOptimizer : Type := mkTorchOptimizer {
  lists : list (list nat);
  group_params : nat;
  steps_taken : nat;
  grads_zeroed : list (list nat)
}.

Record DataParallelOptimizer : Type := mkDataParallelOptimizer {
  torch_optimizer : TorchOptimizer;
  blocking_parameter_updates : bool;
  update_next : bool;
  params_ref : nat
}.

(** A Python value passed as [blocking]. *)
Inductive pyval : Type :=
| PyBool (b : bool)
| PyInt (z : Z)
| PyNone
| PyStr (s : string).

Definition __init__ (torch_optimizer_ : TorchOptimizer) (blocking : pyval)
  : result DataParallelOptimizer :=
  match blocking with
  | PyBool b =>
      Ok (mkDataParallelOptimizer torch_optimizer_ b false
            (group_params torch_optimizer_))
  | _ => Raise TypeError
  end.

Definition step (self : DataParallelOptimizer) : DataParallelOptimizer :=
  let o := torch_optimizer self in
  if blocking_parameter_updates self then
    mkDataParallelOptimizer
      (mkTorchOptimizer (lists o) (group_params o) (S (steps_taken o))
                        (grads_zeroed o))
      (blocking_parameter_updates self) (update_next self) (params_ref self)
  else
    mkDataParallelOptimizer o (blocking_parameter_updates self) true
                            (params_ref self).

(** [self.params_ref[:]] is a new list object with the same items; the
    gradients are then reset for the parameters of the group. *)
Definition zero_grad (self : DataParallelOptimizer)
  : result DataParallelOptimizer :=
  let o := torch_optimizer self in
  match nth_error (lists o) (params_ref self) with
  | None => Raise AttributeError
  | Some items =>
      Ok (mkDataParallelOptimizer
            (mkTorchOptimizer (lists o ++ [items]) (length (lists o))
                              (steps_taken o) (grads_zeroed o ++ [items]))
            (blocking_parameter_updates self) (update_next self)
            (params_ref self))
  end.

(** What the code around the optimizer does to the parameter group:
    [param_groups[0]["params"] = items] binds a new list object, and an
    operation such as [append] changes the bound object in place. *)
Definition rebind (items : list nat) (self : DataParallelOptimizer)
  : DataParallelOptimizer :=
  let o := torch_optimizer self in
  mkDataParallelOptimizer
    (mkTorchOptimizer (lists o ++ [items]) (length (lists o)) (steps_taken o)
                      (grads_zeroed o))
    (blocking_parameter_updates self) (update_next self) (params_ref self).

Definition change_in_place (items : list nat) (self : DataParallelOptimizer)
  : DataParallelOptimizer :=
  let o := torch_optimizer self in
  mkDataParallelOptimizer
    (mkTorchOptimizer (set_nth (lists o) (group_params o) items)
                      (group_params o) (steps_taken o) (grads_zeroed o))
    (blocking_parameter_updates self) (update_next self) (params_ref self).

Inductive call : Type :=
| Step
| ZeroGrad
| Rebind (items : list nat)
| ChangeInPlace (items : list nat).

Definition perform (c : call) (self : DataParallelOptimizer)
  : DataParallelOptimizer :=
  match c with
  | Step => step self
  | ZeroGrad => match zero_grad self with Ok s => s | Raise _ => self end
  | Rebind items => rebind items self
  | ChangeInPlace items => change_in_place items self
  end.

Fixpoint run (cs : list call) (self : DataParallelOptimizer)
  : DataParallelOptimizer :=
  match cs with
  | [] => self
  | c :: rest => run rest (perform c self)
  end.

(** The items of the list object [params_ref] refers to. *)
Definition ref_items (self : DataParallelOptimizer) : option (list nat) :=
  nth_error (lists (torch_optimizer self)) (params_ref self).

(** The items of the list object bound to the parameter group. *)
Definition group_items (self : DataParallelOptimizer) : option (list nat) :=
  nth_error (lists (torch_optimizer self))
            (group_params (torch_optimizer self)).

(** No call changes in place the list object that [params_ref] refers to:
    [aliased] says whether the group is still bound to that object. *)
Fixpoint keeps_reference (aliased : bool) (cs : list call) : bool :=
  match cs with
  | [] => true
  | Step :: rest => keeps_reference aliased rest
  | ZeroGrad :: rest => keeps_reference false rest
  | Rebind _ :: rest => keeps_reference false rest
  | ChangeInPlace _ :: rest => negb aliased && keeps_reference aliased rest
  end.

Definition count_steps (cs : list call) : nat :=
  length (filter (fun c => match c with Step => true | _ => false end) cs).

End DPO.

(** ** Views of the instance used by the properties of the rest *)

Section Views.
Context {TL : TensorLib} {W : World}.

(** Everything [epoch_loss_logic] has no business with: the model, the
    pending reductions, the batch cursor, the slots, the parameter map and
    the setup of the constructor. *)
Definition training_view (s : SkipBatches) :=
  (module s, _prev_params s, (current_batch s, last_batch s, epoch s),
   (_send_mod s, _send_mod_m1 s), (param_dict s, shapes s),
   _param_send_buffer_shape s, (amp s, scheduler s, apex s),
   (loc_gpus s, reduced_ranks s, comm_rank s, comm_size s),
   (dist_initialized s, warmup_epochs s, total_epochs s)).

(** The skip triples the controller can reach. *)
Definition skip_cycle : list (Z * Z * Z) :=
  [(0, 0, 0); (4, 1, 1); (2, 1, 1); (1, 1, 1); (8, 2, 3)].

End Views.

Section ControllerVocabulary.
Context {TL : TensorLib} {W : World}.

(** What a call of [epoch_loss_logic] does to the controller. *)
Inductive verdict : Type :=
| Rejected      (* the rank is no index of the loss vector *)
| Resynchronized         (* warm-up or cool-down: back to full synchronization *)
| Triggered     (* the literal epoch 4: the first skip pattern *)
| Kept          (* too few averages, or the loss still moves *)
| Halved        (* stable with [global_skip > 1] *)
| Doubled.      (* stable with [global_skip = 1] *)

Definition verdict_holds (v : verdict) (s : SkipBatches) (avg : Q)
  (out : result unit * SkipBatches) : Prop :=
  let s' := snd out in
  let h := _prev_losses_mean s ++ [avg] in
  match v with
  | Rejected =>
      out = (Raise IndexError, s)
  | Resynchronized =>
      fst out = Ok tt /\ skip_state s' = (0, 0, 0) /\
      epochs_to_wait s' = epochs_to_wait s /\
      (epoch s < warmup_epochs s \/ total_epochs s - 5 <= epoch s) /\
      _prev_losses_mean s'
      = (if (4 =? epoch s) && (warmup_epochs s <=? epoch s) then [] else h)
  | Triggered =>
      epoch s = 4 /\ skip_state s' = (4, 1, 1) /\
      epochs_to_wait s' = epochs_to_wait s /\ _prev_losses_mean s' = []
  | Kept =>
      skip_state s' = skip_state s /\
      epochs_to_wait s' = epochs_to_wait s /\ _prev_losses_mean s' = h
  | Halved =>
      fst out = Ok tt /\ 1 < global_skip s /\
      epochs_to_wait s <= Z.of_nat (length h) /\
      skip_state s' = (global_skip s / 2, halved (local_skip s),
                       halved (batches_to_wait s)) /\
      epochs_to_wait s' = epochs_to_wait s + 1 /\ _prev_losses_mean s' = []
  | Doubled =>
      fst out = Ok tt /\ global_skip s = 1 /\
      epochs_to_wait s <= Z.of_nat (length h) /\
      skip_state s' = (8, 2, 3) /\
      epochs_to_wait s' = 3 /\ _prev_losses_mean s' = []
  end.

End ControllerVocabulary.

Section StepVocabulary.
Context {TL : TensorLib} {W : World}.

(** The batch cursor and the slot markers. *)
Definition cursor (s : SkipBatches) : Z * Z * Z * option Z :=
  (current_batch s, epoch s, _send_mod s, _send_mod_m1 s).

(** What no method but the constructor and the training loop sets, and the
    state of the controller. *)
Definition setup_view (s : SkipBatches) :=
  (last_batch s, (loc_gpus s, reduced_ranks s, comm_rank s, comm_size s),
   (apex s, amp s, scheduler s, dist_initialized s), controller_view s).

(** The cursor, the pending reductions and the setup. *)
Definition queue_view (s : SkipBatches) :=
  (cursor s, _prev_params s, setup_view s).

(** The cursor and the setup. *)
Definition position_view (s : SkipBatches) := (cursor s, setup_view s).

(** What a call of [step] does to the cursor. *)
Inductive move : Type :=
| Stayed      (* an exception before the cursor moved *)
| Advanced    (* a batch without global synchronization *)
| Deferred    (* a global synchronization whose result is merged later *)
| Merged      (* a global synchronization merged at once *)
| Wrapped.    (* the last batch of the epoch *)

Definition move_holds (mv : move) (s : SkipBatches)
  (out : result unit * SkipBatches) : Prop :=
  let s' := snd out in
  match mv with
  | Stayed =>
      is_ok (fst out) = false /\ cursor s' = cursor s
  | Advanced =>
      at_last_batch s = false /\ 0 < global_skip s /\
      cursor s'
      = (current_batch s + 1, epoch s, _send_mod s, _send_mod_m1 s)
  | Deferred =>
      fst out = Ok tt /\ at_last_batch s = false /\
      batches_to_wait s <> 0 /\
      cursor s'
      = (current_batch s + 1, epoch s, next_send_mod s, Some (_send_mod s))
  | Merged =>
      fst out = Ok tt /\ at_last_batch s = false /\
      _prev_params s' = [] /\
      cursor s' = (current_batch s + 1, epoch s, next_send_mod s, None)
  | Wrapped =>
      fst out = Ok tt /\ at_last_batch s = true /\
      _prev_params s' = [] /\
      cursor s' = (0, epoch s + 1, 0, None)
  end.

(** The method [m] moves the cursor to the next batch and leaves the slot
    markers alone; if it raises, it may have done so before or after. *)
Definition advances {A} (m : M A) : Prop :=
  forall s,
    position_view (snd (m s))
    = (current_batch s + 1, epoch s, _send_mod s, _send_mod_m1 s,
       setup_view s)
    \/ (is_ok (fst (m s)) = false /\
        position_view (snd (m s)) = position_view s).

End StepVocabulary.

Section RunVocabulary.
Context {TL : TensorLib} {W : World}.

(** The slots are there and the slot markers point into them, at two
    different slots. *)
Definition slots_in_range (g : Z) (s : SkipBatches) : Prop :=
  loc_gpus s = g /\
  (exists slots, reduced_ranks s = Some slots /\
                 length slots = Z.to_nat g) /\
  0 <= _send_mod s < g /\
  forall m, _send_mod_m1 s = Some m -> 0 <= m < g /\ m <> _send_mod s.

(** An instance without slots that has not left its first batch. *)
Definition stuck_at_start (s : SkipBatches) : Prop :=
  reduced_ranks s = None /\ epoch s = 0 /\ current_batch s = 0 /\
  skip_state s = (0, 0, 0).

End RunVocabulary.

Section PackVocabulary.
Context {TL : TensorLib} {W : World}.

(** The parameters that [__pack_data] packs. *)
Definition packed_params (ps : list (string * tensor))
  : list (string * tensor) :=
  filter (fun np => requires_grad (snd np)) ps.

(** [self.module.require_backward_grad_sync], when there is a model. *)
Definition sync_flag (s : SkipBatches) : option bool :=
  match module s with
  | Some m => Some (require_backward_grad_sync m)
  | None => None
  end.

(** What a broadcast from [src] leaves in a parameter. *)
Definition broadcast (t : nat) (src : Z) (name : string) (param : tensor)
  : tensor :=
  if requires_grad param
  then with_data param (mapi (bcast_elem t src name) (t_data param))
  else param.

End PackVocabulary.

(** * Properties *)

(** ** Running a method: equations of the monad *)

Section Logic.
Context {TL : TensorLib} {W : World}.
Local Open Scope method_scope.

Lemma bind_assoc {A B C} (m : M A) (f : A -> M B) (k : B -> M C) s :
  bind (bind m f) k s = bind m (fun x => bind (f x) k) s.
Proof. unfold bind. destruct (m s) as [[a|e] s1]; reflexivity. Qed.

Lemma bind_ret {A B} (a : A) (k : A -> M B) s : bind (ret a) k s = k a s.
Proof. reflexivity. Qed.

Lemma bind_raise {A B} e (k : A -> M B) s : bind (raise e) k s = (Raise e, s).
Proof. reflexivity. Qed.

Lemma bind_get {B} (k : SkipBatches -> M B) s : bind get k s = k s s.
Proof. reflexivity. Qed.

Lemma bind_modify {B} f (k : unit -> M B) s : bind (modify f) k s = k tt (f s).
Proof. reflexivity. Qed.

Lemma bind_lift_ok {A B} (a : A) (k : A -> M B) s :
  bind (lift (Ok a)) k s = k a s.
Proof. reflexivity. Qed.

Lemma bind_lift_raise {A B} e (k : A -> M B) s :
  bind (lift (Raise e)) k s = (Raise e, s).
Proof. reflexivity. Qed.

Lemma bind_tick {B} (k : nat -> M B) s :
  bind tick k s = k (length (trace s)) s.
Proof. reflexivity. Qed.

Lemma bind_emit {B} evs (k : unit -> M B) s :
  bind (emit evs) k s = k tt (set_trace (trace s ++ evs) s).
Proof. reflexivity. Qed.

Lemma bind_if {A B} (b : bool) (m1 m2 : M A) (k : A -> M B) s :
  bind (if b then m1 else m2) k s = if b then bind m1 k s else bind m2 k s.
Proof. destruct b; reflexivity. Qed.

Lemma run_if {A} (b : bool) (m1 m2 : M A) s :
  (if b then m1 else m2) s = if b then m1 s else m2 s.
Proof. destruct b; reflexivity. Qed.

Lemma run_modify f s : modify f s = (Ok tt, f s).
Proof. reflexivity. Qed.

Lemma run_ret {A} (a : A) s : ret a s = (Ok a, s).
Proof. reflexivity. Qed.

Lemma run_raise {A} e s : @raise _ A e s = (Raise e, s).
Proof. reflexivity. Qed.

Lemma bind_run {A B} (m : M A) (k : A -> M B) s a s1 :
  m s = (Ok a, s1) -> bind m k s = k a s1.
Proof. intros H. unfold bind. rewrite H. reflexivity. Qed.

(** Two continuations that agree on what the first method can reach. *)
Lemma bind_ext {A B} (m : M A) (k1 k2 : A -> M B) s :
  (forall a s1, m s = (Ok a, s1) -> k1 a s1 = k2 a s1) ->
  bind m k1 s = bind m k2 s.
Proof.
  intros H. unfold bind. destruct (m s) as [[a|e] s1]; auto.
Qed.

End Logic.

Create Rewrite HintDb method.

#[local] Hint Rewrite
  @bind_assoc @bind_ret @bind_raise @bind_get @bind_modify @bind_lift_ok
  @bind_lift_raise @bind_tick @bind_emit @run_modify @run_ret @run_raise
  : method.

(** Projections of an updated instance compute. *)
Ltac fields :=
  cbn [comm_rank comm_size scheduler apex loc_gpus reduced_ranks current_batch
       last_batch _prev_params epoch _send_mod _send_mod_m1 _prev_losses_mean
       global_skip local_skip batches_to_wait epochs_to_wait warmup_epochs
       total_epochs _param_send_buffer_shape param_dict shapes amp module
       dist_initialized trace
       set_current_batch set_last_batch set_prev_params set_epoch set_send_mod
       set_send_mod_m1 set_prev_losses_mean set_global_skip set_local_skip
       set_batches_to_wait set_epochs_to_wait set_param_send_buffer_shape
       set_param_dict set_shapes set_amp set_module set_trace skip_state
       fst snd] in *.

Ltac mrun := repeat (autorewrite with method; cbv beta; fields).

(** ** Python primitives *)

Lemma py_setitem_ok {A} (l : list A) i v :
  0 <= i < Z.of_nat (length l) ->
  py_setitem l i v = Ok (set_nth l (Z.to_nat i) v).
Proof.
  intros H. unfold py_setitem.
  destruct (i <? 0) eqn:E; [apply Z.ltb_lt in E; lia|].
  destruct (0 <=? i) eqn:E1; [|apply Z.leb_gt in E1; lia].
  destruct (i <? Z.of_nat (length l)) eqn:E2; [|apply Z.ltb_ge in E2; lia].
  reflexivity.
Qed.

(** [l[-k]] is the [k]-th entry counted from the end. *)
Lemma py_index_from_end {A} (l : list A) k :
  1 <= k <= Z.of_nat (length l) ->
  exists x, nth_error l (length l - Z.to_nat k) = Some x /\
            py_index l (- k) = Ok x.
Proof.
  intros H. unfold py_index.
  destruct (- k <? 0) eqn:E; [|apply Z.ltb_ge in E; lia].
  destruct (0 <=? Z.of_nat (length l) + - k) eqn:E1;
    [|apply Z.leb_gt in E1; lia].
  destruct (Z.of_nat (length l) + - k <? Z.of_nat (length l)) eqn:E2;
    [|apply Z.ltb_ge in E2; lia].
  cbn [andb].
  replace (Z.to_nat (Z.of_nat (length l) + - k))
    with (length l - Z.to_nat k)%nat by lia.
  destruct (nth_error l (length l - Z.to_nat k)) as [x|] eqn:N.
  - exists x. split; reflexivity.
  - apply nth_error_None in N. lia.
Qed.

Lemma py_mod_ok a b : b <> 0 -> py_mod a b = Ok (a mod b).
Proof.
  intros H. unfold py_mod. destruct (b =? 0) eqn:E; [|reflexivity].
  apply Z.eqb_eq in E. contradiction.
Qed.

(** ** Attributes a method leaves alone *)

Section Frame.
Context {TL : TensorLib} {W : World}.
Local Open Scope method_scope.

Variable X : Type.
Variable f : SkipBatches -> X.

Lemma preserves_ret {A} (a : A) : preserves f (ret a).
Proof. intros s. reflexivity. Qed.

Lemma preserves_raise {A} e : preserves f (@raise _ A e).
Proof. intros s. reflexivity. Qed.

Lemma preserves_get : preserves f get.
Proof. intros s. reflexivity. Qed.

Lemma preserves_tick : preserves f tick.
Proof. intros s. reflexivity. Qed.

Lemma preserves_lift {A} (r : result A) : preserves f (lift r).
Proof. intros s. reflexivity. Qed.

Lemma preserves_modify g :
  (forall s, f (g s) = f s) -> preserves f (modify g).
Proof. intros H s. apply H. Qed.

Lemma preserves_bind {A B} (m : M A) (k : A -> M B) :
  preserves f m -> (forall a, preserves f (k a)) -> preserves f (bind m k).
Proof.
  intros Hm Hk s. unfold bind. specialize (Hm s).
  destruct (m s) as [[a|e] s1]; cbn [snd] in *.
  - rewrite Hk. exact Hm.
  - exact Hm.
Qed.

End Frame.

(** Decomposes a method along its binds, branches and matches. *)
Ltac preserve_step :=
  first
    [ apply preserves_ret | apply preserves_raise | apply preserves_get
    | apply preserves_tick | apply preserves_lift
    | apply preserves_modify; intros; reflexivity
    | apply preserves_bind; [|intros ?]
    | assumption
    | match goal with
      | |- preserves _ (if ?b then _ else _) => destruct b
      | |- preserves _ (match ?x with _ => _ end) => destruct x
      | |- preserves _ (let (_, _) := ?x in _) => destruct x
      end ].

Ltac preserve := repeat preserve_step.

Ltac controller_start Hc :=
  unfold epoch_loss_logic; mrun;
  rewrite py_setitem_ok
    by (rewrite repeat_length; unfold valid_comm in Hc; lia);
  mrun; rewrite run_if.

(** ** The loss stability controller: [epoch_loss_logic] *)

Section Controller.
Context {TL : TensorLib} {W : World}.
Local Open Scope method_scope.

Lemma epoch_loss_logic_warmup s loss :
  valid_comm s -> epoch s < warmup_epochs s ->
  epoch_loss_logic loss s
  = (Ok tt, set_batches_to_wait 0
              (set_local_skip 0 (set_global_skip 0 (recorded s loss)))).
Proof.
  intros Hc He. controller_start Hc.
  apply Z.ltb_lt in He. rewrite He. mrun. reflexivity.
Qed.

Lemma epoch_loss_logic_cooldown s loss :
  valid_comm s -> warmup_epochs s <= epoch s ->
  total_epochs s - 5 <= epoch s ->
  skip_state (snd (epoch_loss_logic loss s)) = (0, 0, 0) /\
  fst (epoch_loss_logic loss s) = Ok tt.
Proof.
  intros Hc Hw He. controller_start Hc.
  apply Z.ltb_ge in Hw. rewrite Hw. rewrite bind_if.
  assert (Hge : (epoch s >=? total_epochs s - 5) = true)
    by (apply Z.geb_le; lia).
  destruct (4 =? epoch s); mrun; rewrite run_if; fields; rewrite Hge;
    mrun; split; reflexivity.
Qed.

(** C5. In a steady-state epoch (past warm-up, before cool-down, and other
    than the literal epoch 4 of the trigger) with at least [epochs_to_wait]
    loss averages recorded, the controller compares the latest average with
    the [epochs_to_wait]-th most recent one.  The trend is stable iff their
    difference, taken in float32, is in absolute value at most 0.075
    converted to float32 ([stability_bound], 0.07500000298023224).  If it
    is stable and [global_skip > 1], the three skip values are halved by
    integer division, [local_skip] and [batches_to_wait] are clamped back up
    to 1, [epochs_to_wait] grows by 1 and the history is cleared; if it is
    stable and [global_skip = 1], the triple becomes (8, 2, 3),
    [epochs_to_wait] becomes 3 and the history is cleared; if it is not
    stable, the skip state is unchanged. *)
Theorem C5_steady_state_stability_test (s : SkipBatches) (loss : Q) :
  valid_comm s ->
  warmup_epochs s <= epoch s -> epoch s <> 4 ->
  epoch s < total_epochs s - 5 ->
  1 <= epochs_to_wait s
    <= Z.of_nat (length (_prev_losses_mean s ++ [avg_loss s loss])) ->
  let h := _prev_losses_mean s ++ [avg_loss s loss] in
  let s' := snd (epoch_loss_logic loss s) in
  exists latest back : Q,
    nth_error h (length h - 1) = Some latest /\
    nth_error h (length h - Z.to_nat (epochs_to_wait s)) = Some back /\
    fst (epoch_loss_logic loss s) = Ok tt /\
    ((Qabs (loss_sub latest back) <= stability_bound)%Q -> 1 < global_skip s ->
       skip_state s' = (global_skip s / 2, halved (local_skip s),
                        halved (batches_to_wait s)) /\
       epochs_to_wait s' = epochs_to_wait s + 1 /\
       _prev_losses_mean s' = []) /\
    ((Qabs (loss_sub latest back) <= stability_bound)%Q -> global_skip s = 1 ->
       skip_state s' = (8, 2, 3) /\
       epochs_to_wait s' = 3 /\
       _prev_losses_mean s' = []) /\
    (~ (Qabs (loss_sub latest back) <= stability_bound)%Q ->
       skip_state s' = skip_state s /\
       epochs_to_wait s' = epochs_to_wait s /\
       _prev_losses_mean s' = h).
Proof.
  intros Hc Hw H4 He Hk. cbv zeta.
  set (h := _prev_losses_mean s ++ [avg_loss s loss]) in *.
  assert (Hh : (1 <= length h)%nat)
    by (unfold h; rewrite length_app; cbn [length]; lia).
  destruct (@py_index_from_end _ h 1) as (latest & Nl & Il); [lia|].
  destruct (@py_index_from_end _ h (epochs_to_wait s)) as (back & Nb & Ib);
    [exact Hk|].
  exists latest, back. split; [exact Nl|]. split; [exact Nb|].
  assert (Run : epoch_loss_logic loss s
    = (let stable := Qle_bool (Qabs (loss_sub latest back)) stability_bound in
       if stable && (global_skip s >? 1) then
         (Ok tt,
          set_local_skip (halved (local_skip s))
            (set_batches_to_wait (halved (batches_to_wait s))
              (set_prev_losses_mean []
                (set_epochs_to_wait (epochs_to_wait s + 1)
                  (set_batches_to_wait (batches_to_wait s / 2)
                    (set_local_skip (local_skip s / 2)
                      (set_global_skip (global_skip s / 2)
                                       (recorded s loss))))))))
       else if (global_skip s =? 1) && stable then
         (Ok tt,
          set_epochs_to_wait 3
            (set_prev_losses_mean []
              (set_batches_to_wait 3
                (set_local_skip 2 (set_global_skip 8 (recorded s loss))))))
       else (Ok tt, recorded s loss))).
  { controller_start Hc.
    apply Z.ltb_ge in Hw. rewrite Hw. rewrite bind_if.
    assert (E4 : (4 =? epoch s) = false) by (apply Z.eqb_neq; lia).
    rewrite E4. mrun. rewrite run_if. fields.
    assert (Hge : (epoch s >=? total_epochs s - 5) = false).
    { rewrite Z.geb_leb. apply Z.leb_gt. lia. }
    rewrite Hge. rewrite run_if.
    assert (Hlen : (Z.of_nat (length h) <? epochs_to_wait s) = false)
      by (apply Z.ltb_ge; lia).
    unfold h, avg_loss in Hlen. rewrite Hlen.
    fold (avg_loss s loss). fold h.
    change (-1) with (- (1)). rewrite Il. mrun.
    replace (- (1) * epochs_to_wait s) with (- epochs_to_wait s) by lia.
    rewrite Ib. mrun. cbv zeta. rewrite !run_if.
    destruct (Qle_bool (Qabs (loss_sub latest back)) stability_bound); cbn [andb].
    - destruct (global_skip s >? 1) eqn:G.
      + apply Z.gtb_lt in G. mrun. rewrite run_if. fields.
        assert (G2 : (global_skip s / 2 >? 0) = true).
        { apply Z.gtb_lt.
          pose proof (Z.div_le_lower_bound (global_skip s) 2 1). lia. }
        rewrite G2. rewrite bind_if. unfold halved.
        destruct (batches_to_wait s / 2 =? 0); mrun; rewrite run_if; fields;
          destruct (local_skip s / 2 =? 0); mrun; destruct s; reflexivity.
      + rewrite andb_true_r.
        destruct (global_skip s =? 1); mrun; reflexivity.
    - rewrite andb_false_r. mrun. reflexivity. }
  rewrite Run. cbv zeta.
  split.
  { destruct (Qle_bool _ _ && _); [reflexivity|].
    destruct (_ && _); reflexivity. }
  split; [|split].
  - intros Hs Hg. apply Qle_bool_iff in Hs. rewrite Hs.
    assert (G : (global_skip s >? 1) = true) by (apply Z.gtb_lt; lia).
    rewrite G. cbn [andb]. fields. repeat split; reflexivity.
  - intros Hs Hg. apply Qle_bool_iff in Hs. rewrite Hs, Hg.
    cbn [andb Z.gtb Z.compare Z.eqb Pos.eqb]. fields.
    repeat split; reflexivity.
  - intros Hs.
    destruct (Qle_bool (Qabs (loss_sub latest back)) stability_bound) eqn:E.
    + apply Qle_bool_iff in E. contradiction.
    + cbn [andb]. rewrite andb_false_r. unfold recorded. fields.
      repeat split; reflexivity.
Qed.

End Controller.

(** ** What [step] leaves to the controller *)

Section StepFrame.
Context {TL : TensorLib} {W : World}.
Local Open Scope method_scope.

Section AnyView.
Variable X : Type.
Variable f : SkipBatches -> X.
Hypothesis f_module : forall v s, f (set_module v s) = f s.
Hypothesis f_trace : forall v s, f (set_trace v s) = f s.

Lemma preserves_emit evs : preserves f (emit evs).
Proof. unfold emit. apply preserves_modify. intros. apply f_trace. Qed.

Lemma preserves_get_module : preserves f get_module.
Proof. unfold get_module. preserve. Qed.

Lemma preserves_get_reduced : preserves f get_reduced.
Proof. unfold get_reduced. preserve. Qed.

Lemma preserves_for_named_parameters body :
  preserves f (for_named_parameters body).
Proof.
  unfold for_named_parameters.
  apply preserves_bind; [apply preserves_get_module|intros m].
  destruct (for_params body (named_parameters m)) as [r ps].
  apply preserves_bind; [|intros; apply preserves_lift].
  apply preserves_modify. intros. apply f_module.
Qed.

Lemma preserves_set_sync_flag m b : preserves f (set_sync_flag m b).
Proof. unfold set_sync_flag. apply preserves_modify. intros. apply f_module. Qed.

Lemma preserves_stop_local_sync : preserves f _stop_local_sync.
Proof.
  unfold _stop_local_sync.
  apply preserves_bind; [apply preserves_get_module|intros m].
  destruct (_ || _); [apply preserves_ret|apply preserves_set_sync_flag].
Qed.

Lemma preserves_start_local_sync : preserves f _start_local_sync.
Proof.
  unfold _start_local_sync.
  apply preserves_bind; [apply preserves_get_module|intros m].
  destruct (_ || _); [apply preserves_ret|apply preserves_set_sync_flag].
Qed.

Lemma preserves_local_optimizer_step : preserves f local_optimizer_step.
Proof.
  unfold local_optimizer_step.
  apply preserves_bind; [apply preserves_get|intros s].
  apply preserves_bind; [apply preserves_tick|intros t].
  apply preserves_bind; [apply preserves_emit|intros _].
  destruct (module s);
    [apply preserves_for_named_parameters|apply preserves_ret].
Qed.

Lemma preserves_local_torch_param_update h :
  preserves f (_local_torch_param_update h).
Proof.
  unfold _local_torch_param_update. destruct h as [src|]; [|apply preserves_ret].
  apply preserves_bind; [apply preserves_get|intros s].
  destruct (dist_initialized s); [|apply preserves_ret].
  apply preserves_bind; [apply preserves_get_module|intros m].
  apply preserves_bind.
  { destruct (trainable_names _); [apply preserves_ret|].
    destruct (in_torch_group src); [apply preserves_ret|apply preserves_raise]. }
  intros _.
  apply preserves_bind; [apply preserves_tick|intros t].
  apply preserves_bind; [apply preserves_emit|intros _].
  apply preserves_for_named_parameters.
Qed.

End AnyView.

Create HintDb frame.

#[local] Hint Resolve
  preserves_emit preserves_get_module preserves_get_reduced
  preserves_for_named_parameters preserves_stop_local_sync
  preserves_start_local_sync preserves_local_optimizer_step
  preserves_local_torch_param_update : frame.

Ltac controller_frame :=
  repeat first
    [ match goal with
      | |- preserves controller_view _ => solve [auto with frame]
      end
    | progress cbv zeta
    | preserve_step ].

Lemma create_param_dict_n_shapes_controller :
  preserves controller_view _create_param_dict_n_shapes.
Proof. unfold _create_param_dict_n_shapes. controller_frame. Qed.

Lemma pop_prev_params_controller : preserves controller_view pop_prev_params.
Proof. unfold pop_prev_params. controller_frame. Qed.

#[local] Hint Resolve
  create_param_dict_n_shapes_controller pop_prev_params_controller : frame.

Lemma global_send_update_controller c b :
  preserves controller_view (_global_send_update c b).
Proof. unfold _global_send_update. controller_frame. Qed.

Lemma update_parameters_controller :
  preserves controller_view _update_parameters.
Proof. unfold _update_parameters. controller_frame. Qed.

#[local] Hint Resolve
  global_send_update_controller update_parameters_controller : frame.

Lemma merge_point_controller r : preserves controller_view (merge_point r).
Proof. unfold merge_point. controller_frame. Qed.

#[local] Hint Resolve merge_point_controller : frame.

Lemma full_global_sync_controller b :
  preserves controller_view (_full_global_sync b).
Proof. unfold _full_global_sync. controller_frame. Qed.

#[local] Hint Resolve full_global_sync_controller : frame.

Lemma step_controller : preserves controller_view step.
Proof. unfold step, incr_current_batch. controller_frame. Qed.

Lemma local_optimizer_step_cursor :
  preserves cursor_view local_optimizer_step.
Proof. apply preserves_local_optimizer_step; reflexivity. Qed.

End StepFrame.

(** ** Warm-up, cool-down and the trigger epoch *)

Section Phases.
Context {TL : TensorLib} {W : World}.
Local Open Scope method_scope.

(** Without a positive [global_skip], [gmod] is 0 and [step] goes to the full
    global synchronization right after the local update, whatever the
    batch. *)
Lemma step_without_global_skip (s : SkipBatches) (lb : Z) :
  global_skip s <= 0 -> last_batch s = Some lb ->
  step s
  = (local_optimizer_step ;;
     _full_global_sync
       (if batches_to_wait s + current_batch s <=? lb then batches_to_wait s
        else lb - current_batch s)) s.
Proof.
  intros Hg Hlb. unfold step. apply bind_ext. intros [] s1 Hrun.
  pose proof (local_optimizer_step_cursor s) as F.
  rewrite Hrun in F. cbn [snd] in F. unfold cursor_view, skip_state in F.
  injection F as Hb Hl Hgs Hls Hbw.
  mrun. rewrite Hgs, Hls, Hbw, Hl, Hb, Hlb.
  assert (G : (global_skip s >? 0) = false)
    by (rewrite Z.gtb_ltb; apply Z.ltb_ge; exact Hg).
  rewrite G. mrun.
  destruct (local_skip s >? 0) eqn:L.
  - apply Z.gtb_lt in L. rewrite py_mod_ok by lia. mrun.
    rewrite orb_true_r. reflexivity.
  - mrun. rewrite orb_true_r. reflexivity.
Qed.

(** With a zero skip triple every batch is fully synchronized. *)
Lemma step_fully_synchronous (s : SkipBatches) (lb : Z) :
  skip_state s = (0, 0, 0) -> last_batch s = Some lb ->
  step s
  = (local_optimizer_step ;;
     _full_global_sync (if current_batch s <=? lb then 0
                        else lb - current_batch s)) s.
Proof.
  intros Hskip Hlb. unfold skip_state in Hskip. injection Hskip as Hg Hl Hb.
  rewrite step_without_global_skip with (lb := lb) by (assumption || lia).
  rewrite Hb. reflexivity.
Qed.

(** C6. In every epoch below [warmup_epochs] and in every epoch at or above
    [total_epochs - 5], [epoch_loss_logic] returns with the skip state at
    exactly (0, 0, 0); and with the skip state at (0, 0, 0) every call of
    [step] (the training loop having set [last_batch]) goes, after the local
    optimizer update, into [_full_global_sync]. *)
Theorem C6_warmup_cooldown_fully_synchronous (s : SkipBatches) (loss : Q) :
  valid_comm s ->
  epoch s < warmup_epochs s \/ total_epochs s - 5 <= epoch s ->
  fst (epoch_loss_logic loss s) = Ok tt /\
  skip_state (snd (epoch_loss_logic loss s)) = (0, 0, 0) /\
  forall (s' : SkipBatches) (lb : Z),
    skip_state s' = (0, 0, 0) -> last_batch s' = Some lb ->
    step s'
    = (local_optimizer_step ;;
       _full_global_sync (if current_batch s' <=? lb then 0
                          else lb - current_batch s')) s'.
Proof.
  intros Hc Hphase.
  assert (H : fst (epoch_loss_logic loss s) = Ok tt /\
              skip_state (snd (epoch_loss_logic loss s)) = (0, 0, 0)).
  { destruct (Z.lt_ge_cases (epoch s) (warmup_epochs s)) as [Hw|Hw].
    - rewrite epoch_loss_logic_warmup by assumption. split; reflexivity.
    - destruct Hphase as [Hp|Hp]; [lia|].
      destruct (epoch_loss_logic_cooldown loss Hc Hw Hp). split; assumption. }
  destruct H as [H1 H2]. repeat split; try assumption.
  intros s' lb. apply step_fully_synchronous.
Qed.

(** At the literal epoch 4, past warm-up and before cool-down, the
    controller sets the skip state to (4, 1, 1) and clears the history. *)
Lemma epoch_loss_logic_epoch_4 (s : SkipBatches) (loss : Q) :
  valid_comm s -> warmup_epochs s <= epoch s -> epoch s = 4 ->
  epoch s < total_epochs s - 5 -> 1 <= epochs_to_wait s ->
  fst (epoch_loss_logic loss s) = Ok tt /\
  skip_state (snd (epoch_loss_logic loss s)) = (4, 1, 1) /\
  _prev_losses_mean (snd (epoch_loss_logic loss s)) = [].
Proof.
  intros Hc Hw H4 He Hk. controller_start Hc.
  apply Z.ltb_ge in Hw. rewrite Hw. rewrite bind_if.
  rewrite H4 in *. cbn [Z.eqb Pos.eqb]. mrun. rewrite run_if. fields.
  assert (Hge : (4 >=? total_epochs s - 5) = false).
  { rewrite Z.geb_leb. apply Z.leb_gt. lia. }
  rewrite H4, Hge. rewrite run_if.
  assert (Hlen : (Z.of_nat 0 <? epochs_to_wait s) = true)
    by (apply Z.ltb_lt; lia).
  cbn [length]. rewrite Hlen. mrun. repeat split; reflexivity.
Qed.

Ltac unchanged_skip Hg Hl Hb :=
  unfold skip_state; fields; rewrite Hg, Hl, Hb; split; reflexivity.

(** A controller whose skip triple is (0, 0, 0) and whose warm-up is longer
    than 4 epochs keeps the triple at (0, 0, 0), in any epoch. *)
Lemma epoch_loss_logic_stays_synchronous (s : SkipBatches) (loss : Q) :
  skip_state s = (0, 0, 0) -> 4 < warmup_epochs s ->
  skip_state (snd (epoch_loss_logic loss s)) = (0, 0, 0) /\
  warmup_epochs (snd (epoch_loss_logic loss s)) = warmup_epochs s.
Proof.
  intros Hskip Hw. unfold skip_state in Hskip.
  injection Hskip as Hg Hl Hb.
  unfold epoch_loss_logic. mrun.
  destruct (py_setitem _ _ _) as [v|e]; mrun; [|unchanged_skip Hg Hl Hb].
  rewrite run_if.
  destruct (epoch s <? warmup_epochs s) eqn:E; mrun; [split; reflexivity|].
  apply Z.ltb_ge in E. rewrite bind_if.
  assert (E4 : (4 =? epoch s) = false) by (apply Z.eqb_neq; lia).
  rewrite E4. mrun. rewrite run_if. fields.
  destruct (epoch s >=? total_epochs s - 5); mrun; [split; reflexivity|].
  rewrite run_if.
  destruct (_ <? epochs_to_wait s); mrun; [unchanged_skip Hg Hl Hb|].
  destruct (py_index _ (-1)) as [last|e]; mrun; [|unchanged_skip Hg Hl Hb].
  destruct (py_index _ (-1 * epochs_to_wait s)) as [back|e]; mrun;
    [|unchanged_skip Hg Hl Hb].
  cbv zeta. rewrite Hg. cbn [Z.gtb Z.compare Z.eqb].
  rewrite andb_false_r. cbn [andb]. mrun.
  unchanged_skip Hg Hl Hb.
Qed.

Lemma perform_stuck_synchronous (c : call) (s : SkipBatches) :
  stuck_synchronous s -> stuck_synchronous (snd (perform c s)).
Proof.
  intros [Hskip Hw]. destruct c; cbn [perform].
  - split; assumption.
  - split; assumption.
  - split; assumption.
  - pose proof (step_controller s) as F. unfold controller_view in F.
    injection F as Hg Hl Hb _ Hwu _ _.
    unfold stuck_synchronous, skip_state in *.
    rewrite Hg, Hl, Hb, Hwu. split; assumption.
  - destruct (epoch_loss_logic_stays_synchronous loss Hskip Hw) as [H1 H2].
    split; [exact H1|rewrite H2; exact Hw].
Qed.

Lemma run_stuck_synchronous (cs : list call) (s : SkipBatches) :
  stuck_synchronous s -> stuck_synchronous (run cs s).
Proof.
  revert s. induction cs as [|c cs IH]; intros s H; cbn [run].
  - exact H.
  - apply IH. apply perform_stuck_synchronous. exact H.
Qed.

(** C10. If the optimizer is constructed with [warmup_epochs > 4], the skip
    triple is (0, 0, 0) after every call of the run, and in particular after
    every call of [epoch_loss_logic], in every epoch: the scheduler stays
    fully synchronous. *)
Theorem C10_long_warmup_stays_synchronous
  (total_epochs_ rank size warmup_epochs_ : Z) (scheduler_ : bool)
  (device_count : Z) (dist_init : bool) (s0 : SkipBatches) :
  __init__ total_epochs_ rank size warmup_epochs_ scheduler_ device_count
           dist_init = Ok s0 ->
  4 < warmup_epochs_ ->
  forall (cs : list call) (loss : Q),
    skip_state (run cs s0) = (0, 0, 0) /\
    skip_state (snd (epoch_loss_logic loss (run cs s0))) = (0, 0, 0).
Proof.
  intros Hinit Hw cs loss.
  assert (H0 : stuck_synchronous s0).
  { unfold __init__ in Hinit. destruct (py_mod rank device_count); [|discriminate].
    injection Hinit as <-. split; [reflexivity|exact Hw]. }
  pose proof (run_stuck_synchronous cs H0) as [Hskip Hwu].
  split; [exact Hskip|].
  apply (epoch_loss_logic_stays_synchronous loss Hskip Hwu).
Qed.

(** [epochs_to_wait] starts at 3 and the controller only increments it or
    sets it back to 3. *)
Lemma epoch_loss_logic_epochs_to_wait (s : SkipBatches) (loss : Q) :
  3 <= epochs_to_wait s ->
  3 <= epochs_to_wait (snd (epoch_loss_logic loss s)).
Proof.
  intros H. unfold epoch_loss_logic. mrun.
  destruct (py_setitem _ _ _) as [v|e]; mrun; [|exact H].
  rewrite run_if. destruct (epoch s <? warmup_epochs s); mrun; [exact H|].
  rewrite bind_if.
  destruct (4 =? epoch s); mrun; rewrite run_if; fields;
    (destruct (epoch s >=? total_epochs s - 5); mrun; [exact H|]);
    rewrite run_if;
    (destruct (_ <? epochs_to_wait s); mrun; [exact H|]);
    (destruct (py_index _ (-1)) as [last|e]; mrun; [|exact H]);
    (destruct (py_index _ (-1 * epochs_to_wait s)) as [back|e]; mrun;
       [|exact H]);
    cbv zeta; rewrite !run_if;
    (destruct (_ && _); mrun;
     [rewrite run_if; fields;
      destruct (_ >? 0); mrun;
      [rewrite bind_if; destruct (_ =? 0); mrun; rewrite run_if; fields;
       destruct (_ =? 0); mrun; lia
      |lia]
     |destruct (_ && _); mrun; [lia|exact H]]).
Qed.

Lemma run_epochs_to_wait
  (total_epochs_ rank size warmup_epochs_ : Z) (scheduler_ : bool)
  (device_count : Z) (dist_init : bool) (s0 : SkipBatches)
  (cs : list call) :
  __init__ total_epochs_ rank size warmup_epochs_ scheduler_ device_count
           dist_init = Ok s0 ->
  3 <= epochs_to_wait (run cs s0).
Proof.
  intros Hinit.
  assert (H0 : 3 <= epochs_to_wait s0).
  { unfold __init__ in Hinit.
    destruct (py_mod rank device_count); [|discriminate].
    injection Hinit as <-. cbn. lia. }
  clear Hinit. revert s0 H0.
  induction cs as [|c cs IH]; intros s H; cbn [run]; [exact H|].
  apply IH. destruct c; cbn [perform]; try exact H.
  - pose proof (step_controller s) as F. unfold controller_view in F.
    injection F as _ _ _ He _ _ _. rewrite He. exact H.
  - apply epoch_loss_logic_epochs_to_wait. exact H.
Qed.

End Phases.

(** ** Exceptions a method cannot raise *)

Section Safety.
Context {TL : TensorLib} {W : World}.
Local Open Scope method_scope.

Variable e : exn.

Lemma never_raises_ret {A} (a : A) : never_raises e (ret a).
Proof. intros s. discriminate. Qed.

Lemma never_raises_get : never_raises e get.
Proof. intros s. discriminate. Qed.

Lemma never_raises_tick : never_raises e tick.
Proof. intros s. discriminate. Qed.

Lemma never_raises_modify g : never_raises e (modify g).
Proof. intros s. discriminate. Qed.

Lemma never_raises_emit evs : never_raises e (emit evs).
Proof. intros s. discriminate. Qed.

Lemma never_raises_raise {A} e' : e' <> e -> never_raises e (@raise _ A e').
Proof. intros H s. cbn. congruence. Qed.

Lemma never_raises_lift {A} (r : result A) :
  r <> Raise e -> never_raises e (lift r).
Proof. intros H s. exact H. Qed.

Lemma never_raises_bind {A B} (m : M A) (k : A -> M B) :
  never_raises e m -> (forall a, never_raises e (k a)) ->
  never_raises e (bind m k).
Proof.
  intros Hm Hk s. unfold bind. specialize (Hm s).
  destruct (m s) as [[a|e'] s1]; cbn [fst] in *; [apply Hk|].
  intros E. apply Hm. injection E as ->. reflexivity.
Qed.

(** The continuation of a bind only has to be safe where the first method
    returned. *)
Lemma run_bind_safe {A B} (m : M A) (k : A -> M B) s :
  fst (m s) <> Raise e ->
  (forall a s1, m s = (Ok a, s1) -> fst (k a s1) <> Raise e) ->
  fst (bind m k s) <> Raise e.
Proof.
  intros Hm Hk. unfold bind.
  destruct (m s) as [[a|e'] s1]; cbn [fst] in *; [apply Hk; reflexivity|].
  intros E. apply Hm. injection E as ->. reflexivity.
Qed.

End Safety.

(** The same exception at another result type. *)
Ltac reraise H := let E := fresh in intros E; apply H; injection E as ->; reflexivity.

Ltac safe_step :=
  first
    [ apply never_raises_ret | apply never_raises_get | apply never_raises_tick
    | apply never_raises_modify | apply never_raises_emit
    | apply never_raises_raise; discriminate
    | apply never_raises_bind; [|intros ?]
    | match goal with
      | |- never_raises _ (if ?b then _ else _) => destruct b
      | |- never_raises _ (match ?x with _ => _ end) => destruct x
      | |- never_raises _ (let (_, _) := ?x in _) => destruct x
      end ].

(** ** Exceptions the helpers do not raise

    The lookups, the packing and the loops over the parameters raise only
    [TypeError], [AttributeError], [IndexError], [KeyError] and
    [RuntimeError]; [e] below is one of the two other exceptions. *)

Section Helpers.
Context {TL : TensorLib} {W : World}.
Local Open Scope method_scope.

Variable e : exn.
Hypothesis He : e = ZeroDivisionError \/ e = ValueError.

Ltac other := case He; intros ->; discriminate.

Lemma py_index_never {A} (l : list A) i : py_index l i <> Raise e.
Proof.
  unfold py_index. destruct (_ && _); [|other].
  destruct (nth_error _ _); other.
Qed.

Lemma dict_get_never {V} (d : list (string * V)) k : dict_get d k <> Raise e.
Proof.
  induction d as [|[k' v] d IH]; cbn [dict_get]; [other|].
  destruct (String.eqb k k'); [other|exact IH].
Qed.

Lemma unpack_region_never rcv sh name : unpack_region rcv sh name <> Raise e.
Proof.
  unfold unpack_region. pose proof (dict_get_never sh name) as H.
  destruct (dict_get sh name) as [en|x]; [|reraise H].
  unfold reshape. destruct (Nat.eqb _ _); other.
Qed.

Lemma slice_assign_never buf a b p : slice_assign buf a b p <> Raise e.
Proof.
  unfold slice_assign. destruct (Nat.eqb _ _); [other|].
  destruct p as [|x [|y p]]; other.
Qed.

Lemma pack_data_never ps items params cast :
  __pack_data ps items params cast <> Raise e.
Proof.
  unfold __pack_data. generalize 0%nat as st. revert params.
  induction items as [|[name i] items IH]; intros params st;
    cbn [pack_loop]; [other|].
  destruct (nth_error ps i) as [[n param]|]; [|other].
  destruct (requires_grad param); [|apply IH].
  pose proof (slice_assign_never params st (st + numel param)
                (if cast then map (to_dtype bfloat16) (t_data param)
                 else t_data param)) as H.
  destruct (slice_assign _ _ _ _) as [params'|x]; [apply IH|exact H].
Qed.

Lemma for_params_never body ps :
  (forall name param, fst (body name param) <> Raise e) ->
  fst (for_params body ps) <> Raise e.
Proof.
  intros Hb. induction ps as [|[name param] ps IH]; cbn [for_params];
    [other|].
  specialize (Hb name param).
  destruct (body name param) as [[u|x] param']; cbn [fst] in *; [|exact Hb].
  destruct (for_params body ps) as [r ps']. exact IH.
Qed.

Lemma get_module_never : never_raises e get_module.
Proof.
  unfold get_module. apply never_raises_bind; [apply never_raises_get|].
  intros s. destruct (module s);
    [apply never_raises_ret|apply never_raises_raise; other].
Qed.

Lemma get_reduced_never : never_raises e get_reduced.
Proof.
  unfold get_reduced. apply never_raises_bind; [apply never_raises_get|].
  intros s. destruct (reduced_ranks s);
    [apply never_raises_ret|apply never_raises_raise; other].
Qed.

Lemma pop_prev_params_never : never_raises e pop_prev_params.
Proof.
  unfold pop_prev_params. apply never_raises_bind; [apply never_raises_get|].
  intros s. destruct (_prev_params s).
  - apply never_raises_raise; other.
  - apply never_raises_bind; [apply never_raises_modify|].
    intros _. apply never_raises_ret.
Qed.

Lemma for_named_parameters_never body :
  (forall name param, fst (body name param) <> Raise e) ->
  never_raises e (for_named_parameters body).
Proof.
  intros Hb. unfold for_named_parameters.
  apply never_raises_bind; [apply get_module_never|intros m].
  pose proof (for_params_never body (named_parameters m) Hb) as H.
  destruct (for_params body (named_parameters m)) as [r ps].
  apply never_raises_bind; [apply never_raises_modify|intros _].
  apply never_raises_lift. exact H.
Qed.

Lemma merge_param_never rcv sh factor name param :
  fst (merge_param rcv sh factor name param) <> Raise e.
Proof.
  unfold merge_param. destruct (requires_grad param); [|cbn [fst]; other].
  pose proof (unpack_region_never rcv sh name) as H.
  destruct (unpack_region rcv sh name) as [u|x]; cbn [fst].
  - unfold iadd. destruct (shape_eqb _ _); cbn [fst]; other.
  - reraise H.
Qed.

Lemma receive_param_never rcv sh name param :
  fst (receive_param rcv sh name param) <> Raise e.
Proof.
  unfold receive_param. destruct (requires_grad param); [|cbn [fst]; other].
  pose proof (unpack_region_never rcv sh name) as H.
  destruct (unpack_region rcv sh name) as [u|x]; cbn [fst].
  - unfold copy_into. destruct (t_shape param); cbn [fst]; [other|].
    destruct (shape_eqb _ _); cbn [fst]; other.
  - reraise H.
Qed.

Lemma local_torch_param_update_never h :
  never_raises e (_local_torch_param_update h).
Proof.
  unfold _local_torch_param_update. destruct h as [src|]; [|apply never_raises_ret].
  apply never_raises_bind; [apply never_raises_get|intros s].
  destruct (dist_initialized s); [|apply never_raises_ret].
  apply never_raises_bind; [apply get_module_never|intros m].
  apply never_raises_bind.
  { destruct (trainable_names _); [apply never_raises_ret|].
    destruct (in_torch_group src);
      [apply never_raises_ret|apply never_raises_raise; other]. }
  intros _.
  apply never_raises_bind; [apply never_raises_tick|intros t].
  apply never_raises_bind; [apply never_raises_emit|intros _].
  apply for_named_parameters_never. intros name param.
  destruct (requires_grad param); cbn [fst]; other.
Qed.

End Helpers.

(** ** [step] never divides by zero *)

Section NoZeroDivision.
Context {TL : TensorLib} {W : World}.
Local Open Scope method_scope.

(** The numerator of the merge weight is positive, so the denominator is. *)
Lemma merge_numer_pos b : (0 < merge_numer b)%Q.
Proof.
  unfold merge_numer. destruct (Qle_bool b 0) eqn:E; cbn [negb].
  - reflexivity.
  - assert (~ (b <= 0)%Q) by (rewrite <- Qle_bool_iff; congruence). lra.
Qed.

Lemma merge_denom_pos n b : (0 < merge_denom n (merge_numer b))%Q.
Proof.
  unfold merge_denom. pose proof (merge_numer_pos b).
  assert (0 <= inject_Z (Z.of_nat n))%Q
    by (change 0%Q with (inject_Z 0); rewrite <- Zle_Qle; lia).
  lra.
Qed.

Lemma merge_factor_defined n b :
  py_truediv (merge_numer b) (merge_denom n (merge_numer b))
  = Ok (merge_numer b / merge_denom n (merge_numer b))%Q.
Proof.
  unfold py_truediv. pose proof (merge_denom_pos n b) as H.
  destruct (Qeq_bool _ 0) eqn:E; [|reflexivity].
  apply Qeq_bool_iff in E. lra.
Qed.

End NoZeroDivision.

Create HintDb safe.

#[local] Hint Resolve
  get_module_never get_reduced_never for_named_parameters_never
  merge_param_never receive_param_never py_index_never pack_data_never
  pop_prev_params_never local_torch_param_update_never never_raises_lift
  : safe.

Ltac safe :=
  repeat first
    [ match goal with
      | |- never_raises _ _ => solve [auto with safe]
      end
    | progress cbv zeta
    | apply never_raises_lift; discriminate
    | safe_step ].

Section StepSafety.
Context {TL : TensorLib} {W : World}.
Local Open Scope method_scope.

Lemma merge_factor_no_zdiv n b :
  py_truediv (merge_numer b) (merge_denom n (merge_numer b))
  <> Raise ZeroDivisionError.
Proof. rewrite merge_factor_defined. discriminate. Qed.

Lemma start_local_sync_no_zdiv :
  never_raises ZeroDivisionError _start_local_sync.
Proof. unfold _start_local_sync, set_sync_flag. safe. Qed.

Lemma stop_local_sync_no_zdiv :
  never_raises ZeroDivisionError _stop_local_sync.
Proof. unfold _stop_local_sync, set_sync_flag. safe. Qed.

Lemma local_optimizer_step_no_zdiv :
  never_raises ZeroDivisionError local_optimizer_step.
Proof.
  unfold local_optimizer_step.
  apply never_raises_bind; [apply never_raises_get|intros s].
  apply never_raises_bind; [apply never_raises_tick|intros t].
  apply never_raises_bind; [apply never_raises_emit|intros _].
  destruct (module s); [|apply never_raises_ret].
  apply for_named_parameters_never; [auto|]. intros; discriminate.
Qed.

Lemma create_param_dict_n_shapes_no_zdiv :
  never_raises ZeroDivisionError _create_param_dict_n_shapes.
Proof. unfold _create_param_dict_n_shapes. safe. Qed.

#[local] Hint Resolve
  merge_factor_no_zdiv start_local_sync_no_zdiv stop_local_sync_no_zdiv
  local_optimizer_step_no_zdiv create_param_dict_n_shapes_no_zdiv : safe.

Lemma global_send_update_no_zdiv c b :
  never_raises ZeroDivisionError (_global_send_update c b).
Proof. unfold _global_send_update. safe. Qed.

Lemma update_parameters_no_zdiv :
  never_raises ZeroDivisionError _update_parameters.
Proof. unfold _update_parameters. safe. Qed.

#[local] Hint Resolve
  global_send_update_no_zdiv update_parameters_no_zdiv : safe.

Lemma merge_point_no_zdiv r :
  never_raises ZeroDivisionError (merge_point r).
Proof. unfold merge_point. safe. Qed.

#[local] Hint Resolve merge_point_no_zdiv : safe.

Lemma full_global_sync_no_zdiv b :
  never_raises ZeroDivisionError (_full_global_sync b).
Proof. unfold _full_global_sync. safe. Qed.

End StepSafety.

Section StepNeverDivides.
Context {TL : TensorLib} {W : World}.
Local Open Scope method_scope.

#[local] Hint Resolve
  merge_factor_no_zdiv start_local_sync_no_zdiv stop_local_sync_no_zdiv
  local_optimizer_step_no_zdiv update_parameters_no_zdiv
  full_global_sync_no_zdiv : safe.

Lemma lift_py_mod_no_zdiv a b :
  b <> 0 -> never_raises ZeroDivisionError (lift (py_mod a b)).
Proof.
  intros H. rewrite py_mod_ok by exact H. apply never_raises_lift. discriminate.
Qed.

(** C7. Whatever the skip state and the batch cursor, [step] never
    evaluates [%] or [/] with a zero divisor: no call of [step] raises
    [ZeroDivisionError].  [gmod] and [lmod] are 0 when [global_skip] or
    [local_skip] is not positive, and the two later moduli are only reached
    with a positive divisor; with [global_skip = 0] the step collapses to the
    full global synchronization. *)
Theorem C7_step_never_divides_by_zero (s : SkipBatches) :
  fst (step s) <> Raise ZeroDivisionError /\
  forall lb : Z,
    global_skip s = 0 -> last_batch s = Some lb ->
    step s
    = (local_optimizer_step ;;
       _full_global_sync
         (if batches_to_wait s + current_batch s <=? lb then batches_to_wait s
          else lb - current_batch s)) s.
Proof.
  split;
    [|intros lb Hg Hlb; apply step_without_global_skip; [lia|exact Hlb]].
  unfold step. apply run_bind_safe; [apply local_optimizer_step_no_zdiv|].
  intros [] s1 _. mrun.
  destruct (global_skip s1 >? 0) eqn:G.
  - apply Z.gtb_lt in G. rewrite py_mod_ok by lia. mrun.
    assert (Hg : forall a, never_raises ZeroDivisionError
                             (lift (py_mod a (global_skip s1))))
      by (intros a; apply lift_py_mod_no_zdiv; lia).
    destruct (local_skip s1 >? 0) eqn:L.
    + apply Z.gtb_lt in L. rewrite py_mod_ok by lia. mrun.
      assert (Hl : forall a, never_raises ZeroDivisionError
                               (lift (py_mod a (local_skip s1))))
        by (intros a; apply lift_py_mod_no_zdiv; lia).
      destruct (last_batch s1) as [lb|]; mrun; [|discriminate].
      match goal with |- fst (?m s1) <> _ =>
        cut (never_raises ZeroDivisionError m); [intros H; apply H|] end.
      safe.
    + mrun. destruct (last_batch s1) as [lb|]; mrun; [|discriminate].
      change (0 =? 0) with true. cbv iota.
      match goal with |- fst (?m s1) <> _ =>
        cut (never_raises ZeroDivisionError m); [intros H; apply H|] end.
      safe.
  - mrun. destruct (local_skip s1 >? 0) eqn:L.
    + apply Z.gtb_lt in L. rewrite py_mod_ok by lia. mrun.
      destruct (last_batch s1) as [lb|]; mrun; [|discriminate].
      change (0 =? 0) with true. rewrite orb_true_r.
      apply full_global_sync_no_zdiv.
    + mrun. destruct (last_batch s1) as [lb|]; mrun; [|discriminate].
      change (0 =? 0) with true. rewrite orb_true_r.
      apply full_global_sync_no_zdiv.
Qed.

End StepNeverDivides.

(** ** Unpacking a reduced buffer into the parameters *)

Section Unpack.
Context {TL : TensorLib} {W : World}.
Local Open Scope method_scope.

Lemma mapi_from_length {A B} (g : nat -> A -> B) l i :
  length (mapi_from i g l) = length l.
Proof.
  revert i. induction l as [|x l IH]; intros i; cbn; [reflexivity|].
  rewrite IH. reflexivity.
Qed.

Lemma mapi_length {A B} (g : nat -> A -> B) l : length (mapi g l) = length l.
Proof. apply mapi_from_length. Qed.

Lemma py_slice_length {A} (l : list A) a b :
  (b <= length l)%nat -> length (py_slice l a b) = (b - a)%nat.
Proof.
  intros H. unfold py_slice. rewrite length_firstn, length_skipn. lia.
Qed.

Lemma shape_eqb_refl sh : shape_eqb sh sh = true.
Proof. unfold shape_eqb. destruct (list_eq_dec _ _ _); congruence. Qed.

(** The region of a fitting entry unpacks to a tensor of the shape of the
    parameter. *)
Lemma unpack_region_fits rcv sh name param en :
  dict_get sh name = Ok en ->
  fits_entry (length (t_data rcv)) param en ->
  unpack_region rcv sh name
  = Ok (mkTensor (t_shape param) (e_dtype en) false
          (map (to_dtype (e_dtype en))
               (py_slice (t_data rcv) (e_start en) (e_stop en)))).
Proof.
  intros Hget (Hshape & Hrange & Hstop). unfold unpack_region.
  rewrite Hget. unfold reshape, tensor_slice. cbn [t_data].
  rewrite py_slice_length by exact Hstop.
  rewrite Hshape. unfold numel in Hrange.
  replace (e_stop en - e_start en)%nat with (numel_of (t_shape param)) by lia.
  rewrite Nat.eqb_refl. reflexivity.
Qed.

Lemma for_params_ok body g ps :
  Forall (fun np => body (fst np) (snd np) = (Ok tt, g (fst np) (snd np))) ps ->
  for_params body ps = (Ok tt, map_params g ps).
Proof.
  induction 1 as [|[name param] ps Hb _ IH]; cbn [for_params]; [reflexivity|].
  cbn [fst snd] in Hb. rewrite Hb, IH. reflexivity.
Qed.





End Unpack.

(** ** The merge of a reduced buffer: [_update_parameters] and the merge point *)

Section Merge.
Context {TL : TensorLib} {W : World}.
Local Open Scope method_scope.


Lemma run_for_named_parameters body g s mdl :
  module s = Some mdl ->
  Forall (fun np => body (fst np) (snd np) = (Ok tt, g (fst np) (snd np)))
         (named_parameters mdl) ->
  for_named_parameters body s
  = (Ok tt, set_module
              (Some (with_parameters mdl (map_params g (named_parameters mdl))))
              s).
Proof.
  intros Hm Hb. unfold for_named_parameters, get_module. mrun.
  rewrite Hm. mrun. rewrite (for_params_ok _ _ Hb). mrun. reflexivity.
Qed.


(** C9. When there is nothing to apply (no previous slot is recorded, or the
    calling rank is not in the rank set of the previous slot, or no record is
    pending), [_update_parameters] returns and leaves the instance, with its
    model parameters and its pending records, as it was; and
    [_local_torch_param_update] called with a [None] holder rank returns
    without any broadcast or change. *)
Theorem C9_nothing_to_apply_is_noop (s : SkipBatches) :
  (_send_mod_m1 s = None \/
   exists m1 reduced prev_ranks,
     _send_mod_m1 s = Some m1 /\ reduced_ranks s = Some reduced /\
     py_index reduced m1 = Ok prev_ranks /\
     (py_in (comm_rank s) prev_ranks = false \/ _prev_params s = [])) ->
  _update_parameters s = (Ok tt, s) /\
  _local_torch_param_update None s = (Ok tt, s).
Proof.
  intros H. split; [|reflexivity].
  unfold _update_parameters, get_reduced. mrun.
  destruct H as [H|(m1 & reduced & prev_ranks & Hm1 & Hred & Hidx & H)].
  - rewrite H. reflexivity.
  - rewrite Hm1. mrun. rewrite Hred. mrun. rewrite Hidx. mrun.
    destruct H as [H|H].
    + rewrite H. reflexivity.
    + rewrite H. cbn [length Nat.eqb].
      destruct (negb _); reflexivity.
Qed.

End Merge.

(** ** The pending records at the merge point *)

Section MergePoint.
Context {TL : TensorLib} {W : World}.
Local Open Scope method_scope.

#[local] Hint Resolve
  get_module_never for_named_parameters_never receive_param_never
  pop_prev_params_never local_torch_param_update_never : safe.





(** An in-slot rank with an empty queue fails at [pop(0)]. *)
Lemma merge_point_empty_in_slot (s : SkipBatches) (current_ranks : list Z) :
  py_in (comm_rank s) current_ranks = true ->
  _prev_params s = [] ->
  merge_point current_ranks s = (Raise IndexError, s).
Proof.
  intros Hin Hn. unfold merge_point, pop_prev_params. mrun.
  rewrite Hin, Hn. cbn [length Nat.ltb Nat.leb]. mrun.
  rewrite Hn. reflexivity.
Qed.





End MergePoint.

Section MergePointClaim.
Context {TL : TensorLib} {W : World}.
Local Open Scope method_scope.

(** A rank that sends has its record in the queue afterwards. *)
Lemma global_send_update_enqueues (c b : Z) (s s' : SkipBatches) :
  _global_send_update c b s = (Ok tt, s') ->
  exists rec, _prev_params s' = _prev_params s ++ [rec] /\
              p_batches_to_wait rec = b.
Proof.
  unfold _global_send_update. mrun. destruct (apex s); [discriminate|].
  cbn [negb]. unfold bind at 1.
  assert (F : preserves _prev_params _create_param_dict_n_shapes).
  { unfold _create_param_dict_n_shapes.
    repeat first [ apply preserves_get_module; intros; reflexivity
                 | preserve_step ]. }
  specialize (F s).
  destruct (_create_param_dict_n_shapes s) as [[[pd sh]|x] s2];
    [|discriminate].
  cbn [snd] in F. unfold get_device. mrun.
  destruct (reduced_ranks s2) as [slots|]; mrun; [|discriminate].
  destruct (_param_send_buffer_shape s2) as [n|]; mrun; [|discriminate].
  unfold get_module. mrun. destruct (module s2) as [mdl|]; mrun;
    [|discriminate].
  destruct (__pack_data _ _ _ _) as [params|x]; mrun; [|discriminate].
  intros H. injection H as <-. fields. rewrite F.
  eexists. split; reflexivity.
Qed.


End MergePointClaim.

(** ** The code on concrete optimizers *)

Section Concrete.
#[local] Existing Instance QTensorLib.
#[local] Existing Instance LoneWorld.
Local Open Scope string_scope.

Lemma demo_init_constructed :
  __init__ 10 0 4 2 false 2 false = Ok demo_init.
Proof. reflexivity. Qed.

Lemma demo_long_warmup_constructed :
  __init__ 20 0 4 6 false 2 false = Ok demo_long_warmup.
Proof. reflexivity. Qed.

(** C1 on the code.  With [warmup_epochs=2] and [total_epochs=10], the call
    of [epoch_loss_logic] in the epoch equal to [warmup_epochs] leaves the
    skip state at (0, 0, 0) and keeps the loss history; so does the call in
    epoch 3; only the call in epoch 4 sets (4, 1, 1) and clears the
    history. *)
Theorem C1_trigger_is_literal_epoch_4 :
  warmup_epochs demo_epoch_2 = 2 /\ epoch demo_epoch_2 = 2 /\
  let r2 := epoch_loss_logic (1#2) demo_epoch_2 in
  fst r2 = Ok tt /\ skip_state (snd r2) = (0, 0, 0) /\
  length (_prev_losses_mean (snd r2)) = 2%nat /\
  let r3 := epoch_loss_logic (1#2) (run [CallStep] (snd r2)) in
  epoch (run [CallStep] (snd r2)) = 3 /\
  skip_state (snd r3) = (0, 0, 0) /\
  let r4 := epoch_loss_logic (1#2) (run [CallStep] (snd r3)) in
  epoch (run [CallStep] (snd r3)) = 4 /\
  skip_state (snd r4) = (4, 1, 1) /\ _prev_losses_mean (snd r4) = [].
Proof. vm_compute. repeat split. Qed.

(** C3 on the code.  For a model with a frozen parameter of two elements
    ahead of a trainable 2x1 weight and an empty bias: the map has an entry
    for the frozen parameter, at the range [0, 2); the send buffer has 4
    elements, not the 2 of the trainable parameters; the packing writes the
    weight at [0, 2) while its entry in the map is [2, 4). *)
Theorem C3_map_and_buffer_count_frozen_parameters :
  let r := _create_param_dict_n_shapes demo_frozen in
  (exists param_dict_ shapes_,
     fst r = Ok (param_dict_, shapes_) /\
     dict_get shapes_ "frozen" = Ok (mkEntry [2%nat] 0 2 float32) /\
     dict_get shapes_ "w" = Ok (mkEntry [2; 1]%nat 2 4 float32)) /\
  _param_send_buffer_shape (snd r) = Some 4%nat /\
  trainable_names (named_parameters frozen_model) = ["w"; "b"] /\
  trainable_numel (named_parameters frozen_model) = 2%nat /\
  (exists buf shapes_,
     packed demo_frozen = Ok (buf, shapes_) /\
     t_data buf = [3#1; 4#1; 0; 0]%Q /\
     py_slice (t_data buf) 0 2 = [3#1; 4#1]%Q /\
     py_slice (t_data buf) 2 4 = [0; 0]%Q).
Proof.
  vm_compute. split; [|split; [|split; [|split]]]; try reflexivity.
  - do 2 eexists. repeat split.
  - do 2 eexists. repeat split.
Qed.

(** C4 on the code.  The same model has a zero-sized and a two-dimensional
    parameter; packed without downcast and unpacked through its map, the
    weight [3, 4] comes back as [0, 0]. *)
Theorem C4_roundtrip_loses_weight_behind_frozen_parameter :
  exists buf shapes_ ps,
    packed demo_frozen = Ok (buf, shapes_) /\
    unpacked demo_frozen buf shapes_ = (Ok tt, ps) /\
    dict_get (named_parameters frozen_model) "w"
    = Ok (mkTensor [2; 1]%nat float32 true [3#1; 4#1]%Q) /\
    dict_get ps "w" = Ok (mkTensor [2; 1]%nat float32 true [0; 0]%Q).
Proof. vm_compute. do 3 eexists. repeat split. Qed.

(** *** The theorems at concrete optimizers *)


Lemma demo_twenty_constructed :
  __init__ 20 0 4 2 false 2 false = Ok demo_twenty.
Proof. reflexivity. Qed.

Lemma C5_bound_is_float32_counterexample :
  warmup_epochs (demo_epoch_7 0) <= epoch (demo_epoch_7 0)
  < total_epochs (demo_epoch_7 0) - 5 /\
  epoch (demo_epoch_7 0) = 7 /\
  epochs_to_wait (demo_epoch_7 0) = 3 /\
  length (_prev_losses_mean (demo_epoch_7 0)) = 2%nat /\
  nth_error (_prev_losses_mean (demo_epoch_7 0)) 0 = Some (0 # 4) /\
  ~ (Qabs (avg_loss (demo_epoch_7 0) loss_at_bound - (0 # 4)) <= 0.075)%Q /\
  skip_state (demo_epoch_7 0) = (4, 1, 1) /\
  skip_state (snd (epoch_loss_logic loss_at_bound (demo_epoch_7 0)))
  = (2, 1, 1).
Proof.
  split; [vm_compute; split; [discriminate|reflexivity]|].
  split; [vm_compute; reflexivity|]. split; [vm_compute; reflexivity|].
  split; [vm_compute; reflexivity|]. split; [vm_compute; reflexivity|].
  split; [apply Qlt_not_le; vm_compute; reflexivity|].
  split; vm_compute; reflexivity.
Qed.


Lemma C5_steady_state_stability_test_witness :
  skip_state (snd (epoch_loss_logic (1#2) (demo_epoch_7 (1#2)))) = (2, 1, 1) /\
  epochs_to_wait (snd (epoch_loss_logic (1#2) (demo_epoch_7 (1#2)))) = 4.
Proof.
  assert (Hst : comm_rank (demo_epoch_7 (1#2)) = 0 /\
                comm_size (demo_epoch_7 (1#2)) = 4 /\
                epoch (demo_epoch_7 (1#2)) = 7 /\
                warmup_epochs (demo_epoch_7 (1#2)) = 2 /\
                total_epochs (demo_epoch_7 (1#2)) = 20 /\
                epochs_to_wait (demo_epoch_7 (1#2)) = 3 /\
                global_skip (demo_epoch_7 (1#2)) = 4 /\
                length (_prev_losses_mean (demo_epoch_7 (1#2))) = 2%nat)
    by (vm_compute; repeat split; reflexivity).
  destruct Hst as (Hr & Hn & He & Hw & Ht & Hk & Hg & Hl).
  destruct (@C5_steady_state_stability_test QTensorLib LoneWorld
              (demo_epoch_7 (1#2)) (1#2))
    as (latest & back & Nl & Nb & _ & Hhalve & _ & _).
  - unfold valid_comm. rewrite Hr, Hn. lia.
  - rewrite Hw, He. lia.
  - rewrite He. lia.
  - rewrite He, Ht. lia.
  - rewrite Hk, length_app, Hl. cbn [length]. lia.
  - vm_compute in Nl, Nb. injection Nl as <-. injection Nb as <-.
    destruct Hhalve as (Hs & Het & _).
    + vm_compute. discriminate.
    + rewrite Hg. lia.
    + split; [rewrite Hs; vm_compute; reflexivity|].
      rewrite Het, Hk. reflexivity.
Defined.

Lemma C6_warmup_cooldown_fully_synchronous_witness :
  skip_state (snd (epoch_loss_logic (1#2) demo_init)) = (0, 0, 0) /\
  step demo_ready = bind local_optimizer_step
                         (fun _ => _full_global_sync 0) demo_ready.
Proof.
  destruct (@C6_warmup_cooldown_fully_synchronous QTensorLib LoneWorld
              demo_init (1#2))
    as (_ & Hskip & Hstep).
  - unfold valid_comm. cbn. lia.
  - left. cbn. lia.
  - split; [exact Hskip|].
    apply (Hstep demo_ready 9); reflexivity.
Defined.

Lemma C10_long_warmup_stays_synchronous_witness :
  skip_state
    (run [CallSetModel demo_model; SetLastBatch 0; CallStep;
          CallEpochLossLogic (1#2); CallStep; CallStep; CallStep; CallStep;
          CallStep; CallStep; CallEpochLossLogic (1#2)] demo_long_warmup)
  = (0, 0, 0).
Proof.
  assert (Hlong : 4 < 6) by lia.
  exact (proj1 (@C10_long_warmup_stays_synchronous QTensorLib LoneWorld
                  20 0 4 6 false 2 false demo_long_warmup
                  demo_long_warmup_constructed Hlong
                  [CallSetModel demo_model; SetLastBatch 0; CallStep;
                   CallEpochLossLogic (1#2); CallStep; CallStep; CallStep;
                   CallStep; CallStep; CallStep; CallEpochLossLogic (1#2)]
                  (1#2))).
Defined.

Lemma C7_step_never_divides_by_zero_witness :
  fst (step demo_ready) <> Raise ZeroDivisionError /\
  step demo_ready = bind local_optimizer_step
                         (fun _ => _full_global_sync 0) demo_ready.
Proof.
  destruct (@C7_step_never_divides_by_zero QTensorLib LoneWorld demo_ready)
    as (Hsafe & Hsync).
  split; [exact Hsafe|].
  apply (Hsync 9); reflexivity.
Defined.

Lemma C9_nothing_to_apply_is_noop_witness :
  _update_parameters demo_ready = (Ok tt, demo_ready) /\
  _update_parameters (set_send_mod_m1 (Some 1) demo_pending)
  = (Ok tt, set_send_mod_m1 (Some 1) demo_pending).
Proof.
  split.
  - apply (@C9_nothing_to_apply_is_noop QTensorLib LoneWorld demo_ready).
    left. reflexivity.
  - apply (@C9_nothing_to_apply_is_noop QTensorLib LoneWorld
             (set_send_mod_m1 (Some 1) demo_pending)).
    right. exists 1, [[0; 2]; [1; 3]], [1; 3].
    repeat split. left. reflexivity.
Defined.



End Concrete.

(** ** The parameter map and the send buffer *)

Section ParameterMap.
Context {TL : TensorLib} {W : World}.
Local Open Scope method_scope.

Lemma dict_set_fresh {V} (d : list (string * V)) k v :
  ~ In k (map fst d) -> dict_set d k v = d ++ [(k, v)].
Proof.
  induction d as [|[k' v'] d IH]; intros H; cbn [dict_set app]; [reflexivity|].
  cbn [map fst In] in H.
  destruct (String.eqb k k') eqn:E.
  - apply String.eqb_eq in E. subst. tauto.
  - rewrite IH by tauto. reflexivity.
Qed.

(** The buffer is sized for all the parameters, trainable or not. *)
Lemma param_dict_n_shapes_loop_total ps i pd sh st :
  snd (param_dict_n_shapes_loop ps i pd sh st) = (st + total_numel ps)%nat.
Proof.
  revert i pd sh st.
  induction ps as [|[name param] ps IH]; intros i pd sh st;
    cbn [param_dict_n_shapes_loop total_numel snd]; [lia|].
  rewrite IH. lia.
Qed.

Lemma shapes_of_names ps st : map fst (shapes_of ps st) = map fst ps.
Proof.
  revert st. induction ps as [|[name param] ps IH]; intros st;
    cbn [shapes_of map fst]; [reflexivity|].
  rewrite IH. reflexivity.
Qed.

Lemma param_dict_of_names ps i : map fst (param_dict_of ps i) = map fst ps.
Proof.
  revert i. induction ps as [|[name param] ps IH]; intros i;
    cbn [param_dict_of map fst]; [reflexivity|].
  rewrite IH. reflexivity.
Qed.

(** With unique names every assignment of the loop appends. *)
Lemma param_dict_n_shapes_loop_unique ps i pd sh st :
  NoDup (map fst ps) ->
  (forall k, In k (map fst ps) -> ~ In k (map fst pd)) ->
  (forall k, In k (map fst ps) -> ~ In k (map fst sh)) ->
  param_dict_n_shapes_loop ps i pd sh st
  = (pd ++ param_dict_of ps i, sh ++ shapes_of ps st,
     (st + total_numel ps)%nat).
Proof.
  revert i pd sh st.
  induction ps as [|[name param] ps IH]; intros i pd sh st Hnd Hpd Hsh;
    cbn [param_dict_n_shapes_loop param_dict_of shapes_of total_numel].
  - rewrite !app_nil_r. f_equal. lia.
  - cbn [map fst] in Hnd, Hpd, Hsh. inversion Hnd as [|? ? Hnotin Hnd']; subst.
    rewrite (dict_set_fresh pd) by (apply Hpd; left; reflexivity).
    rewrite (dict_set_fresh sh) by (apply Hsh; left; reflexivity).
    rewrite IH.
    + rewrite <- !app_assoc. cbn [app]. f_equal. lia.
    + exact Hnd'.
    + intros k Hk. rewrite map_app. cbn [map fst]. rewrite in_app_iff.
      intros [H|[H|[]]]; [apply (Hpd k); [right; exact Hk|exact H]|].
      subst. contradiction.
    + intros k Hk. rewrite map_app. cbn [map fst]. rewrite in_app_iff.
      intros [H|[H|[]]]; [apply (Hsh k); [right; exact Hk|exact H]|].
      subst. contradiction.
Qed.

(** The entry of a parameter in the map of a model with unique names. *)
Lemma dict_get_shapes_of ps st name param :
  NoDup (map fst ps) -> In (name, param) ps ->
  exists en,
    dict_get (shapes_of ps st) name = Ok en /\
    e_shape en = t_shape param /\ e_dtype en = t_dtype param /\
    (e_start en + numel param = e_stop en)%nat /\
    (st <= e_start en)%nat /\ (e_stop en <= st + total_numel ps)%nat.
Proof.
  revert st. induction ps as [|[n p] ps IH]; intros st Hnd Hin; [destruct Hin|].
  cbn [map fst] in Hnd. inversion Hnd as [|? ? Hnotin Hnd']; subst.
  cbn [shapes_of dict_get total_numel].
  destruct (String.eqb name n) eqn:E.
  - apply String.eqb_eq in E. subst n.
    destruct Hin as [Hin|Hin].
    + injection Hin as <-. eexists. split; [reflexivity|].
      cbn [e_shape e_dtype e_start e_stop]. repeat split; lia.
    + exfalso. apply Hnotin. apply (in_map fst) in Hin. exact Hin.
  - destruct Hin as [Hin|Hin].
    + injection Hin as <- <-. rewrite String.eqb_refl in E. discriminate.
    + destruct (IH (st + numel p)%nat Hnd' Hin)
        as (en & Hget & Hs & Hd & Hr & Hlo & Hhi).
      exists en. repeat split; try assumption; lia.
Qed.

Lemma slice_assign_length buf a b p buf' :
  slice_assign buf a b p = Ok buf' ->
  length (t_data buf') = length (t_data buf).
Proof.
  unfold slice_assign.
  set (n := length (t_data buf)).
  set (lo := Nat.min a n). set (hi := Nat.max lo (Nat.min b n)).
  assert (Hlen : forall v, length v = (hi - lo)%nat ->
            length (firstn lo (t_data buf)
                    ++ map (to_dtype (t_dtype buf)) v
                    ++ skipn hi (t_data buf)) = n).
  { intros v Hv.
    rewrite !length_app, length_map, length_firstn, length_skipn, Hv.
    fold n. unfold lo, hi. lia. }
  destruct (Nat.eqb (length p) (hi - lo)) eqn:E.
  - apply Nat.eqb_eq in E. intros H. injection H as <-.
    cbn [with_data t_data]. apply Hlen. exact E.
  - destruct p as [|x [|y p]]; try discriminate.
    intros H. injection H as <-. cbn [with_data t_data].
    apply Hlen. apply repeat_length.
Qed.

Lemma pack_data_length ps items params cast params' :
  __pack_data ps items params cast = Ok params' ->
  length (t_data params') = length (t_data params).
Proof.
  unfold __pack_data. generalize 0%nat as st. revert params.
  induction items as [|[name i] items IH]; intros params st;
    cbn [pack_loop].
  - intros H. injection H as <-. reflexivity.
  - destruct (nth_error ps i) as [[n param]|]; [|discriminate].
    destruct (requires_grad param); [|apply IH].
    destruct (slice_assign _ _ _ _) as [params1|x] eqn:E; [|discriminate].
    intros H. apply IH in H. rewrite H.
    apply (slice_assign_length _ _ _ _ E).
Qed.

(** On an instance that has not built its map yet,
    [_create_param_dict_n_shapes] records an entry for every parameter of the
    model, trainable or not, and the element count of all of them as the
    size of the send buffer. *)
Lemma create_param_dict_n_shapes_fresh (s : SkipBatches) (mdl : Module_) :
  shapes s = None ->
  _param_send_buffer_shape s = None ->
  module s = Some mdl ->
  NoDup (map fst (named_parameters mdl)) ->
  let ps := named_parameters mdl in
  _create_param_dict_n_shapes s
  = (Ok (param_dict_of ps 0, shapes_of ps 0),
     set_shapes (Some (shapes_of ps 0))
       (set_param_dict (Some (param_dict_of ps 0))
          (set_param_send_buffer_shape (Some (total_numel ps)) s))).
Proof.
  intros Hsh Hbuf Hm Hnd. cbv zeta.
  unfold _create_param_dict_n_shapes, get_module. mrun.
  rewrite Hsh. mrun. rewrite Hm. mrun.
  rewrite param_dict_n_shapes_loop_unique by (auto; intros k _ []).
  cbn [app Nat.add]. mrun. rewrite Hbuf. mrun. reflexivity.
Qed.

(** The record that [_global_send_update] queues on such an instance fits
    the model: the hypothesis of the merge theorems holds for the records
    the code itself produces. *)
Lemma global_send_update_fits (c b : Z) (s s' : SkipBatches) (mdl : Module_) :
  shapes s = None ->
  _param_send_buffer_shape s = None ->
  module s = Some mdl ->
  NoDup (map fst (named_parameters mdl)) ->
  _global_send_update c b s = (Ok tt, s') ->
  module s' = Some mdl /\
  exists rec, _prev_params s' = _prev_params s ++ [rec] /\
              p_batches_to_wait rec = b /\
              p_shapes rec = shapes_of (named_parameters mdl) 0 /\
              length (t_data (p_params rec)) = total_numel (named_parameters mdl) /\
              fits (named_parameters mdl) rec.
Proof.
  intros Hsh Hbuf Hm Hnd. unfold _global_send_update. mrun.
  destruct (apex s); [discriminate|]. cbn [negb].
  erewrite bind_run by (apply create_param_dict_n_shapes_fresh; eassumption).
  unfold get_device. mrun.
  destruct (reduced_ranks s) as [slots|]; mrun; [|discriminate].
  unfold get_module. mrun. rewrite Hm. mrun.
  destruct (__pack_data _ _ _ _) as [params|x] eqn:Hpack; mrun;
    [|discriminate].
  intros H. injection H as <-. fields. split; [exact Hm|].
  apply pack_data_length in Hpack.
  unfold torch_zeros in Hpack. cbn [t_data] in Hpack.
  rewrite repeat_length in Hpack.
  eexists. split; [reflexivity|].
  cbn [p_batches_to_wait p_shapes p_params].
  repeat split; [exact Hpack|].
  unfold fits. apply Forall_forall. intros [name param] Hin _.
  cbn [fst snd p_shapes p_params].
  destruct (@dict_get_shapes_of (named_parameters mdl) 0%nat name param
              Hnd Hin)
    as (en & Hget & Hs & _ & Hr & _ & Hhi).
  exists en. split; [exact Hget|]. unfold fits_entry.
  rewrite Hpack. repeat split; assumption.
Qed.

End ParameterMap.

(** ** The round trip through the buffer when every parameter is trainable *)

Section RoundTrip.
Context {TL : TensorLib} {W : World}.

Lemma flat_data_length ps :
  Forall trainable ps -> length (flat_data ps) = total_numel ps.
Proof.
  unfold flat_data. induction 1 as [|[name param] ps [_ Hwf] _ IH];
    cbn [map concat total_numel snd]; [reflexivity|].
  rewrite length_app, length_map, IH. unfold wf_tensor in Hwf.
  cbn [snd] in Hwf. lia.
Qed.

(** The loop of [__pack_data] over the parameters [qs] that follow [pre] in
    the model lays their elements out one after the other from [st]. *)
Lemma pack_loop_all_trainable qs :
  forall pre buf done rest,
    Forall trainable qs ->
    t_dtype buf = float32 ->
    t_data buf = done ++ rest ->
    (total_numel qs <= length rest)%nat ->
    exists buf',
      pack_loop (pre ++ qs) (param_dict_of qs (length pre)) buf false
                (length done) = Ok buf' /\
      t_dtype buf' = float32 /\
      t_data buf' = done ++ flat_data qs ++ skipn (total_numel qs) rest.
Proof.
  induction qs as [|[name param] qs IH]; intros pre buf done rest Hall Hdt Hdata Hfit.
  - exists buf. cbn [param_dict_of pack_loop flat_data map concat total_numel
                       skipn app].
    repeat split; assumption.
  - inversion Hall as [|? ? [Hrg Hwf] Hall']; subst.
    cbn [snd] in Hrg, Hwf. unfold wf_tensor in Hwf.
    cbn [total_numel] in Hfit.
    cbn [param_dict_of pack_loop].
    rewrite nth_error_app2 by lia. rewrite Nat.sub_diag. cbn [nth_error].
    rewrite Hrg.
    assert (Hassign :
      slice_assign buf (length done) (length done + numel param) (t_data param)
      = Ok (with_data buf
              ((done ++ map (to_dtype float32) (t_data param))
               ++ skipn (numel param) rest))).
    { unfold slice_assign. rewrite Hdata, Hdt, length_app.
      replace (Nat.min (length done) (length done + length rest))
        with (length done) by lia.
      replace (Nat.max (length done)
                 (Nat.min (length done + numel param)
                          (length done + length rest)))
        with (length done + numel param)%nat by lia.
      replace (length done + numel param - length done)%nat
        with (numel param) by lia.
      rewrite Hwf, Nat.eqb_refl.
      rewrite firstn_app, firstn_all, Nat.sub_diag. cbn [firstn].
      rewrite app_nil_r.
      rewrite skipn_app, skipn_all2 by lia.
      replace (length done + numel param - length done)%nat
        with (numel param) by lia.
      cbn [app]. rewrite <- app_assoc. reflexivity. }
    rewrite Hassign.
    destruct (IH (pre ++ [(name, param)])
                 (with_data buf
                    ((done ++ map (to_dtype float32) (t_data param))
                     ++ skipn (numel param) rest))
                 (done ++ map (to_dtype float32) (t_data param))
                 (skipn (numel param) rest))
      as (buf' & Hrun & Hdt' & Hdata').
    + exact Hall'.
    + exact Hdt.
    + reflexivity.
    + rewrite length_skipn. lia.
    + exists buf'.
      rewrite <- app_assoc in Hrun. cbn [app] in Hrun.
      rewrite !length_app, length_map, Hwf in Hrun. cbn [length] in Hrun.
      replace (length pre + 1)%nat with (S (length pre)) in Hrun by lia.
      split; [exact Hrun|]. split; [exact Hdt'|].
      rewrite Hdata'. unfold flat_data. cbn [map concat snd].
      rewrite skipn_skipn, <- !app_assoc.
      replace (total_numel qs + numel param)%nat
        with (numel param + total_numel qs)%nat by lia.
      reflexivity.
Qed.

Lemma pack_model_all_trainable ps :
  Forall trainable ps ->
  exists buf, pack_model ps = Ok buf /\ t_data buf = flat_data ps.
Proof.
  intros Hall. unfold pack_model, __pack_data.
  destruct (@pack_loop_all_trainable ps [] (torch_zeros (total_numel ps) None)
              [] (repeat ezero (total_numel ps)) Hall)
    as (buf & Hrun & _ & Hdata); try reflexivity.
  - rewrite repeat_length. lia.
  - exists buf. split; [exact Hrun|].
    rewrite Hdata. cbn [app].
    rewrite skipn_all2 by (rewrite repeat_length; lia).
    apply app_nil_r.
Qed.

(** The entry of a parameter starts after the elements of the parameters
    ahead of it. *)
Lemma dict_get_shapes_of_at pre name param post st :
  NoDup (map fst (pre ++ (name, param) :: post)) ->
  dict_get (shapes_of (pre ++ (name, param) :: post) st) name
  = Ok (mkEntry (t_shape param) (st + total_numel pre)
                (st + total_numel pre + numel param) (t_dtype param)).
Proof.
  revert st. induction pre as [|[n p] pre IH]; intros st Hnd;
    cbn [app shapes_of dict_get total_numel].
  - rewrite String.eqb_refl. f_equal. f_equal; lia.
  - cbn [app map fst] in Hnd. inversion Hnd as [|? ? Hnotin Hnd']; subst.
    destruct (String.eqb name n) eqn:E.
    + apply String.eqb_eq in E. subst n. exfalso. apply Hnotin.
      rewrite map_app. apply in_or_app. right. left. reflexivity.
    + rewrite IH by exact Hnd'. f_equal. f_equal; lia.
Qed.

Lemma flat_data_region pre name param post :
  Forall trainable (pre ++ (name, param) :: post) ->
  py_slice (flat_data (pre ++ (name, param) :: post))
           (total_numel pre) (total_numel pre + numel param)
  = map (to_dtype float32) (t_data param).
Proof.
  intros Hall. apply Forall_app in Hall. destruct Hall as [Hpre Hrest].
  inversion Hrest as [|? ? [_ Hwf] _]; subst. cbn [snd] in Hwf.
  unfold wf_tensor in Hwf.
  unfold py_slice, flat_data. rewrite map_app, concat_app.
  cbn [map concat snd].
  pose proof (flat_data_length Hpre) as Hlen. unfold flat_data in Hlen.
  rewrite skipn_app, skipn_all2 by lia. rewrite Hlen, Nat.sub_diag.
  cbn [skipn app].
  replace (total_numel pre + numel param - total_numel pre)%nat
    with (numel param) by lia.
  rewrite firstn_app, length_map, Hwf, Nat.sub_diag. cbn [firstn].
  rewrite app_nil_r. apply firstn_all2. rewrite length_map. lia.
Qed.

Lemma with_data_same (param : tensor) : with_data param (t_data param) = param.
Proof. destruct param. reflexivity. Qed.

Lemma map_params_id ps : map_params (fun _ param => param) ps = ps.
Proof.
  unfold map_params. induction ps as [|[name param] ps IH]; cbn [map fst snd];
    [reflexivity|].
  rewrite IH. reflexivity.
Qed.

(** When every parameter requires a gradient (and names are unique, tensors
    hold as many elements as their shape says and have at least one
    dimension, and the conversions lose nothing), packing without downcast
    and unpacking restores every parameter: the map and the packing then
    agree on every range. *)
Lemma roundtrip_all_trainable ps :
  NoDup (map fst ps) ->
  Forall trainable ps ->
  sliceable ps ->
  Forall (fun np => lossless (snd np)) ps ->
  exists buf, pack_model ps = Ok buf /\ unpack_model ps buf = (Ok tt, ps).
Proof.
  intros Hnd Hall Hdim Hloss.
  destruct (pack_model_all_trainable Hall) as (buf & Hpack & Hdata).
  exists buf. split; [exact Hpack|].
  unfold unpack_model.
  rewrite for_params_ok with (g := fun _ param => param);
    [rewrite map_params_id; reflexivity|].
  apply Forall_forall. intros [name param] Hin. cbn [fst snd].
  destruct (in_split _ _ Hin) as (pre & post & Hps).
  assert (Hrg : requires_grad param = true).
  { rewrite Forall_forall in Hall. apply (Hall _ Hin). }
  assert (Hl : lossless param).
  { rewrite Forall_forall in Hloss. apply (Hloss _ Hin). }
  assert (Hwf : wf_tensor param).
  { rewrite Forall_forall in Hall. apply (Hall _ Hin). }
  assert (Hsl : t_shape param <> []).
  { unfold sliceable in Hdim. rewrite Forall_forall in Hdim.
    apply (Hdim _ Hin). exact Hrg. }
  unfold receive_param. rewrite Hrg.
  assert (Hlen : length (t_data buf) = total_numel ps).
  { rewrite Hdata. apply flat_data_length. exact Hall. }
  rewrite Hps in Hnd, Hall.
  erewrite unpack_region_fits with (param := param);
    [|rewrite Hps; apply dict_get_shapes_of_at; exact Hnd|].
  2:{ unfold fits_entry. cbn [e_shape e_start e_stop Nat.add].
      repeat split. rewrite Hlen, Hps. clear.
      induction pre as [|[n p] pre IH]; cbn [app total_numel]; lia. }
  unfold copy_into. cbn [t_shape t_data e_start e_stop e_dtype Nat.add].
  destruct (t_shape param) as [|d sh] eqn:Hsh; [contradiction|].
  rewrite shape_eqb_refl. rewrite Hdata, Hps, (flat_data_region _ _ _ _ Hall).
  rewrite !map_map.
  replace (map _ (t_data param)) with (t_data param).
  - rewrite with_data_same. reflexivity.
  - unfold lossless in Hl. clear -Hl.
    induction Hl as [|x l Hx _ IH]; cbn [map]; [reflexivity|].
    rewrite Hx, <- IH. reflexivity.
Qed.

End RoundTrip.

(** * Properties of the rest of the module *)

(** ** Dictionaries *)

Section Dicts.
Variable V : Type.
Implicit Types (d : list (string * V)) (k : string) (v : V).

Lemma dict_get_set_same d k v : dict_get (dict_set d k v) k = Ok v.
Proof.
  induction d as [|[k' v'] d IH]; cbn [dict_set dict_get].
  - rewrite String.eqb_refl. reflexivity.
  - destruct (String.eqb k k') eqn:E; cbn [dict_get].
    + rewrite String.eqb_refl. reflexivity.
    + rewrite E. exact IH.
Qed.

Lemma dict_get_set_other d k k' v :
  k' <> k -> dict_get (dict_set d k v) k' = dict_get d k'.
Proof.
  intros H. induction d as [|[k0 v0] d IH]; cbn [dict_set dict_get].
  - apply String.eqb_neq in H. rewrite H. reflexivity.
  - destruct (String.eqb k k0) eqn:E; cbn [dict_get].
    + apply String.eqb_eq in E. subst k0.
      apply String.eqb_neq in H. rewrite H. reflexivity.
    + rewrite IH. reflexivity.
Qed.

Lemma dict_mem_in d k : dict_mem d k = true <-> In k (map fst d).
Proof.
  unfold dict_mem. rewrite existsb_exists. split.
  - intros ([k' v'] & Hin & E). apply String.eqb_eq in E. subst.
    apply (in_map fst) in Hin. exact Hin.
  - intros H. apply in_map_iff in H. destruct H as ([k' v'] & E & Hin).
    cbn [fst] in E. subst. exists (k, v'). split; [exact Hin|].
    apply String.eqb_refl.
Qed.

Lemma dict_get_mem d k : dict_mem d k = true -> exists v, dict_get d k = Ok v.
Proof.
  induction d as [|[k' v'] d IH]; cbn [dict_mem existsb dict_get fst];
    [discriminate|].
  destruct (String.eqb k k'); [intros _; eexists; reflexivity|exact IH].
Qed.

Lemma dict_get_not_mem d k :
  dict_mem d k = false -> dict_get d k = Raise KeyError.
Proof.
  induction d as [|[k' v'] d IH]; cbn [dict_mem existsb dict_get fst];
    [reflexivity|].
  destruct (String.eqb k k'); [discriminate|exact IH].
Qed.

Lemma dict_set_keys d k v :
  map fst (dict_set d k v)
  = if dict_mem d k then map fst d else map fst d ++ [k].
Proof.
  induction d as [|[k' v'] d IH]; cbn [dict_set dict_mem existsb map fst app];
    [reflexivity|].
  destruct (String.eqb k k') eqn:E; cbn [map fst orb].
  - apply String.eqb_eq in E. subst. reflexivity.
  - rewrite IH. fold (dict_mem d k). destruct (dict_mem d k); reflexivity.
Qed.

Lemma dict_mem_set d k k' v :
  dict_mem (dict_set d k v) k' = String.eqb k' k || dict_mem d k'.
Proof.
  destruct (dict_mem (dict_set d k v) k') eqn:E.
  - apply dict_mem_in in E. rewrite dict_set_keys in E.
    symmetry. apply orb_true_iff.
    destruct (dict_mem d k) eqn:M.
    + right. apply dict_mem_in. exact E.
    + apply in_app_or in E. destruct E as [E|[E|[]]].
      * right. apply dict_mem_in. exact E.
      * left. subst. apply String.eqb_refl.
  - symmetry. apply orb_false_iff. split.
    + apply String.eqb_neq. intros ->.
      assert (H : dict_mem (dict_set d k v) k = true).
      { apply dict_mem_in. rewrite dict_set_keys.
        destruct (dict_mem d k) eqn:M; [apply dict_mem_in; exact M|].
        apply in_or_app. right. left. reflexivity. }
      congruence.
    + destruct (dict_mem d k') eqn:M; [|reflexivity].
      assert (H : dict_mem (dict_set d k v) k' = true).
      { apply dict_mem_in. apply dict_mem_in in M. rewrite dict_set_keys.
        destruct (dict_mem d k); [exact M|apply in_or_app; left; exact M]. }
      congruence.
Qed.

End Dicts.

(** ** [addCounter] *)

Section AddCounter.

Lemma count_of_set_same (d : counter) k v : count_of (dict_set d k v) k = v.
Proof. unfold count_of. rewrite dict_get_set_same. reflexivity. Qed.

Lemma count_of_set_other (d : counter) k k' v :
  k' <> k -> count_of (dict_set d k v) k' = count_of d k'.
Proof. intros H. unfold count_of. rewrite dict_get_set_other by exact H. reflexivity. Qed.

Lemma count_of_absent (d : counter) k : dict_mem d k = false -> count_of d k = 0.
Proof. intros H. unfold count_of. rewrite dict_get_not_mem by exact H. reflexivity. Qed.

(** The loop over a duplicate-free list of keys of [counter2]. *)
Lemma addCounter_loop_spec (counter2 : counter) (items : list string) :
  NoDup items ->
  (forall k, In k items -> dict_mem counter2 k = true) ->
  forall counter1,
  exists c,
    addCounter_loop counter1 counter2 items = Ok c /\
    (forall k, count_of c k
               = count_of counter1 k
                 + if existsb (String.eqb k) items then count_of counter2 k
                   else 0) /\
    map fst c
    = map fst counter1
      ++ filter (fun k => negb (dict_mem counter1 k)) items.
Proof.
  induction 1 as [|item items Hnotin Hnd IH]; intros Hkeys counter1.
  - exists counter1. cbn [addCounter_loop existsb filter].
    repeat split; [intros; lia|rewrite app_nil_r; reflexivity].
  - assert (Hkeys' : forall k, In k items -> dict_mem counter2 k = true)
      by (intros k Hk; apply Hkeys; right; exact Hk).
    destruct (dict_get_mem counter2 item) as (v2 & Hv2);
      [apply Hkeys; left; reflexivity|].
    assert (Hfilter : forall c1' : counter,
              (forall k, k <> item -> dict_mem c1' k = dict_mem counter1 k) ->
              filter (fun k => negb (dict_mem c1' k)) items
              = filter (fun k => negb (dict_mem counter1 k)) items).
    { intros c1' Hsame. apply filter_ext_in. intros k Hk.
      rewrite Hsame; [reflexivity|]. intros ->. contradiction. }
    cbn [addCounter_loop existsb filter].
    destruct (dict_mem counter1 item) eqn:M.
    + destruct (dict_get_mem counter1 item M) as (v1 & Hv1).
      rewrite Hv1, Hv2.
      destruct (IH Hkeys' (dict_set counter1 item (v1 + v2)))
        as (c & Hrun & Hcount & Hkeysc).
      exists c. split; [exact Hrun|]. split.
      * intros k. rewrite Hcount.
        destruct (String.eqb k item) eqn:E; cbn [orb].
        -- apply String.eqb_eq in E. subst k.
           rewrite count_of_set_same.
           assert (Hn : existsb (String.eqb item) items = false).
           { apply not_true_is_false. intros Hex.
             apply existsb_exists in Hex. destruct Hex as (x & Hx & Ex).
             apply String.eqb_eq in Ex. subst x. contradiction. }
           rewrite Hn. unfold count_of. rewrite Hv1, Hv2. lia.
        -- apply String.eqb_neq in E.
           rewrite count_of_set_other by exact E. reflexivity.
      * rewrite Hkeysc, dict_set_keys, M. cbn [negb].
        rewrite Hfilter; [reflexivity|].
        intros k Hk. rewrite dict_mem_set.
        apply String.eqb_neq in Hk. rewrite Hk. reflexivity.
    + rewrite Hv2.
      destruct (IH Hkeys' (dict_set counter1 item v2))
        as (c & Hrun & Hcount & Hkeysc).
      exists c. split; [exact Hrun|]. split.
      * intros k. rewrite Hcount.
        destruct (String.eqb k item) eqn:E; cbn [orb].
        -- apply String.eqb_eq in E. subst k.
           rewrite count_of_set_same, (count_of_absent _ _ M).
           assert (Hn : existsb (String.eqb item) items = false).
           { apply not_true_is_false. intros Hex.
             apply existsb_exists in Hex. destruct Hex as (x & Hx & Ex).
             apply String.eqb_eq in Ex. subst x. contradiction. }
           rewrite Hn. unfold count_of. rewrite Hv2. lia.
        -- apply String.eqb_neq in E.
           rewrite count_of_set_other by exact E. reflexivity.
      * rewrite Hkeysc, dict_set_keys, M. cbn [negb]. rewrite <- app_assoc.
        cbn [app]. rewrite Hfilter; [reflexivity|].
        intros k Hk. rewrite dict_mem_set.
        apply String.eqb_neq in Hk. rewrite Hk. reflexivity.
Qed.

(** The counts after a merge. *)
Lemma addCounter_counts (counter1 counter2 : counter) :
  valid_dict counter2 ->
  exists c,
    addCounter counter1 counter2 = Ok c /\
    forall k, count_of c k = count_of counter1 k + count_of counter2 k.
Proof.
  intros Hvalid. unfold addCounter.
  destruct (@addCounter_loop_spec counter2 (map fst counter2) Hvalid)
    with (counter1 := counter1) as (c & Hrun & Hcount & _).
  - intros k Hk. apply dict_mem_in. exact Hk.
  - exists c. split; [exact Hrun|]. intros k. rewrite Hcount.
    destruct (existsb (String.eqb k) (map fst counter2)) eqn:E;
      [reflexivity|].
    rewrite (count_of_absent counter2 k); [reflexivity|].
    apply not_true_is_false. intros M. apply dict_mem_in in M.
    assert (Hex : existsb (String.eqb k) (map fst counter2) = true).
    { apply existsb_exists. exists k. split; [exact M|apply String.eqb_refl]. }
    congruence.
Qed.

(** X1. [addCounter] never fails on a dictionary [counter2], and the count
    of every key in the result is the sum of its counts in both counters,
    an absent key counting 0. *)
Theorem addCounter_sums_counts (counter1 counter2 : counter) :
  valid_dict counter2 ->
  exists c,
    addCounter counter1 counter2 = Ok c /\
    forall k, count_of c k = count_of counter1 k + count_of counter2 k.
Proof. apply addCounter_counts. Qed.

(** X2. The keys of [counter1] keep their places in the result, and the
    keys that only [counter2] has follow them in the order of [counter2]:
    no key is dropped, even when its counts cancel. *)
Theorem addCounter_keeps_key_order (counter1 counter2 : counter) :
  valid_dict counter2 ->
  exists c,
    addCounter counter1 counter2 = Ok c /\
    map fst c
    = map fst counter1
      ++ filter (fun k => negb (dict_mem counter1 k)) (map fst counter2).
Proof.
  intros Hvalid. unfold addCounter.
  destruct (@addCounter_loop_spec counter2 (map fst counter2) Hvalid)
    with (counter1 := counter1) as (c & Hrun & _ & Hkeys).
  - intros k Hk. apply dict_mem_in. exact Hk.
  - exists c. split; assumption.
Qed.

(** X3. The operator is registered as commutative: the two orders of
    merging give the same count for every key. *)
Theorem addCounter_commutes_on_counts (a b : counter) :
  valid_dict a -> valid_dict b ->
  exists ab ba,
    addCounter a b = Ok ab /\ addCounter b a = Ok ba /\
    forall k, count_of ab k = count_of ba k.
Proof.
  intros Ha Hb.
  destruct (addCounter_counts a Hb) as (ab & Hab & Cab).
  destruct (addCounter_counts b Ha) as (ba & Hba & Cba).
  exists ab, ba. repeat split; try assumption.
  intros k. rewrite Cab, Cba. lia.
Qed.

End AddCounter.

(** ** [DataParallelOptimizer] *)

Section DataParallelOptimizerFacts.
Import DPO.

Lemma run_app (cs1 cs2 : list DPO.call) (self : DataParallelOptimizer) :
  DPO.run (cs1 ++ cs2) self = DPO.run cs2 (DPO.run cs1 self).
Proof.
  revert self. induction cs1 as [|c cs1 IH]; intros self; cbn [DPO.run app];
    [reflexivity|apply IH].
Qed.

Lemma dpo_perform_mode (c : DPO.call) (self : DataParallelOptimizer) :
  blocking_parameter_updates (DPO.perform c self)
  = blocking_parameter_updates self.
Proof.
  destruct c; cbn [DPO.perform]; try reflexivity.
  - unfold DPO.step. destruct (blocking_parameter_updates self); reflexivity.
  - unfold zero_grad. destruct (nth_error _ _); reflexivity.
Qed.

(** X4. A non-blocking optimizer never steps the wrapped torch optimizer,
    whatever is called and however often: [step] only raises
    [update_next], which nothing in the class lowers again.  A blocking one
    steps it once per call of [step]. *)
Theorem dpo_steps_taken (o : TorchOptimizer) (b : bool)
  (self : DataParallelOptimizer) (cs : list DPO.call) :
  DPO.__init__ o (PyBool b) = Ok self ->
  steps_taken (torch_optimizer (DPO.run cs self))
  = (steps_taken o + if b then count_steps cs else 0)%nat /\
  update_next (DPO.run cs self)
  = negb b && negb (Nat.eqb (count_steps cs) 0).
Proof.
  intros Hinit. cbn in Hinit. injection Hinit as <-.
  set (s0 := mkDataParallelOptimizer o b false (group_params o)).
  assert (G : forall cs s,
            blocking_parameter_updates s = b ->
            steps_taken (torch_optimizer (DPO.run cs s))
            = (steps_taken (torch_optimizer s)
               + if b then count_steps cs else 0)%nat /\
            update_next (DPO.run cs s)
            = update_next s || (negb b && negb (Nat.eqb (count_steps cs) 0))).
  { clear. induction cs as [|c cs IH]; intros s Hb; cbn [DPO.run].
    - unfold count_steps. cbn. destruct b; cbn; split;
        try rewrite orb_false_r; auto.
    - destruct (IH (DPO.perform c s)) as [IH1 IH2];
        [rewrite dpo_perform_mode; exact Hb|].
      rewrite IH1, IH2. unfold count_steps. cbn [filter].
      destruct c; cbn [DPO.perform length].
      + unfold DPO.step. rewrite Hb. destruct b; cbn; split;
          try reflexivity; try lia.
      + unfold zero_grad. destruct (nth_error _ _); cbn; split; reflexivity.
      + split; reflexivity.
      + split; reflexivity. }
  destruct (G cs s0 eq_refl) as [G1 G2]. split; [exact G1|exact G2].
Qed.

Lemma nth_error_set_nth_other {A} (l : list A) i j v :
  i <> j -> nth_error (set_nth l i v) j = nth_error l j.
Proof.
  revert i j. induction l as [|x l IH]; intros [|i] [|j] H;
    cbn [set_nth nth_error]; try reflexivity; try congruence.
  apply IH. congruence.
Qed.

Lemma set_nth_length {A} (l : list A) i v : length (set_nth l i v) = length l.
Proof.
  revert i. induction l as [|x l IH]; intros [|i]; cbn [set_nth length];
    try reflexivity.
  rewrite IH. reflexivity.
Qed.

(** X5. [params_ref] refers to the list object of the parameter group at
    construction.  As long as that object is not changed in place while the
    group is still bound to it, the reference keeps the items of
    construction through every call, each [zero_grad] resets the gradients
    of exactly those items, and [zero_grad] binds the group to a fresh copy
    of them, whatever view was bound before. *)
Theorem dpo_zero_grad_restores_reference (o : TorchOptimizer) (blocking : pyval)
  (self : DataParallelOptimizer) (items0 : list nat) (cs : list DPO.call) :
  DPO.__init__ o blocking = Ok self ->
  nth_error (lists o) (group_params o) = Some items0 ->
  keeps_reference true cs = true ->
  ref_items (DPO.run cs self) = Some items0 /\
  grads_zeroed (torch_optimizer (DPO.run cs self))
  = grads_zeroed o
    ++ repeat items0
         (length (filter (fun c => match c with ZeroGrad => true | _ => false end)
                         cs)) /\
  group_items (DPO.run (cs ++ [ZeroGrad]) self) = Some items0 /\
  group_params (torch_optimizer (DPO.run (cs ++ [ZeroGrad]) self))
  <> params_ref (DPO.run (cs ++ [ZeroGrad]) self).
Proof.
  intros Hinit Hitems Hkeep.
  assert (Hself : ref_items self = Some items0 /\
                  grads_zeroed (torch_optimizer self) = grads_zeroed o).
  { unfold DPO.__init__ in Hinit. destruct blocking; try discriminate.
    injection Hinit as <-. split; [exact Hitems|reflexivity]. }
  destruct Hself as [Href Hz]. rewrite <- Hz. clear Hinit Hitems Hz o.
  assert (G : forall cs s aliased,
            ref_items s = Some items0 ->
            (aliased = false ->
             group_params (torch_optimizer s) <> params_ref s) ->
            keeps_reference aliased cs = true ->
            ref_items (DPO.run cs s) = Some items0 /\
            grads_zeroed (torch_optimizer (DPO.run cs s))
            = grads_zeroed (torch_optimizer s)
              ++ repeat items0
                   (length (filter (fun c => match c with
                                             | ZeroGrad => true
                                             | _ => false
                                             end) cs))).
  { clear. induction cs as [|c cs IH]; intros s aliased Href Hal Hkeep;
      cbn [DPO.run filter].
    - cbn [length repeat]. rewrite app_nil_r. split; [exact Href|reflexivity].
    - assert (Hlt : (params_ref s < length (lists (torch_optimizer s)))%nat)
        by (apply nth_error_Some; unfold ref_items in Href; congruence).
      destruct c; cbn [keeps_reference] in Hkeep; cbn [DPO.perform].
      + assert (Hstep : ref_items (DPO.step s) = ref_items s /\
                        group_params (torch_optimizer (DPO.step s))
                        = group_params (torch_optimizer s) /\
                        params_ref (DPO.step s) = params_ref s /\
                        grads_zeroed (torch_optimizer (DPO.step s))
                        = grads_zeroed (torch_optimizer s)).
        { unfold DPO.step, ref_items.
          destruct (blocking_parameter_updates s); repeat split. }
        destruct Hstep as (S1 & S2 & S3 & S4).
        destruct (IH (DPO.step s) aliased) as [IH1 IH2];
          [rewrite S1; exact Href|rewrite S2, S3; exact Hal|exact Hkeep|].
        split; [exact IH1|rewrite IH2, S4; reflexivity].
      + unfold zero_grad. unfold ref_items in Href. rewrite Href.
        destruct (IH (mkDataParallelOptimizer
                        (mkTorchOptimizer
                           (lists (torch_optimizer s) ++ [items0])
                           (length (lists (torch_optimizer s)))
                           (steps_taken (torch_optimizer s))
                           (grads_zeroed (torch_optimizer s) ++ [items0]))
                        (blocking_parameter_updates s) (update_next s)
                        (params_ref s)) false) as [IH1 IH2].
        * unfold ref_items. cbn. rewrite nth_error_app1 by exact Hlt.
          exact Href.
        * intros _. cbn. lia.
        * exact Hkeep.
        * split; [exact IH1|]. rewrite IH2. cbn [torch_optimizer grads_zeroed
            length repeat]. rewrite <- app_assoc. reflexivity.
      + destruct (IH (rebind items s) false) as [IH1 IH2].
        * unfold ref_items, rebind. cbn. rewrite nth_error_app1 by exact Hlt.
          exact Href.
        * intros _. unfold rebind. cbn. lia.
        * exact Hkeep.
        * split; [exact IH1|rewrite IH2; reflexivity].
      + apply andb_true_iff in Hkeep. destruct Hkeep as [Ha Hkeep].
        apply negb_true_iff in Ha. subst aliased.
        destruct (IH (change_in_place items s) false) as [IH1 IH2].
        * unfold ref_items, change_in_place. cbn.
          rewrite nth_error_set_nth_other by (apply Hal; reflexivity).
          exact Href.
        * intros _. unfold change_in_place. cbn. apply Hal. reflexivity.
        * exact Hkeep.
        * split; [exact IH1|rewrite IH2; reflexivity]. }
  destruct (G cs self true Href) as [G1 G2]; [discriminate|exact Hkeep|].
  split; [exact G1|]. split; [exact G2|].
  rewrite run_app. cbn [DPO.run DPO.perform]. unfold zero_grad.
  unfold ref_items in G1. rewrite G1. unfold group_items. cbn.
  assert (Hlt : (params_ref (DPO.run cs self)
                 < length (lists (torch_optimizer (DPO.run cs self))))%nat)
    by (apply nth_error_Some; congruence).
  split; [|lia].
  rewrite nth_error_app2 by lia. rewrite Nat.sub_diag. reflexivity.
Qed.

End DataParallelOptimizerFacts.

(** ** The weights of the merge *)

Section MergeWeights.


End MergeWeights.

Section ControllerCases.
Context {TL : TensorLib} {W : World}.
Local Open Scope method_scope.

Lemma py_setitem_cases {A} (l : list A) i v :
  py_setitem l i v = Raise IndexError \/
  py_setitem l i v
  = Ok (set_nth l (Z.to_nat (if i <? 0 then Z.of_nat (length l) + i else i))
                v).
Proof.
  unfold py_setitem. destruct (_ && _); [right|left]; reflexivity.
Qed.

(** Every call of [epoch_loss_logic] ends in one of the six verdicts; with
    the rank inside the communicator the call is not rejected and the
    average appended is that of the reduced loss vector. *)
Lemma epoch_loss_logic_cases (s : SkipBatches) (loss : Q) :
  exists v avg,
    verdict_holds v s avg (epoch_loss_logic loss s) /\
    (valid_comm s -> v <> Rejected /\ avg = avg_loss s loss).
Proof.
  unfold epoch_loss_logic. mrun.
  destruct (py_setitem_cases (repeat 0%Q (Z.to_nat (comm_size s)))
              (comm_rank s) loss) as [Ei|Ei]; rewrite Ei; mrun.
  { exists Rejected, 0%Q. split; [reflexivity|].
    intros Hc. exfalso. rewrite py_setitem_ok in Ei; [discriminate|].
    rewrite repeat_length. unfold valid_comm in Hc. lia. }
  set (avg := mean (allreduce_loss (length (trace s)) _)).
  assert (Havg : valid_comm s -> avg = avg_loss s loss).
  { intros Hc. unfold avg, avg_loss. unfold valid_comm in Hc.
    destruct (comm_rank s <? 0) eqn:En; [apply Z.ltb_lt in En; lia|].
    reflexivity. }
  match goal with
  | |- exists v a, verdict_holds v s a ?out /\ _ =>
      cut (exists v, v <> Rejected /\ verdict_holds v s avg out)
  end.
  { intros (v & Hv & H). exists v, avg. split; [exact H|].
    intros Hc. split; [exact Hv|apply Havg; exact Hc]. }
  clearbody avg. clear Havg Ei. rewrite run_if.
  destruct (epoch s <? warmup_epochs s) eqn:Ew; mrun.
  { exists Resynchronized. split; [discriminate|]. unfold verdict_holds. fields. apply Z.ltb_lt in Ew.
    rewrite (proj2 (Z.leb_gt _ _) Ew), andb_false_r.
    repeat split; try reflexivity. left; exact Ew. }
  apply Z.ltb_ge in Ew. rewrite bind_if.
  destruct (4 =? epoch s) eqn:E4; mrun; rewrite run_if; fields.
  - destruct (epoch s >=? total_epochs s - 5) eqn:Ec; mrun.
    { exists Resynchronized. split; [discriminate|]. unfold verdict_holds. fields.
      rewrite Z.geb_leb in Ec. apply Z.leb_le in Ec.
      rewrite E4, (proj2 (Z.leb_le _ _) Ew).
      repeat split; try reflexivity. right; exact Ec. }
    apply Z.eqb_eq in E4.
    exists Triggered. split; [discriminate|]. rewrite run_if. cbn [length].
    destruct (Z.of_nat 0 <? epochs_to_wait s); mrun;
      [unfold verdict_holds; fields; repeat split; auto|].
    cbn [py_index length Z.of_nat Z.ltb Z.compare Z.add andb Z.leb].
    mrun. unfold verdict_holds; fields; repeat split; auto.
  - destruct (epoch s >=? total_epochs s - 5) eqn:Ec; mrun.
    { exists Resynchronized. split; [discriminate|]. unfold verdict_holds. fields.
      rewrite Z.geb_leb in Ec. apply Z.leb_le in Ec.
      rewrite E4. repeat split; try reflexivity. right; exact Ec. }
    rewrite run_if.
    destruct (_ <? epochs_to_wait s) eqn:El; mrun;
      [exists Kept; split; [discriminate|]; unfold verdict_holds; fields; repeat split; reflexivity|].
    apply Z.ltb_ge in El.
    destruct (py_index _ (-1)) as [last|e]; mrun;
      [|exists Kept; split; [discriminate|]; unfold verdict_holds; fields; repeat split; reflexivity].
    destruct (py_index _ (-1 * epochs_to_wait s)) as [back|e]; mrun;
      [|exists Kept; split; [discriminate|]; unfold verdict_holds; fields; repeat split; reflexivity].
    cbv zeta. rewrite !run_if.
    destruct (Qle_bool _ _ && (global_skip s >? 1)) eqn:Eh.
    + apply andb_true_iff in Eh. destruct Eh as [_ G]. apply Z.gtb_lt in G.
      exists Halved. split; [discriminate|]. mrun. rewrite run_if. fields.
      assert (G2 : (global_skip s / 2 >? 0) = true).
      { apply Z.gtb_lt.
        pose proof (Z.div_le_lower_bound (global_skip s) 2 1). lia. }
      rewrite G2. rewrite bind_if. unfold verdict_holds, halved.
      destruct (batches_to_wait s / 2 =? 0); mrun; rewrite run_if; fields;
        destruct (local_skip s / 2 =? 0); mrun;
        repeat split; try reflexivity; try exact G; exact El.
    + destruct ((global_skip s =? 1) && _) eqn:Ed; mrun.
      * apply andb_true_iff in Ed. destruct Ed as [G _].
        apply Z.eqb_eq in G.
        exists Doubled. split; [discriminate|]. unfold verdict_holds; fields.
        repeat split; try reflexivity; assumption.
      * exists Kept. split; [discriminate|]. unfold verdict_holds; fields. repeat split; reflexivity.
Qed.

End ControllerCases.

Create HintDb views.

Ltac view_frame :=
  repeat first
    [ match goal with
      | |- preserves _ _ => solve [auto with views]
      end
    | progress cbv zeta
    | preserve_step ].

Section StepMoves.
Context {TL : TensorLib} {W : World}.
Local Open Scope method_scope.

#[local] Hint Resolve
  preserves_emit preserves_get_module preserves_get_reduced
  preserves_for_named_parameters preserves_stop_local_sync
  preserves_start_local_sync preserves_local_optimizer_step
  preserves_local_torch_param_update : views.

(** The continuation of a bind runs from a state with the same view. *)
Lemma bind_frame {X A B} (v : SkipBatches -> X) (m : M A) (k : A -> M B)
  (P : result B * SkipBatches -> Prop) s :
  preserves v m ->
  (forall e s1, v s1 = v s -> P (Raise e, s1)) ->
  (forall a s1, v s1 = v s -> P (k a s1)) ->
  P (bind m k s).
Proof.
  intros Hm He Hk. unfold bind. specialize (Hm s).
  destruct (m s) as [[a|e] s1]; cbn [snd] in Hm; auto.
Qed.

(** The continuation of a bind runs from where the first method returned. *)
Lemma bind_cases {A B} (m : M A) (k : A -> M B)
  (P : result B * SkipBatches -> Prop) s :
  (forall e s1, m s = (Raise e, s1) -> P (Raise e, s1)) ->
  (forall a s1, m s = (Ok a, s1) -> P (k a s1)) ->
  P (bind m k s).
Proof.
  intros He Hk. unfold bind.
  destruct (m s) as [[a|e] s1]; [apply Hk|apply He]; reflexivity.
Qed.

Lemma queue_local_optimizer_step : preserves queue_view local_optimizer_step.
Proof. apply preserves_local_optimizer_step; reflexivity. Qed.

Lemma queue_local_torch_param_update h :
  preserves queue_view (_local_torch_param_update h).
Proof. apply preserves_local_torch_param_update; reflexivity. Qed.

Lemma queue_start_local_sync : preserves queue_view _start_local_sync.
Proof. apply preserves_start_local_sync; reflexivity. Qed.

Lemma queue_stop_local_sync : preserves queue_view _stop_local_sync.
Proof. apply preserves_stop_local_sync; reflexivity. Qed.

Lemma position_create_param_dict_n_shapes :
  preserves position_view _create_param_dict_n_shapes.
Proof. unfold _create_param_dict_n_shapes. view_frame. Qed.

Lemma position_pop_prev_params : preserves position_view pop_prev_params.
Proof. unfold pop_prev_params. view_frame. Qed.

#[local] Hint Resolve
  position_create_param_dict_n_shapes position_pop_prev_params : views.

Lemma position_global_send_update c b :
  preserves position_view (_global_send_update c b).
Proof. unfold _global_send_update. view_frame. Qed.

Lemma position_update_parameters : preserves position_view _update_parameters.
Proof. unfold _update_parameters. view_frame. Qed.


Lemma position_view_inv (a b : SkipBatches) :
  position_view a = position_view b ->
  (current_batch a = current_batch b /\ epoch a = epoch b /\
   _send_mod a = _send_mod b /\ _send_mod_m1 a = _send_mod_m1 b) /\
  (last_batch a = last_batch b /\ loc_gpus a = loc_gpus b /\
   reduced_ranks a = reduced_ranks b /\ comm_rank a = comm_rank b) /\
  (global_skip a = global_skip b /\ local_skip a = local_skip b /\
   batches_to_wait a = batches_to_wait b).
Proof.
  unfold position_view, cursor, setup_view, controller_view.
  intros E. injection E. intros. repeat split; assumption.
Qed.

Lemma queue_view_inv (a b : SkipBatches) :
  queue_view a = queue_view b ->
  position_view a = position_view b /\ _prev_params a = _prev_params b.
Proof.
  intros E. split.
  - exact (f_equal (fun x => (fst (fst x), snd x)) E).
  - exact (f_equal (fun x => snd (fst x)) E).
Qed.

Lemma position_view_derived (a b : SkipBatches) :
  position_view a = position_view b ->
  cursor a = cursor b /\ at_last_batch a = at_last_batch b /\
  next_send_mod a = next_send_mod b.
Proof.
  intros E. apply position_view_inv in E.
  destruct E as ((Hb & He & Hm & Hm1) & (Hl & Hg & _ & _) & _).
  unfold cursor, at_last_batch, next_send_mod.
  rewrite Hb, He, Hm, Hm1, Hl, Hg. repeat split; reflexivity.
Qed.

(** A view of the start state decides which move holds. *)
Lemma move_holds_from (mv : move) (s0 s : SkipBatches) out :
  position_view s = position_view s0 ->
  move_holds mv s out -> move_holds mv s0 out.
Proof.
  intros E. apply position_view_inv in E.
  destruct E as ((Hb & He & Hm & Hm1) & (Hl & Hg & _ & _) & (Hgs & _ & Hbw)).
  unfold move_holds, cursor, at_last_batch, next_send_mod.
  rewrite Hb, He, Hm, Hm1, Hl, Hg, Hgs, Hbw. exact (fun H => H).
Qed.

(** The merge point either raises before it moves the cursor, or it
    returns with the queue empty, the marker of the previous slot cleared
    and the cursor on the next batch or on the next epoch. *)
Lemma merge_point_moves (current_ranks : list Z) (s : SkipBatches) :
  let out := merge_point current_ranks s in
  (is_ok (fst out) = false /\ cursor (snd out) = cursor s) \/
  (fst out = Ok tt /\ _prev_params (snd out) = [] /\
   cursor (snd out)
   = if at_last_batch s then (0, epoch s + 1, 0, None)
     else (current_batch s + 1, epoch s, next_send_mod s, None)).
Proof.
  cbv zeta. unfold merge_point. rewrite bind_get.
  assert (Tail : forall s1 : SkipBatches,
    position_view s1 = position_view s -> _prev_params s1 = [] ->
    let out :=
      (s2 <- get ;;
       _local_torch_param_update (Some (_send_mod s2)) ;;
       modify (set_send_mod_m1 None) ;;
       s3 <- get ;;
       if at_last_batch s3 then
         modify (set_send_mod 0) ;;
         modify (fun s => set_epoch (epoch s + 1) s) ;;
         modify (set_current_batch 0)
       else
         modify (fun s => set_current_batch (current_batch s + 1) s) ;;
         modify (fun s => set_send_mod (next_send_mod s) s)) s1 in
    (is_ok (fst out) = false /\ cursor (snd out) = cursor s) \/
    (fst out = Ok tt /\ _prev_params (snd out) = [] /\
     cursor (snd out)
     = if at_last_batch s then (0, epoch s + 1, 0, None)
       else (current_batch s + 1, epoch s, next_send_mod s, None))).
  { intros s1 Hv Hq. cbv zeta. rewrite bind_get.
    apply bind_frame with (v := queue_view);
      [apply queue_local_torch_param_update| |].
    - intros e s2 E. left. split; [reflexivity|].
      apply queue_view_inv in E. destruct E as [E _].
      apply position_view_derived in E. apply position_view_derived in Hv.
      destruct E as [E _]. destruct Hv as [Hv _]. cbn [snd]. congruence.
    - intros [] s2 E. right. mrun.
      apply queue_view_inv in E. destruct E as [E Eq].
      assert (E' : position_view s2 = position_view s) by congruence.
      destruct (position_view_derived E') as (_ & Hat & Hnext).
      apply position_view_inv in E'.
      destruct E' as ((Hb & He & Hm & Hm1) & _ & _).
      assert (Hat' : at_last_batch (set_send_mod_m1 None s2) = at_last_batch s)
        by (rewrite <- Hat; reflexivity).
      assert (Hnext' : next_send_mod
                         (set_current_batch (current_batch s2 + 1)
                            (set_send_mod_m1 None s2)) = next_send_mod s)
        by (rewrite <- Hnext; reflexivity).
      rewrite run_if, Hat'.
      destruct (at_last_batch s); mrun; unfold cursor; fields.
      + repeat split; congruence.
      + repeat split; congruence. }
  match goal with
  | |- context [bind ?m _ s] =>
      assert (Block : forall r s1,
                m s = (r, s1) ->
                position_view s1 = position_view s /\
                (is_ok r = true -> _prev_params s1 = []))
  end.
  { intros r s1.
    destruct (py_in (comm_rank s) current_ranks).
    - destruct (1 <? length (_prev_params s))%nat; mrun.
      { intros H. injection H as <- <-. split; [reflexivity|discriminate]. }
      unfold pop_prev_params. mrun.
      destruct (_prev_params s) as [|rec q] eqn:Q; mrun.
      { intros H. injection H as <- <-. split; [reflexivity|discriminate]. }
      unfold for_named_parameters, get_module. mrun.
      destruct (module s) as [mdl|]; mrun.
      2:{ intros H. injection H as <- <-. split; [reflexivity|discriminate]. }
      destruct (for_params _ _) as [[[]|e] ps]; mrun;
        intros H; injection H as <- <-; split;
        try reflexivity; discriminate.
    - destruct (0 <? length (_prev_params s))%nat eqn:L; mrun;
        intros H; injection H as <- <-; split;
        try reflexivity; try discriminate.
      intros _. destruct (_prev_params s); [reflexivity|discriminate]. }
  apply bind_cases.
  - intros e s1 H. apply Block in H. destruct H as [H _].
    left. split; [reflexivity|]. cbn [snd].
    apply position_view_derived in H. apply H.
  - intros [] s1 H. apply Block in H. destruct H as [H1 H2].
    apply Tail; [exact H1|apply H2; reflexivity].
Qed.

Lemma position_local_torch_param_update h :
  preserves position_view (_local_torch_param_update h).
Proof. apply preserves_local_torch_param_update; reflexivity. Qed.

#[local] Hint Resolve
  position_global_send_update position_update_parameters
  position_local_torch_param_update : views.

Lemma stayed (s0 s1 : SkipBatches) (e : exn) :
  position_view s1 = position_view s0 ->
  exists mv, move_holds mv s0 (@Raise unit e, s1).
Proof.
  intros E. exists Stayed. split; [reflexivity|].
  apply position_view_derived in E. apply E.
Qed.

(** A full global synchronization raises before it moves the cursor, or it
    defers the merge, merges at once, or wraps to the next epoch. *)
Lemma full_global_sync_moves (b : Z) (s : SkipBatches) :
  exists mv, mv <> Advanced /\ move_holds mv s (_full_global_sync b s).
Proof.
  assert (St : forall s1 e, position_view s1 = position_view s ->
                 exists mv, mv <> Advanced /\
                            move_holds mv s (@Raise unit e, s1)).
  { intros s1 e E. exists Stayed. split; [discriminate|].
    split; [reflexivity|]. apply position_view_derived in E. apply E. }
  unfold _full_global_sync, get_reduced. mrun.
  destruct (reduced_ranks s) as [reduced|]; mrun; [|apply St; reflexivity].
  destruct (py_index reduced (_send_mod s)) as [ranks|e]; mrun;
    [|apply St; reflexivity].
  apply bind_frame with (v := position_view).
  { destruct (py_in _ _); view_frame. }
  { intros e s1 E. apply St. exact E. }
  intros [] s1 E1. mrun.
  apply bind_frame with (v := position_view).
  { destruct (negb _); view_frame. }
  { intros e s2 E. apply St. congruence. }
  intros [] s2 E2. mrun. rewrite run_if.
  assert (E : position_view s2 = position_view s) by congruence.
  destruct (position_view_derived E) as (Hc & Hat & Hnext).
  destruct (position_view_inv E)
    as ((Hb & He & Hm & Hm1) & (_ & Hg & _ & _) & (_ & _ & Hbw)).
  destruct (at_last_batch s2 || (batches_to_wait s2 =? 0)) eqn:C.
  - destruct (merge_point_moves ranks s2) as [[F1 F2]|(F1 & F2 & F3)].
    + exists Stayed. split; [discriminate|]. split; [exact F1|congruence].
    + rewrite Hat, Hb, He, Hnext in F3.
      destruct (at_last_batch s) eqn:L.
      * exists Wrapped. split; [discriminate|]. repeat split; assumption.
      * exists Merged. split; [discriminate|]. repeat split; assumption.
  - apply orb_false_iff in C. destruct C as [C1 C2].
    exists Deferred. split; [discriminate|]. mrun.
    unfold move_holds, cursor. fields.
    split; [reflexivity|]. split; [congruence|].
    split; [apply Z.eqb_neq in C2; congruence|].
    unfold next_send_mod. fields. rewrite Hb, He, Hm, Hg. reflexivity.
Qed.

Lemma position_start_local_sync : preserves position_view _start_local_sync.
Proof. apply preserves_start_local_sync; reflexivity. Qed.

Lemma position_stop_local_sync : preserves position_view _stop_local_sync.
Proof. apply preserves_stop_local_sync; reflexivity. Qed.

Lemma position_local_optimizer_step :
  preserves position_view local_optimizer_step.
Proof. apply preserves_local_optimizer_step; reflexivity. Qed.

#[local] Hint Resolve
  position_start_local_sync position_stop_local_sync
  position_local_optimizer_step : views.

Lemma advances_incr : advances incr_current_batch.
Proof. intros s. left. reflexivity. Qed.

Lemma advances_then {A B} (m : M A) (k : A -> M B) :
  advances m -> (forall a, preserves position_view (k a)) ->
  advances (bind m k).
Proof.
  intros Hm Hk s. unfold bind. specialize (Hm s).
  destruct (m s) as [[a|e] s1]; cbn [fst snd] in *.
  - destruct Hm as [Hm|[Hm _]]; [|discriminate].
    left. rewrite Hk. exact Hm.
  - exact Hm.
Qed.

Lemma then_advances {A B} (m : M A) (k : A -> M B) :
  preserves position_view m -> (forall a, advances (k a)) ->
  advances (bind m k).
Proof.
  intros Hm Hk s. unfold bind. specialize (Hm s).
  destruct (m s) as [[a|e] s1]; cbn [fst snd] in *.
  - specialize (Hk a s1).
    destruct (position_view_inv Hm) as ((Hb & He & Hs & Hs1) & _).
    assert (Hsetup : setup_view s1 = setup_view s)
      by exact (f_equal snd Hm).
    rewrite Hb, He, Hs, Hs1, Hsetup, Hm in Hk. exact Hk.
  - right. split; [reflexivity|exact Hm].
Qed.

Ltac advance :=
  first
    [ apply advances_incr
    | match goal with
      | |- advances (if ?b then _ else _) => destruct b; advance
      end
    | apply advances_then; [advance|intros; solve [view_frame]]
    | apply then_advances; [solve [view_frame]|intros; advance] ].

(** The batches of [step] that do not synchronize globally. *)
Lemma step_local_branches_advance (gs ls lb next_batch gmod lmod btw : Z) :
  advances
    (r <- lift (Ok (next_batch mod gs)) ;;
     if r =? 0 then
       _start_local_sync ;;
       incr_current_batch
     else if gmod <? btw then
       incr_current_batch ;;
       (if next_batch =? lb then _start_local_sync else ret tt)
     else
       (if gmod =? btw then
          _update_parameters ;;
          s' <- get ;;
          _local_torch_param_update (_send_mod_m1 s') ;;
          (if ls >? 1 then _stop_local_sync else ret tt)
        else ret tt) ;;
       if (ls =? 1) && negb (next_batch =? lb) then
         incr_current_batch ;;
         _start_local_sync
       else
         (if lmod =? 0 then _stop_local_sync
          else
            r <- lift (py_mod next_batch ls) ;;
            if r =? 0 then _start_local_sync else ret tt) ;;
         (if next_batch =? lb then _start_local_sync else ret tt) ;;
         incr_current_batch).
Proof. advance. Qed.

(** Every call of [step] makes one of the five moves. *)
Lemma step_moves (s : SkipBatches) : exists mv, move_holds mv s (step s).
Proof.
  unfold step.
  apply bind_frame with (v := position_view);
    [apply position_local_optimizer_step|intros; apply stayed; assumption|].
  intros [] s1 E. mrun.
  destruct (position_view_derived E) as (Hc & Hat & Hnext).
  destruct (position_view_inv E) as (_ & _ & (Hgs & _ & _)).
  assert (Local : forall gmod lmod lb btw,
            0 < global_skip s1 -> last_batch s1 = Some lb ->
            (current_batch s1 =? lb) || (gmod =? 0) = false ->
            exists mv,
              move_holds mv s
                ((r <- lift (py_mod (current_batch s1 + 1) (global_skip s1)) ;;
                  if r =? 0 then
                    _start_local_sync ;;
                    incr_current_batch
                  else if gmod <? btw then
                    incr_current_batch ;;
                    (if current_batch s1 + 1 =? lb then _start_local_sync
                     else ret tt)
                  else
                    (if gmod =? btw then
                       _update_parameters ;;
                       s' <- get ;;
                       _local_torch_param_update (_send_mod_m1 s') ;;
                       (if local_skip s1 >? 1 then _stop_local_sync
                        else ret tt)
                     else ret tt) ;;
                    if (local_skip s1 =? 1)
                       && negb (current_batch s1 + 1 =? lb) then
                      incr_current_batch ;;
                      _start_local_sync
                    else
                      (if lmod =? 0 then _stop_local_sync
                       else
                         r <- lift (py_mod (current_batch s1 + 1)
                                           (local_skip s1)) ;;
                         if r =? 0 then _start_local_sync else ret tt) ;;
                      (if current_batch s1 + 1 =? lb then _start_local_sync
                       else ret tt) ;;
                      incr_current_batch) s1)).
  { intros gmod lmod lb btw G LB C.
    rewrite py_mod_ok by lia.
    apply orb_false_iff in C. destruct C as [C _].
    assert (L : at_last_batch s = false)
      by (rewrite <- Hat; unfold at_last_batch; rewrite LB; exact C).
    destruct (step_local_branches_advance (global_skip s1) (local_skip s1) lb
                (current_batch s1 + 1) gmod lmod btw s1) as [A|[A1 A2]].
    - exists Advanced. apply move_holds_from with (s := s1); [exact E|].
      unfold move_holds. rewrite Hat. split; [exact L|]. split; [exact G|].
      exact (f_equal fst A).
    - exists Stayed. split; [exact A1|].
      rewrite <- Hc. exact (f_equal fst A2). }
  destruct (global_skip s1 >? 0) eqn:G.
  - apply Z.gtb_lt in G. rewrite py_mod_ok by lia. mrun.
    destruct (local_skip s1 >? 0) eqn:L;
      [apply Z.gtb_lt in L; rewrite py_mod_ok by lia|]; mrun;
      (destruct (last_batch s1) as [lb|] eqn:LB; mrun;
       [|apply stayed; exact E]);
      rewrite run_if;
      match goal with
      | |- exists mv, move_holds mv _ (if ?c then _ else _) =>
          destruct c eqn:C
      end.
    + destruct (full_global_sync_moves
                  (if batches_to_wait s1 + current_batch s1 <=? lb
                   then batches_to_wait s1 else lb - current_batch s1) s1)
        as (mv & _ & H).
      exists mv. apply move_holds_from with (s := s1); assumption.
    + apply Local; (assumption || reflexivity).
    + destruct (full_global_sync_moves
                  (if batches_to_wait s1 + current_batch s1 <=? lb
                   then batches_to_wait s1 else lb - current_batch s1) s1)
        as (mv & _ & H).
      exists mv. apply move_holds_from with (s := s1); assumption.
    + apply Local; (assumption || reflexivity).
  - mrun.
    destruct (local_skip s1 >? 0) eqn:L;
      [apply Z.gtb_lt in L; rewrite py_mod_ok by lia|]; mrun;
      (destruct (last_batch s1) as [lb|] eqn:LB; mrun;
       [|apply stayed; exact E]);
      change (0 =? 0) with true; rewrite orb_true_r; cbv iota;
      destruct (full_global_sync_moves
                  (if batches_to_wait s1 + current_batch s1 <=? lb
                   then batches_to_wait s1 else lb - current_batch s1) s1)
        as (mv & _ & H);
      exists mv; apply move_holds_from with (s := s1); assumption.
Qed.

End StepMoves.

(** ** The slots of the constructor *)

Section Ranges.

Lemma range_from_spec (fuel : nat) (start stop step j : Z) :
  0 < step -> stop - start <= Z.of_nat fuel ->
  In j (range_from fuel start stop step)
  <-> start <= j < stop /\ (j - start) mod step = 0.
Proof.
  intros Hstep. revert start.
  induction fuel as [|fuel IH]; intros start Hfuel; cbn [range_from].
  - split; [intros []|lia].
  - destruct (start <? stop) eqn:E.
    + apply Z.ltb_lt in E. cbn [In]. rewrite IH by lia.
      replace (j - (start + step)) with (j - start + (-1) * step) by lia.
      rewrite Z_mod_plus_full.
      split.
      * intros [<-|[H1 H2]].
        -- rewrite Z.sub_diag, Z.mod_0_l by lia. lia.
        -- split; [lia|exact H2].
      * intros [H1 H2].
        destruct (Z.eq_dec start j) as [Ej|Ej]; [left; exact Ej|right].
        split; [|exact H2].
        pose proof (Z.div_mod (j - start) step ltac:(lia)) as D.
        rewrite H2 in D. set (q := (j - start) / step) in *.
        assert (Hq : 1 <= q).
        { destruct (Z.le_gt_cases q 0) as [Hq|Hq]; [|lia].
          pose proof (Z.mul_nonneg_nonpos step q ltac:(lia) Hq). lia. }
        pose proof (Z.mul_le_mono_nonneg_l 1 q step ltac:(lia) Hq). lia.
    + apply Z.ltb_ge in E. split; [intros []|lia].
Qed.

Lemma range_from_unit (fuel : nat) (start : Z) :
  length (range_from fuel start (start + Z.of_nat fuel) 1) = fuel /\
  forall k, (k < fuel)%nat ->
            nth_error (range_from fuel start (start + Z.of_nat fuel) 1) k
            = Some (start + Z.of_nat k).
Proof.
  revert start. induction fuel as [|fuel IH]; intros start.
  - split; [reflexivity|]. intros k Hk. lia.
  - cbn [range_from].
    destruct (start <? start + Z.of_nat (S fuel)) eqn:E;
      [|apply Z.ltb_ge in E; lia].
    replace (start + Z.of_nat (S fuel)) with (start + 1 + Z.of_nat fuel)
      by lia.
    destruct (IH (start + 1)) as [IH1 IH2].
    split; [cbn [length]; rewrite IH1; reflexivity|].
    intros [|k] Hk; cbn [nth_error].
    + f_equal. lia.
    + rewrite IH2 by lia. f_equal. lia.
Qed.

Lemma py_range_length (n : Z) : length (py_range n) = Z.to_nat n.
Proof.
  unfold py_range, py_range3. rewrite Z.sub_0_r.
  destruct (Z.le_gt_cases 0 n) as [H|H].
  - pose proof (range_from_unit (Z.to_nat n) 0) as [L _].
    rewrite Z.add_0_l, Z2Nat.id in L by exact H. exact L.
  - replace (Z.to_nat n) with 0%nat by lia. reflexivity.
Qed.

Lemma py_range_nth (n i : Z) :
  0 <= i < n -> nth_error (py_range n) (Z.to_nat i) = Some i.
Proof.
  intros H. unfold py_range, py_range3. rewrite Z.sub_0_r.
  pose proof (range_from_unit (Z.to_nat n) 0) as [_ N].
  rewrite Z.add_0_l, Z2Nat.id in N by lia.
  rewrite N by lia. f_equal. lia.
Qed.

Lemma py_in_iff (x : Z) (l : list Z) : py_in x l = true <-> In x l.
Proof.
  unfold py_in. rewrite existsb_exists. split.
  - intros (y & Hy & E). apply Z.eqb_eq in E. subst. exact Hy.
  - intros H. exists x. split; [exact H|apply Z.eqb_refl].
Qed.

Lemma py_index_nth {A} (l : list A) (i : Z) (x : A) :
  0 <= i -> nth_error l (Z.to_nat i) = Some x -> py_index l i = Ok x.
Proof.
  intros Hi N. unfold py_index.
  assert (Hlt : (Z.to_nat i < length l)%nat)
    by (apply nth_error_Some; congruence).
  destruct (i <? 0) eqn:E; [apply Z.ltb_lt in E; lia|].
  destruct (0 <=? i) eqn:E1; [|apply Z.leb_gt in E1; lia].
  destruct (i <? Z.of_nat (length l)) eqn:E2; [|apply Z.ltb_ge in E2; lia].
  cbn [andb]. rewrite N. reflexivity.
Qed.

End Ranges.

Section Constructor.
Context {TL : TensorLib} {W : World}.

Lemma init_state (total_epochs_ rank size warmup_epochs_ : Z)
  (scheduler_ : bool) (device_count : Z) (dist_init : bool)
  (s0 : SkipBatches) :
  __init__ total_epochs_ rank size warmup_epochs_ scheduler_ device_count
           dist_init = Ok s0 ->
  device_count <> 0 /\
  s0 = mkSkipBatches rank size scheduler_ false device_count
         (if device_count >? 1 then
            Some (map (fun i => map (fun j => j + i)
                                    (py_range3 0 size device_count))
                      (py_range device_count))
          else None)
         0 None [] 0 0 None [] 0 0 0 3 warmup_epochs_ total_epochs_
         None None None false None dist_init [].
Proof.
  unfold __init__, py_mod.
  destruct (device_count =? 0) eqn:E; [discriminate|].
  apply Z.eqb_neq in E. intros H. injection H as <-. split; [exact E|].
  reflexivity.
Qed.

(** X7. With more than one device per node the constructor builds one slot
    per device; slot [i] lists the ranks [i], [i + device_count], ... below
    [size + i], so every rank of the communicator lies in exactly one slot,
    the slot of its device [rank % device_count]. *)
Theorem init_slots_partition_ranks
  (total_epochs_ rank size warmup_epochs_ : Z) (scheduler_ : bool)
  (device_count : Z) (dist_init : bool) (s0 : SkipBatches) :
  __init__ total_epochs_ rank size warmup_epochs_ scheduler_ device_count
           dist_init = Ok s0 ->
  1 < device_count ->
  exists slots,
    reduced_ranks s0 = Some slots /\
    length slots = Z.to_nat device_count /\
    forall i, 0 <= i < device_count ->
      exists slot,
        py_index slots i = Ok slot /\
        (forall r, py_in r slot = true
                   <-> i <= r < size + i /\ (r - i) mod device_count = 0) /\
        (forall r, 0 <= r < size ->
                   (py_in r slot = true <-> i = r mod device_count)).
Proof.
  intros Hinit Hg. apply init_state in Hinit. destruct Hinit as [_ ->].
  cbn [reduced_ranks].
  assert (G : (device_count >? 1) = true) by (apply Z.gtb_lt; lia).
  rewrite G. eexists. split; [reflexivity|].
  split; [rewrite length_map; apply py_range_length|].
  intros i Hi.
  exists (map (fun j => j + i) (py_range3 0 size device_count)).
  split.
  { apply py_index_nth; [lia|].
    rewrite nth_error_map, py_range_nth by lia. reflexivity. }
  assert (Mem : forall r,
            py_in r (map (fun j => j + i) (py_range3 0 size device_count))
            = true
            <-> i <= r < size + i /\ (r - i) mod device_count = 0).
  { intros r. rewrite py_in_iff, in_map_iff. unfold py_range3.
    split.
    - intros (j & <- & Hj). apply range_from_spec in Hj; [|lia|lia].
      rewrite Z.sub_0_r in Hj.
      replace (j + i - i) with j by lia. lia.
    - intros [H1 H2]. exists (r - i). split; [lia|].
      apply range_from_spec; [lia|lia|].
      rewrite Z.sub_0_r. lia. }
  split; [exact Mem|].
  intros r Hr. rewrite Mem. split.
  - intros [H1 H2].
    pose proof (Z.div_mod (r - i) device_count ltac:(lia)) as D.
    rewrite H2, Z.add_0_r in D.
    replace r with (i + ((r - i) / device_count) * device_count) by lia.
    rewrite Z_mod_plus_full. symmetry. apply Z.mod_small. lia.
  - intros ->.
    pose proof (Z.mod_pos_bound r device_count ltac:(lia)) as B.
    pose proof (Z.div_mod r device_count ltac:(lia)) as D.
    assert (Hq : 0 <= r / device_count) by (apply Z.div_pos; lia).
    split; [nia|].
    replace (r - r mod device_count)
      with (0 + (r / device_count) * device_count) by lia.
    rewrite Z_mod_plus_full. apply Z.mod_0_l. lia.
Qed.

End Constructor.

(** ** What the two public methods leave alone *)

Section PublicFrames.
Context {TL : TensorLib} {W : World}.
Local Open Scope method_scope.

#[local] Hint Resolve
  preserves_emit preserves_get_module preserves_get_reduced
  preserves_for_named_parameters preserves_stop_local_sync
  preserves_start_local_sync preserves_local_optimizer_step
  preserves_local_torch_param_update : views.

Lemma setup_create_param_dict_n_shapes :
  preserves setup_view _create_param_dict_n_shapes.
Proof. unfold _create_param_dict_n_shapes. view_frame. Qed.

Lemma setup_pop_prev_params : preserves setup_view pop_prev_params.
Proof. unfold pop_prev_params. view_frame. Qed.

#[local] Hint Resolve
  setup_create_param_dict_n_shapes setup_pop_prev_params : views.

Lemma setup_global_send_update c b :
  preserves setup_view (_global_send_update c b).
Proof. unfold _global_send_update. view_frame. Qed.

Lemma setup_update_parameters : preserves setup_view _update_parameters.
Proof. unfold _update_parameters. view_frame. Qed.

#[local] Hint Resolve setup_global_send_update setup_update_parameters : views.

Lemma setup_merge_point r : preserves setup_view (merge_point r).
Proof. unfold merge_point. view_frame. Qed.

#[local] Hint Resolve setup_merge_point : views.

Lemma setup_full_global_sync b : preserves setup_view (_full_global_sync b).
Proof. unfold _full_global_sync. view_frame. Qed.

#[local] Hint Resolve setup_full_global_sync : views.

Lemma setup_step : preserves setup_view step.
Proof. unfold step, incr_current_batch. view_frame. Qed.

Lemma training_epoch_loss_logic loss :
  preserves training_view (epoch_loss_logic loss).
Proof. unfold epoch_loss_logic, emit. view_frame. Qed.

End PublicFrames.

(** ** The controller over a run *)

Section ControllerRuns.
Context {TL : TensorLib} {W : World}.
Local Open Scope method_scope.

(** X8. [epoch_loss_logic] touches nothing but the controller: the model,
    the pending reductions, the batch cursor, the slot markers, the
    parameter map and the setup are as before, and the only collective it
    issues is the one loss reduction, unless the rank is no index of the
    loss vector and the call raises before it. *)
Theorem epoch_loss_logic_keeps_training_state (s : SkipBatches) (loss : Q) :
  let s' := snd (epoch_loss_logic loss s) in
  training_view s' = training_view s /\
  (trace s' = trace s ++ [EvAllreduceLoss] \/
   epoch_loss_logic loss s = (Raise IndexError, s)).
Proof.
  cbv zeta. split; [apply training_epoch_loss_logic|].
  unfold epoch_loss_logic. mrun.
  destruct (py_setitem_cases (repeat 0%Q (Z.to_nat (comm_size s)))
              (comm_rank s) loss) as [Ei|Ei]; rewrite Ei; mrun;
    [right; reflexivity|left].
  match goal with
  | |- trace (snd (?m ?s1)) = _ =>
      assert (F : preserves trace m) by view_frame; rewrite (F s1)
  end.
  reflexivity.
Qed.

(** X9. Every call of [epoch_loss_logic] ends in one of six verdicts, each
    with its skip triple, its [epochs_to_wait] and its loss history (a call
    that leaves the triple at (0, 0, 0) in warm-up or cool-down is both a
    reset and the triple kept); with the rank inside the communicator the
    call is not rejected and the average appended to the history is that of
    the reduced loss vector. *)
Theorem epoch_loss_logic_has_verdict (s : SkipBatches) (loss : Q) :
  exists v avg,
    verdict_holds v s avg (epoch_loss_logic loss s) /\
    (valid_comm s -> v <> Rejected /\ avg = avg_loss s loss).
Proof. apply epoch_loss_logic_cases. Qed.

(** X10. The controller is patient: as long as fewer than [epochs_to_wait]
    averages are on record, the one being appended included, a call of
    [epoch_loss_logic] neither halves nor doubles the skips; it keeps the
    triple, resets it to (0, 0, 0), or, in the literal epoch 4, sets it to
    (4, 1, 1). *)
Theorem controller_is_patient (s : SkipBatches) (loss : Q) :
  Z.of_nat (length (_prev_losses_mean s)) + 1 < epochs_to_wait s ->
  let s' := snd (epoch_loss_logic loss s) in
  skip_state s' = skip_state s \/
  skip_state s' = (0, 0, 0) \/
  (epoch s = 4 /\ skip_state s' = (4, 1, 1)).
Proof.
  intros Hfew. cbv zeta.
  destruct (epoch_loss_logic_cases s loss) as (v & avg & H & _).
  destruct v; unfold verdict_holds in H; cbv zeta in H.
  - rewrite H. left. reflexivity.
  - right. left. apply H.
  - right. right. split; apply H.
  - left. apply H.
  - destruct H as (_ & _ & Hlen & _).
    rewrite length_app in Hlen. cbn [length] in Hlen. lia.
  - destruct H as (_ & _ & Hlen & _).
    rewrite length_app in Hlen. cbn [length] in Hlen. lia.
Qed.

Ltac in_cycle := unfold skip_cycle; cbn [In]; auto 10.

Lemma epoch_loss_logic_skip_cycle (s : SkipBatches) (loss : Q) :
  In (skip_state s) skip_cycle ->
  In (skip_state (snd (epoch_loss_logic loss s))) skip_cycle.
Proof.
  intros Hin.
  destruct (epoch_loss_logic_cases s loss) as (v & avg & H & _).
  destruct v; unfold verdict_holds in H; cbv zeta in H.
  - rewrite H. exact Hin.
  - destruct H as (_ & -> & _). in_cycle.
  - destruct H as (_ & -> & _). in_cycle.
  - destruct H as (-> & _). exact Hin.
  - destruct H as (_ & Hg & _ & -> & _).
    unfold skip_cycle in Hin. cbn [In] in Hin. unfold skip_state in Hin.
    destruct Hin as [E|[E|[E|[E|[E|[]]]]]]; injection E as Eg El Eb;
      rewrite <- ?Eg, <- ?El, <- ?Eb in *; try lia;
      vm_compute; auto 10.
  - destruct H as (_ & _ & _ & -> & _). in_cycle.
Qed.

(** X11. From the constructor on, whatever the training loop calls, the
    skip triple is one of (0, 0, 0), (4, 1, 1), (2, 1, 1), (1, 1, 1) and
    (8, 2, 3), and [epochs_to_wait] is at least 3. *)
Theorem run_skip_cycle
  (total_epochs_ rank size warmup_epochs_ : Z) (scheduler_ : bool)
  (device_count : Z) (dist_init : bool) (s0 : SkipBatches)
  (cs : list call) :
  __init__ total_epochs_ rank size warmup_epochs_ scheduler_ device_count
           dist_init = Ok s0 ->
  In (skip_state (run cs s0)) skip_cycle /\ 3 <= epochs_to_wait (run cs s0).
Proof.
  intros Hinit.
  assert (H0 : In (skip_state s0) skip_cycle /\ 3 <= epochs_to_wait s0).
  { apply init_state in Hinit. destruct Hinit as [_ ->].
    split; [left; reflexivity|cbn; lia]. }
  clear Hinit. revert s0 H0.
  induction cs as [|c cs IH]; intros s [H1 H2]; cbn [run];
    [split; assumption|].
  apply IH. destruct c; cbn [perform]; try (split; assumption).
  - pose proof (step_controller s) as F. unfold controller_view in F.
    injection F as Hg Hl Hb He _ _ _. unfold skip_state.
    rewrite Hg, Hl, Hb, He. split; assumption.
  - split; [apply epoch_loss_logic_skip_cycle; exact H1|].
    apply epoch_loss_logic_epochs_to_wait. exact H2.
Qed.

End ControllerRuns.

(** ** The cursor over a run *)

Section CursorRuns.
Context {TL : TensorLib} {W : World}.
Local Open Scope method_scope.

(** X12. [step] leaves the setup and the controller alone: [last_batch],
    the devices, the slots, the rank, the flags, the skip triple,
    [epochs_to_wait] and the loss history are the same after every call,
    returning or raising. *)
Theorem step_keeps_setup (s : SkipBatches) :
  setup_view (snd (step s)) = setup_view s.
Proof. apply setup_step. Qed.

(** X13. A call of [step] that returns has moved the cursor by one batch:
    on the last batch of the epoch to batch 0 of the next epoch, with slot
    0 current, no previous slot marked and no reduction pending; on any
    other batch to the next batch of the same epoch. *)
Theorem step_returns_on_next_batch (s : SkipBatches) :
  fst (step s) = Ok tt ->
  let s' := snd (step s) in
  if at_last_batch s then
    current_batch s' = 0 /\ epoch s' = epoch s + 1 /\
    _send_mod s' = 0 /\ _send_mod_m1 s' = None /\ _prev_params s' = []
  else
    current_batch s' = current_batch s + 1 /\ epoch s' = epoch s.
Proof.
  intros Hok. cbv zeta.
  destruct (step_moves s) as (mv & H).
  destruct mv; unfold move_holds, cursor in H; cbv zeta in H.
  - destruct H as [H _]. rewrite Hok in H. discriminate.
  - destruct H as (L & _ & E). rewrite L. injection E as -> -> _ _.
    split; reflexivity.
  - destruct H as (_ & L & _ & E). rewrite L. injection E as -> -> _ _.
    split; reflexivity.
  - destruct H as (_ & L & _ & E). rewrite L. injection E as -> -> _ _.
    split; reflexivity.
  - destruct H as (_ & L & Q & E). rewrite L. injection E as -> -> -> ->.
    repeat split; try reflexivity. exact Q.
Qed.

(** X14. A call of [step] that raises has not started a new epoch and has
    not changed the slot markers; the cursor is on the same batch or on
    the next one. *)
Theorem step_failure_keeps_epoch (s : SkipBatches) (e : exn) :
  fst (step s) = Raise e ->
  let s' := snd (step s) in
  epoch s' = epoch s /\ _send_mod s' = _send_mod s /\
  _send_mod_m1 s' = _send_mod_m1 s /\
  (current_batch s' = current_batch s \/
   current_batch s' = current_batch s + 1).
Proof.
  intros Herr. cbv zeta.
  destruct (step_moves s) as (mv & H).
  destruct mv; unfold move_holds, cursor in H; cbv zeta in H.
  - destruct H as [_ E]. injection E as -> -> -> ->.
    repeat split; try reflexivity. left; reflexivity.
  - destruct H as (_ & _ & E). injection E as -> -> -> ->.
    repeat split; try reflexivity. right; reflexivity.
  - destruct H as (H & _). rewrite Herr in H. discriminate.
  - destruct H as (H & _). rewrite Herr in H. discriminate.
  - destruct H as (H & _). rewrite Herr in H. discriminate.
Qed.

Lemma next_send_mod_range (s : SkipBatches) :
  1 < loc_gpus s -> 0 <= _send_mod s < loc_gpus s ->
  0 <= next_send_mod s < loc_gpus s /\ next_send_mod s <> _send_mod s.
Proof.
  intros Hg Hs. unfold next_send_mod.
  destruct (_send_mod s <=? loc_gpus s - 2) eqn:E;
    [apply Z.leb_le in E|apply Z.leb_gt in E]; lia.
Qed.

Lemma perform_slots_in_range (g : Z) (c : call) (s : SkipBatches) :
  1 < g -> slots_in_range g s -> slots_in_range g (snd (perform c s)).
Proof.
  intros Hg (Hl & Hr & Hs & Hm). destruct c; cbn [perform].
  - exact (conj Hl (conj Hr (conj Hs Hm))).
  - exact (conj Hl (conj Hr (conj Hs Hm))).
  - exact (conj Hl (conj Hr (conj Hs Hm))).
  - pose proof (setup_step s) as F. unfold setup_view in F.
    injection F as _ Fg Fr _ _ _ _ _ _.
    unfold slots_in_range. rewrite Fg, Fr.
    split; [exact Hl|]. split; [exact Hr|].
    destruct (next_send_mod_range s) as [N1 N2]; [lia|lia|].
    destruct (step_moves s) as (mv & Hmv).
    destruct mv; unfold move_holds, cursor in Hmv; cbv zeta in Hmv.
    + destruct Hmv as [_ E]. injection E as _ _ -> ->. split; assumption.
    + destruct Hmv as (_ & _ & E). injection E as _ _ -> ->. split; assumption.
    + destruct Hmv as (_ & _ & _ & E). injection E as _ _ -> ->.
      split; [lia|]. intros m Em. injection Em as <-. split; [lia|].
      intros X. apply N2. symmetry. exact X.
    + destruct Hmv as (_ & _ & _ & E). injection E as _ _ -> ->.
      split; [lia|]. intros m Em. discriminate.
    + destruct Hmv as (_ & _ & _ & E). injection E as _ _ -> ->.
      split; [lia|]. intros m Em. discriminate.
  - pose proof (training_epoch_loss_logic loss s) as F.
    unfold training_view in F.
    injection F as _ _ _ _ _ Fs Fm1 _ _ _ _ _ _ Fg Fr _ _ _ _ _.
    unfold slots_in_range. rewrite Fg, Fr, Fs, Fm1.
    exact (conj Hl (conj Hr (conj Hs Hm))).
Qed.

(** X15. With more than one device per node, the slot markers stay inside
    the slots in every run: [_send_mod] is a slot index, a marked previous
    slot is a slot index other than the current one, and the lookup
    [self.reduced_ranks[self._send_mod]] finds its slot. *)
Theorem run_slots_in_range
  (total_epochs_ rank size warmup_epochs_ : Z) (scheduler_ : bool)
  (device_count : Z) (dist_init : bool) (s0 : SkipBatches)
  (cs : list call) :
  __init__ total_epochs_ rank size warmup_epochs_ scheduler_ device_count
           dist_init = Ok s0 ->
  1 < device_count ->
  slots_in_range device_count (run cs s0) /\
  exists slots ranks,
    reduced_ranks (run cs s0) = Some slots /\
    py_index slots (_send_mod (run cs s0)) = Ok ranks.
Proof.
  intros Hinit Hg.
  assert (H0 : slots_in_range device_count s0).
  { apply init_state in Hinit. destruct Hinit as [_ ->].
    unfold slots_in_range. cbn [loc_gpus reduced_ranks _send_mod _send_mod_m1].
    assert (G : (device_count >? 1) = true) by (apply Z.gtb_lt; lia).
    rewrite G. split; [reflexivity|]. split.
    - eexists. split; [reflexivity|].
      rewrite length_map. apply py_range_length.
    - split; [lia|discriminate]. }
  assert (Hrun : slots_in_range device_count (run cs s0)).
  { clear Hinit. revert s0 H0.
    induction cs as [|c cs IH]; intros s H; cbn [run]; [exact H|].
    apply IH. apply perform_slots_in_range; assumption. }
  split; [exact Hrun|].
  destruct Hrun as (_ & (slots & Hs & Hlen) & Hr & _).
  destruct (nth_error slots (Z.to_nat (_send_mod (run cs s0))))
    as [ranks|] eqn:N.
  - exists slots, ranks. split; [exact Hs|].
    apply py_index_nth; [lia|exact N].
  - apply nth_error_None in N. lia.
Qed.

Lemma local_optimizer_step_returns (s : SkipBatches) :
  fst (local_optimizer_step s) = Ok tt.
Proof.
  unfold local_optimizer_step. mrun.
  destruct (module s) as [mdl|] eqn:Hm; [|reflexivity].
  erewrite run_for_named_parameters with
    (g := fun name param =>
            with_data param
              (mapi (optim_elem (length (trace s)) name) (t_data param)));
    [reflexivity|fields; exact Hm|].
  apply Forall_forall. intros [name param] _. reflexivity.
Qed.

Lemma step_stuck (s : SkipBatches) :
  stuck_at_start s ->
  fst (step s)
  = Raise (match last_batch s with
           | Some _ => AttributeError
           | None => TypeError
           end) /\
  position_view (snd (step s)) = position_view s.
Proof.
  intros (Hr & He & Hb & Hk). unfold skip_state in Hk.
  injection Hk as Hg Hl Hw.
  unfold step.
  pose proof (local_optimizer_step_returns s) as R.
  pose proof (position_local_optimizer_step s) as F.
  destruct (local_optimizer_step s) as [[[]|e] s1] eqn:Hrun;
    cbn [fst snd] in R, F; [|discriminate].
  erewrite bind_run by exact Hrun.
  destruct (position_view_inv F)
    as (_ & (Fl & _ & Fr & _) & (Fg & Fls & _)).
  mrun. rewrite Fg, Fls, Hg, Hl. cbn [Z.gtb Z.compare]. mrun.
  rewrite Fl. destruct (last_batch s) as [lb|]; mrun;
    [|split; [reflexivity|exact F]].
  change (0 =? 0) with true. rewrite orb_true_r. cbv iota.
  unfold _full_global_sync, get_reduced. mrun.
  rewrite Fr, Hr. mrun. split; [reflexivity|exact F].
Qed.

Lemma perform_stuck_at_start (c : call) (s : SkipBatches) :
  stuck_at_start s -> stuck_at_start (snd (perform c s)).
Proof.
  intros Hs. pose proof Hs as (Hr & He & Hb & Hk).
  destruct c; cbn [perform].
  - exact Hs.
  - exact Hs.
  - exact Hs.
  - destruct (step_stuck Hs) as [_ F].
    destruct (position_view_inv F)
      as ((Fb & Fe & _ & _) & (_ & _ & Fr & _) & (Fg & Fl & Fw)).
    unfold stuck_at_start, skip_state. rewrite Fb, Fe, Fr, Fg, Fl, Fw.
    exact Hs.
  - pose proof (training_epoch_loss_logic loss s) as F.
    unfold training_view in F.
    injection F as _ _ Fb _ Fe _ _ _ _ _ _ _ _ _ Fr _ _ _ _ _.
    unfold stuck_at_start. rewrite Fb, Fe, Fr.
    repeat split; try assumption.
    unfold skip_state in Hk. injection Hk as Hg Hl Hw.
    destruct (epoch_loss_logic_cases s loss) as (v & avg & H & _).
    destruct v; unfold verdict_holds in H; cbv zeta in H.
    + rewrite H. unfold skip_state. cbn [snd]. congruence.
    + apply H.
    + destruct H as (H & _). lia.
    + destruct H as (-> & _). unfold skip_state. congruence.
    + destruct H as (_ & H & _). lia.
    + destruct H as (_ & H & _). lia.
Qed.

(** X16. With a single device per node the constructor builds no slots,
    and no call of [step] ever returns: in every run the next [step]
    raises [AttributeError] at [self.reduced_comms] ([TypeError] while
    [last_batch] is not set), and the instance is still on batch 0 of
    epoch 0. *)
Theorem single_device_never_steps
  (total_epochs_ rank size warmup_epochs_ : Z) (scheduler_ : bool)
  (device_count : Z) (dist_init : bool) (s0 : SkipBatches)
  (cs : list call) :
  __init__ total_epochs_ rank size warmup_epochs_ scheduler_ device_count
           dist_init = Ok s0 ->
  device_count = 1 ->
  let s := run cs s0 in
  fst (step s)
  = Raise (match last_batch s with
           | Some _ => AttributeError
           | None => TypeError
           end) /\
  epoch s = 0 /\ current_batch s = 0 /\ reduced_ranks s = None.
Proof.
  intros Hinit Hg. cbv zeta.
  assert (H0 : stuck_at_start s0).
  { apply init_state in Hinit. destruct Hinit as [_ ->]. subst device_count.
    repeat split. }
  assert (Hrun : stuck_at_start (run cs s0)).
  { clear Hinit. revert s0 H0.
    induction cs as [|c cs IH]; intros s H; cbn [run]; [exact H|].
    apply IH. apply perform_stuck_at_start. exact H. }
  destruct (step_stuck Hrun) as [E _].
  destruct Hrun as (Hr & He & Hb & _).
  repeat split; assumption.
Qed.

End CursorRuns.

Section ParameterMapFacts.
Context {TL : TensorLib} {W : World}.
Local Open Scope method_scope.

(** X18. On an instance that has not built its map, the map gives the
    parameters consecutive ranges in the order of the model: the range of
    a parameter starts at the element count of all the parameters ahead of
    it, trainable or not, and is as long as the parameter; the send buffer
    is sized for all of them. *)
Theorem param_map_ranges_are_consecutive
  (s : SkipBatches) (mdl : Module_) (pre post : list (string * tensor))
  (name : string) (param : tensor) :
  shapes s = None ->
  _param_send_buffer_shape s = None ->
  module s = Some mdl ->
  NoDup (map fst (named_parameters mdl)) ->
  named_parameters mdl = pre ++ (name, param) :: post ->
  exists pd sh s1,
    _create_param_dict_n_shapes s = (Ok (pd, sh), s1) /\
    dict_get sh name
    = Ok (mkEntry (t_shape param) (total_numel pre)
                  (total_numel pre + numel param) (t_dtype param)) /\
    dict_get pd name = Ok (length pre) /\
    _param_send_buffer_shape s1
    = Some (total_numel pre + numel param + total_numel post)%nat.
Proof.
  intros Hsh Hbuf Hm Hnd Hps.
  pose proof (create_param_dict_n_shapes_fresh s Hsh Hbuf Hm Hnd) as Run.
  cbv zeta in Run. rewrite Hps in Run, Hnd.
  do 3 eexists. split; [exact Run|].
  split; [|split].
  - rewrite (dict_get_shapes_of_at pre name param post 0 Hnd). reflexivity.
  - assert (G : forall i,
              dict_get (param_dict_of (pre ++ (name, param) :: post) i) name
              = Ok (i + length pre)%nat); [|apply (G 0%nat)].
    clear Run Hps. revert Hnd.
    induction pre as [|[n p] pre IH]; intros Hnd i;
      cbn [app param_dict_of dict_get length].
    + rewrite String.eqb_refl. f_equal. lia.
    + cbn [app map fst] in Hnd. inversion Hnd as [|? ? Hnotin Hnd']; subst.
      destruct (String.eqb name n) eqn:E.
      * apply String.eqb_eq in E. subst n. exfalso. apply Hnotin.
        rewrite map_app. apply in_or_app. right. left. reflexivity.
      * rewrite IH by exact Hnd'. f_equal. lia.
  - fields. f_equal. clear.
    induction pre as [|[n p] pre IH]; cbn [app total_numel]; lia.
Qed.

End ParameterMapFacts.

(** ** Packing *)

Section Packing.
Context {TL : TensorLib} {W : World}.
Local Open Scope method_scope.

Lemma packed_numel (ps : list (string * tensor)) :
  total_numel (packed_params ps) = trainable_numel ps.
Proof.
  unfold packed_params.
  induction ps as [|[name param] ps IH]; cbn [filter trainable_numel snd];
    [reflexivity|].
  destruct (requires_grad param) eqn:E; cbn [total_numel];
    rewrite IH; reflexivity.
Qed.

Lemma trainable_le_total (ps : list (string * tensor)) :
  (trainable_numel ps <= total_numel ps)%nat.
Proof.
  induction ps as [|[name param] ps IH]; cbn [trainable_numel total_numel];
    [lia|].
  destruct (requires_grad param); lia.
Qed.

(** The loop of [__pack_data] over the parameters [qs] that follow [pre] in
    the model: the trainable ones are laid out one after the other from
    [st], the others are passed over. *)
Lemma pack_loop_layout qs :
  forall pre buf done rest,
    Forall (fun np => wf_tensor (snd np)) qs ->
    t_dtype buf = float32 ->
    t_data buf = done ++ rest ->
    (trainable_numel qs <= length rest)%nat ->
    exists buf',
      pack_loop (pre ++ qs) (param_dict_of qs (length pre)) buf false
                (length done) = Ok buf' /\
      t_dtype buf' = float32 /\
      t_data buf'
      = done ++ flat_data (packed_params qs)
        ++ skipn (trainable_numel qs) rest.
Proof.
  induction qs as [|[name param] qs IH];
    intros pre buf done rest Hall Hdt Hdata Hfit.
  - exists buf.
    cbn [param_dict_of pack_loop packed_params filter flat_data map concat
         trainable_numel skipn app].
    repeat split; assumption.
  - inversion Hall as [|? ? Hwf Hall']; subst.
    cbn [snd] in Hwf. unfold wf_tensor in Hwf.
    cbn [trainable_numel] in Hfit.
    cbn [param_dict_of pack_loop].
    rewrite nth_error_app2 by lia. rewrite Nat.sub_diag. cbn [nth_error].
    unfold packed_params. cbn [filter snd trainable_numel].
    fold (packed_params qs).
    destruct (requires_grad param) eqn:Hrg.
    + assert (Hassign :
        slice_assign buf (length done) (length done + numel param)
                     (t_data param)
        = Ok (with_data buf
                ((done ++ map (to_dtype float32) (t_data param))
                 ++ skipn (numel param) rest))).
      { unfold slice_assign. rewrite Hdata, Hdt, length_app.
        replace (Nat.min (length done) (length done + length rest))
          with (length done) by lia.
        replace (Nat.max (length done)
                   (Nat.min (length done + numel param)
                            (length done + length rest)))
          with (length done + numel param)%nat by lia.
        replace (length done + numel param - length done)%nat
          with (numel param) by lia.
        rewrite Hwf, Nat.eqb_refl.
        rewrite firstn_app, firstn_all, Nat.sub_diag. cbn [firstn].
        rewrite app_nil_r.
        rewrite skipn_app, skipn_all2 by lia.
        replace (length done + numel param - length done)%nat
          with (numel param) by lia.
        cbn [app]. rewrite <- app_assoc. reflexivity. }
      rewrite Hassign.
      destruct (IH (pre ++ [(name, param)])
                   (with_data buf
                      ((done ++ map (to_dtype float32) (t_data param))
                       ++ skipn (numel param) rest))
                   (done ++ map (to_dtype float32) (t_data param))
                   (skipn (numel param) rest))
        as (buf' & Hrun & Hdt' & Hdata').
      * exact Hall'.
      * exact Hdt.
      * reflexivity.
      * rewrite length_skipn. lia.
      * exists buf'.
        rewrite <- app_assoc in Hrun. cbn [app] in Hrun.
        rewrite !length_app, length_map, Hwf in Hrun. cbn [length] in Hrun.
        replace (length pre + 1)%nat with (S (length pre)) in Hrun by lia.
        split; [exact Hrun|]. split; [exact Hdt'|].
        rewrite Hdata'. unfold flat_data. cbn [map concat snd].
        rewrite skipn_skipn, <- !app_assoc.
        replace (trainable_numel qs + numel param)%nat
          with (numel param + trainable_numel qs)%nat by lia.
        reflexivity.
    + destruct (IH (pre ++ [(name, param)]) buf done rest)
        as (buf' & Hrun & Hdt' & Hdata'); try assumption.
      exists buf'.
      rewrite <- app_assoc in Hrun. cbn [app] in Hrun.
      rewrite !length_app in Hrun. cbn [length] in Hrun.
      replace (length pre + 1)%nat with (S (length pre)) in Hrun by lia.
      split; [exact Hrun|]. split; [exact Hdt'|].
      rewrite Hdata'. reflexivity.
Qed.

(** X19. [__pack_data] without downcast, into the buffer and through the
    index map of [_create_param_dict_n_shapes], returns for every model:
    the buffer holds the values of the trainable parameters one after the
    other in the order of the model, starting at element 0, followed by
    zeros for the element count of the frozen ones; its length stays that
    of all the parameters. *)
Theorem pack_data_lays_out_trainable_parameters
  (ps : list (string * tensor)) :
  Forall (fun np => wf_tensor (snd np)) ps ->
  exists buf,
    pack_model ps = Ok buf /\
    t_data buf
    = flat_data (packed_params ps)
      ++ repeat ezero (total_numel ps - trainable_numel ps) /\
    length (t_data buf) = total_numel ps.
Proof.
  intros Hall. unfold pack_model, __pack_data.
  pose proof (trainable_le_total ps) as Hle.
  destruct (@pack_loop_layout ps [] (torch_zeros (total_numel ps) None)
              [] (repeat ezero (total_numel ps)) Hall)
    as (buf & Hrun & _ & Hdata); try reflexivity.
  - rewrite repeat_length. exact Hle.
  - exists buf. split; [exact Hrun|].
    cbn [app] in Hdata.
    assert (Hskip : skipn (trainable_numel ps) (repeat ezero (total_numel ps))
                    = repeat ezero (total_numel ps - trainable_numel ps)).
    { replace (total_numel ps)
        with (trainable_numel ps + (total_numel ps - trainable_numel ps))%nat
        at 1 by lia.
      rewrite repeat_app, skipn_app, repeat_length, Nat.sub_diag.
      rewrite skipn_all2 by (rewrite repeat_length; lia).
      reflexivity. }
    rewrite Hskip in Hdata. split; [exact Hdata|].
    apply pack_data_length in Hrun.
    rewrite Hrun. cbn [torch_zeros t_data]. apply repeat_length.
Qed.

(** X20. When every parameter requires a gradient and has at least one
    dimension (with unique names, tensors that hold as many elements as
    their shape says, and conversions that lose nothing), packing without
    downcast and unpacking through the map restores every parameter,
    zero-sized ones included. *)
Theorem pack_unpack_roundtrip (ps : list (string * tensor)) :
  NoDup (map fst ps) ->
  Forall trainable ps ->
  sliceable ps ->
  Forall (fun np => lossless (snd np)) ps ->
  exists buf,
    pack_model ps = Ok buf /\
    t_data buf = flat_data ps /\
    unpack_model ps buf = (Ok tt, ps).
Proof.
  intros Hnd Hall Hdim Hloss.
  destruct (roundtrip_all_trainable Hnd Hall Hdim Hloss) as (buf & Hp & Hu).
  destruct (pack_model_all_trainable Hall) as (buf' & Hp' & Hd).
  exists buf. split; [exact Hp|]. split; [|exact Hu].
  rewrite Hp in Hp'. injection Hp' as <-. exact Hd.
Qed.

(** X21. On an instance that has not built its map, a call of
    [_global_send_update] that returns has left the model alone and queued
    exactly one record behind the pending ones: it carries the
    [batches_to_wait] it was called with, the map of the model, a buffer
    sized for all the parameters, and it fits the model as the merges
    require. *)
Theorem global_send_update_queues_fitting_record
  (c b : Z) (s s' : SkipBatches) (mdl : Module_) :
  shapes s = None ->
  _param_send_buffer_shape s = None ->
  module s = Some mdl ->
  NoDup (map fst (named_parameters mdl)) ->
  _global_send_update c b s = (Ok tt, s') ->
  module s' = Some mdl /\
  exists rec, _prev_params s' = _prev_params s ++ [rec] /\
              p_batches_to_wait rec = b /\
              p_shapes rec = shapes_of (named_parameters mdl) 0 /\
              length (t_data (p_params rec))
              = total_numel (named_parameters mdl) /\
              fits (named_parameters mdl) rec.
Proof. apply global_send_update_fits. Qed.

End Packing.

Section LocalSync.
Context {TL : TensorLib} {W : World}.
Local Open Scope method_scope.

(** X22. The two switches of the local synchronization only ever change
    the flag [require_backward_grad_sync] of a torch DDP model: on such a
    model [_stop_local_sync] leaves the flag off and [_start_local_sync]
    leaves it on, whatever it was, so of two calls the later one wins; on
    any other model both do nothing; without a model both raise
    [AttributeError]. *)
Theorem local_sync_switches (s : SkipBatches) :
  match module s with
  | None =>
      _stop_local_sync s = (Raise AttributeError, s) /\
      _start_local_sync s = (Raise AttributeError, s)
  | Some m =>
      let flagged b := set_module (Some (mkModule true b (named_parameters m)))
                                  s in
      if is_tDDP m then
        _stop_local_sync s
        = (Ok tt, if require_backward_grad_sync m then flagged false else s) /\
        _start_local_sync s
        = (Ok tt, if require_backward_grad_sync m then s else flagged true) /\
        sync_flag (snd ((_stop_local_sync ;; _start_local_sync) s))
        = Some true /\
        sync_flag (snd ((_start_local_sync ;; _stop_local_sync) s))
        = Some false
      else
        _stop_local_sync s = (Ok tt, s) /\ _start_local_sync s = (Ok tt, s)
  end.
Proof.
  unfold _stop_local_sync, _start_local_sync, get_module, set_sync_flag,
    sync_flag.
  destruct (module s) as [[ddp flag ps]|] eqn:Hm; mrun; rewrite ?Hm; mrun;
    [|split; reflexivity].
  cbn [is_tDDP require_backward_grad_sync named_parameters].
  destruct ddp; cbn [negb orb]; [|split; reflexivity].
  destruct flag; cbn [negb]; mrun; rewrite ?Hm; mrun;
    cbn [is_tDDP require_backward_grad_sync named_parameters negb orb];
    mrun; rewrite ?Hm; mrun;
    cbn [is_tDDP require_backward_grad_sync named_parameters negb orb];
    mrun; repeat split; reflexivity.
Qed.

(** X23. With a model set, [_local_torch_param_update] is a no-op when
    there is no holder or [torch.distributed] is not initialized.
    Otherwise, with a holder outside the process group and a trainable
    parameter in the model, the first broadcast raises and the instance is
    as it was; with a holder inside the group (or nothing to broadcast) it
    returns, having issued one broadcast per trainable parameter in the
    order of the model and left in every parameter what the broadcast put
    there: names, shapes, dtypes and element counts stay, and a frozen
    parameter keeps its values. *)
Theorem local_torch_param_update_broadcasts
  (s : SkipBatches) (mdl : Module_) (h : option Z) :
  module s = Some mdl ->
  let out := _local_torch_param_update h s in
  let ps := named_parameters mdl in
  match h with
  | Some src =>
      if dist_initialized s then
        if match trainable_names ps with
           | [] => true
           | _ :: _ => in_torch_group src
           end
        then
          fst out = Ok tt /\
          module (snd out)
          = Some (with_parameters mdl
                    (map_params (broadcast (length (trace s)) src) ps)) /\
          trace (snd out)
          = trace s ++ map (EvBroadcast src) (trainable_names ps) /\
          Forall (fun np =>
                    let p' := broadcast (length (trace s)) src (fst np)
                                        (snd np) in
                    t_shape p' = t_shape (snd np) /\
                    t_dtype p' = t_dtype (snd np) /\
                    length (t_data p') = length (t_data (snd np)) /\
                    (requires_grad (snd np) = false -> p' = snd np)) ps
        else out = (Raise RuntimeError, s)
      else out = (Ok tt, s)
  | None => out = (Ok tt, s)
  end.
Proof.
  intros Hm. cbv zeta. unfold _local_torch_param_update, get_module.
  destruct h as [src|]; [|reflexivity].
  mrun. destruct (dist_initialized s); [|reflexivity].
  mrun. rewrite Hm. mrun.
  assert (Hreach :
    forall names : list string,
      bind (match names with
            | [] => ret tt
            | _ :: _ => if in_torch_group src then ret tt
                        else raise RuntimeError
            end)
           (fun _ : unit =>
              t <- tick ;;
              emit (map (EvBroadcast src)
                        (trainable_names (named_parameters mdl))) ;;
              for_named_parameters
                (fun name param =>
                   if requires_grad param
                   then (Ok tt, with_data param
                                  (mapi (bcast_elem t src name)
                                        (t_data param)))
                   else (Ok tt, param))) s
      = if match names with [] => true | _ :: _ => in_torch_group src end
        then (Ok tt,
              set_module
                (Some (with_parameters mdl
                         (map_params (broadcast (length (trace s)) src)
                                     (named_parameters mdl))))
                (set_trace
                   (trace s ++ map (EvBroadcast src)
                                   (trainable_names (named_parameters mdl)))
                   s))
        else (Raise RuntimeError, s)).
  { intros names.
    assert (Hgo :
      (t <- tick ;;
       emit (map (EvBroadcast src)
                 (trainable_names (named_parameters mdl))) ;;
       for_named_parameters
         (fun name param =>
            if requires_grad param
            then (Ok tt, with_data param
                           (mapi (bcast_elem t src name) (t_data param)))
            else (Ok tt, param))) s
      = (Ok tt,
         set_module
           (Some (with_parameters mdl
                    (map_params (broadcast (length (trace s)) src)
                                (named_parameters mdl))))
           (set_trace
              (trace s ++ map (EvBroadcast src)
                              (trainable_names (named_parameters mdl)))
              s))).
    { mrun.
      erewrite run_for_named_parameters with
        (g := broadcast (length (trace s)) src);
        [reflexivity|fields; exact Hm|].
      apply Forall_forall. intros [name param] _. cbn [fst snd].
      unfold broadcast. destruct (requires_grad param); reflexivity. }
    destruct names as [|name names]; [rewrite bind_ret; exact Hgo|].
    destruct (in_torch_group src);
      [rewrite bind_ret; exact Hgo|rewrite bind_raise; reflexivity]. }
  rewrite Hreach.
  destruct (match trainable_names (named_parameters mdl) with
            | [] => true
            | _ :: _ => in_torch_group src
            end); [|reflexivity].
  fields. split; [reflexivity|]. split; [reflexivity|].
  split; [reflexivity|].
  apply Forall_forall. intros [name param] _. cbn [fst snd].
  unfold broadcast. destruct (requires_grad param) eqn:E.
  - cbn [with_data t_shape t_dtype t_data].
    repeat split; [apply mapi_length|discriminate].
  - repeat split.
Qed.

End LocalSync.

Section SynchronousSteps.
Context {TL : TensorLib} {W : World}.
Local Open Scope method_scope.

(** X24. In fully synchronous mode nothing is left pending: with no
    positive [global_skip] and [batches_to_wait = 0], every call of [step]
    that returns has merged the reduction it sent, so the queue of pending
    reductions is empty and no previous slot is marked. *)
Theorem synchronous_step_leaves_nothing_pending (s : SkipBatches) :
  global_skip s <= 0 -> batches_to_wait s = 0 ->
  fst (step s) = Ok tt ->
  _prev_params (snd (step s)) = [] /\ _send_mod_m1 (snd (step s)) = None.
Proof.
  intros Hg Hb Hok.
  destruct (step_moves s) as (mv & H).
  destruct mv; unfold move_holds, cursor in H; cbv zeta in H.
  - destruct H as [H _]. rewrite Hok in H. discriminate.
  - destruct H as (_ & H & _). lia.
  - destruct H as (_ & _ & H & _). contradiction.
  - destruct H as (_ & _ & Q & E). injection E as _ _ _ ->.
    split; [exact Q|reflexivity].
  - destruct H as (_ & _ & Q & E). injection E as _ _ _ ->.
    split; [exact Q|reflexivity].
Qed.

End SynchronousSteps.

(** ** The properties of the rest at concrete inputs *)

Ltac distinct_names :=
  repeat first
    [ apply NoDup_nil
    | apply NoDup_cons; [cbn; intuition discriminate|] ].

Section ConcreteRest.
#[local] Existing Instance QTensorLib.
#[local] Existing Instance LoneWorld.
Local Open Scope string_scope.

Lemma addCounter_sums_counts_witness :
  exists c,
    addCounter [("a", 1); ("b", 2)] [("b", 3); ("c", 4)] = Ok c /\
    count_of c "a" = 1 /\ count_of c "b" = 5 /\ count_of c "c" = 4.
Proof.
  destruct (@addCounter_sums_counts [("a", 1); ("b", 2)]
              [("b", 3); ("c", 4)]) as (c & Hc & Hk).
  - unfold valid_dict. distinct_names.
  - exists c. split; [exact Hc|]. rewrite !Hk. repeat split.
Defined.

Lemma addCounter_keeps_key_order_witness :
  exists c,
    addCounter [("a", 1); ("b", 2)] [("c", 4); ("b", -2)] = Ok c /\
    map fst c = ["a"; "b"; "c"].
Proof.
  destruct (@addCounter_keeps_key_order [("a", 1); ("b", 2)]
              [("c", 4); ("b", -2)]) as (c & Hc & Hk).
  - unfold valid_dict. distinct_names.
  - exists c. split; [exact Hc|]. rewrite Hk. reflexivity.
Defined.

Lemma addCounter_commutes_on_counts_witness :
  exists ab ba,
    addCounter [("a", 1); ("b", 2)] [("b", 3); ("c", 4)] = Ok ab /\
    addCounter [("b", 3); ("c", 4)] [("a", 1); ("b", 2)] = Ok ba /\
    count_of ab "b" = count_of ba "b".
Proof.
  destruct (@addCounter_commutes_on_counts [("a", 1); ("b", 2)]
              [("b", 3); ("c", 4)]) as (ab & ba & Hab & Hba & Hk).
  - unfold valid_dict. distinct_names.
  - unfold valid_dict. distinct_names.
  - exists ab, ba. split; [exact Hab|]. split; [exact Hba|]. apply Hk.
Defined.

Lemma dpo_steps_taken_witness :
  DPO.steps_taken
    (DPO.torch_optimizer
       (DPO.run [DPO.Step; DPO.ZeroGrad; DPO.Step]
          (DPO.mkDataParallelOptimizer (DPO.mkTorchOptimizer [[0; 1; 2]%nat] 0 0 [])
                                   true false 0)))
  = 2%nat.
Proof.
  exact (proj1 (@dpo_steps_taken (DPO.mkTorchOptimizer [[0; 1; 2]%nat] 0 0 [])
                  true
                  (DPO.mkDataParallelOptimizer
                     (DPO.mkTorchOptimizer [[0; 1; 2]%nat] 0 0 []) true false 0)
                  [DPO.Step; DPO.ZeroGrad; DPO.Step] eq_refl)).
Defined.

Lemma dpo_zero_grad_restores_reference_witness :
  DPO.ref_items
    (DPO.run [DPO.Step; DPO.ZeroGrad; DPO.ChangeInPlace [7%nat]; DPO.ZeroGrad]
       (DPO.mkDataParallelOptimizer (DPO.mkTorchOptimizer [[0; 1; 2]%nat] 0 0 [])
                                false false 0))
  = Some [0; 1; 2]%nat.
Proof.
  exact (proj1 (@dpo_zero_grad_restores_reference
                  (DPO.mkTorchOptimizer [[0; 1; 2]%nat] 0 0 []) (DPO.PyBool false)
                  (DPO.mkDataParallelOptimizer
                     (DPO.mkTorchOptimizer [[0; 1; 2]%nat] 0 0 []) false false 0)
                  [0; 1; 2]%nat
                  [DPO.Step; DPO.ZeroGrad; DPO.ChangeInPlace [7%nat]; DPO.ZeroGrad]
                  eq_refl eq_refl eq_refl)).
Defined.

Lemma init_slots_partition_ranks_witness :
  exists slots,
    reduced_ranks demo_init = Some slots /\ length slots = 2%nat /\
    exists slot, py_index slots 1 = Ok slot /\
                 (py_in 3 slot = true <-> 1 = 3 mod 2).
Proof.
  assert (Hg : 1 < 2) by lia.
  destruct (@init_slots_partition_ranks QTensorLib
              10 0 4 2 false 2 false demo_init demo_init_constructed Hg)
    as (slots & Hs & Hl & Hi).
  exists slots. split; [exact Hs|]. split; [exact Hl|].
  destruct (Hi 1) as (slot & Hslot & _ & Hpart); [lia|].
  exists slot. split; [exact Hslot|]. apply Hpart. lia.
Defined.

Lemma controller_is_patient_witness :
  skip_state
    (snd (epoch_loss_logic (1#2) (set_prev_losses_mean [1#8] demo_steady)))
  = (4, 1, 1).
Proof.
  destruct (@controller_is_patient QTensorLib LoneWorld
              (set_prev_losses_mean [1#8] demo_steady) (1#2))
    as [H|[H|[H _]]].
  - cbn. lia.
  - exact H.
  - vm_compute in H. discriminate H.
  - vm_compute in H. discriminate H.
Defined.

Lemma run_skip_cycle_witness :
  In (skip_state
        (run [CallSetModel demo_model; SetLastBatch 0; CallStep;
              CallEpochLossLogic (1#2); CallStep] demo_init))
     skip_cycle.
Proof.
  exact (proj1 (@run_skip_cycle QTensorLib LoneWorld
                  10 0 4 2 false 2 false demo_init
                  [CallSetModel demo_model; SetLastBatch 0; CallStep;
                   CallEpochLossLogic (1#2); CallStep]
                  demo_init_constructed)).
Defined.

Lemma step_returns_on_next_batch_witness :
  current_batch (snd (step demo_ready)) = current_batch demo_ready + 1 /\
  epoch (snd (step demo_ready)) = epoch demo_ready.
Proof.
  assert (Hok : fst (step demo_ready) = Ok tt) by (vm_compute; reflexivity).
  exact (@step_returns_on_next_batch QTensorLib LoneWorld demo_ready Hok).
Defined.

Lemma step_failure_keeps_epoch_witness :
  epoch (snd (step demo_init)) = epoch demo_init /\
  _send_mod (snd (step demo_init)) = _send_mod demo_init.
Proof.
  assert (Herr : fst (step demo_init) = Raise TypeError)
    by (vm_compute; reflexivity).
  destruct (@step_failure_keeps_epoch QTensorLib LoneWorld demo_init
              TypeError Herr) as (He & Hs & _).
  split; [exact He|exact Hs].
Defined.

Lemma run_slots_in_range_witness :
  slots_in_range 2
    (run [CallSetModel demo_model; SetLastBatch 9; CallStep; CallStep]
         demo_init).
Proof.
  assert (Hg : 1 < 2) by lia.
  exact (proj1 (@run_slots_in_range QTensorLib LoneWorld
                  10 0 4 2 false 2 false demo_init
                  [CallSetModel demo_model; SetLastBatch 9; CallStep;
                   CallStep]
                  demo_init_constructed Hg)).
Defined.

Lemma single_device_never_steps_witness :
  epoch
    (run [CallSetModel demo_model; SetLastBatch 9; CallStep; CallStep]
         (mkSkipBatches 0 4 false false 1 None 0 None [] 0 0 None [] 0 0 0 3
                        2 10 None None None false None false []))
  = 0.
Proof.
  destruct (@single_device_never_steps QTensorLib LoneWorld
              10 0 4 2 false 1 false
              (mkSkipBatches 0 4 false false 1 None 0 None [] 0 0 None []
                             0 0 0 3 2 10 None None None false None false [])
              [CallSetModel demo_model; SetLastBatch 9; CallStep; CallStep]
              eq_refl eq_refl) as (_ & He & _).
  exact He.
Defined.

Lemma param_map_ranges_are_consecutive_witness :
  exists pd sh s1,
    _create_param_dict_n_shapes demo_frozen = (Ok (pd, sh), s1) /\
    dict_get sh "w" = Ok (mkEntry [2; 1]%nat 2 4 float32) /\
    _param_send_buffer_shape s1 = Some 4%nat.
Proof.
  assert (Hnd : NoDup (map fst (named_parameters frozen_model)))
    by (cbn; distinct_names).
  destruct (@param_map_ranges_are_consecutive QTensorLib
              demo_frozen frozen_model
              [("frozen", @mkTensor QTensorLib [2%nat] float32 false [1#1; 2#1])]
              [("b", @mkTensor QTensorLib [0%nat] float32 true [])]
              "w" (@mkTensor QTensorLib [2; 1]%nat float32 true [3#1; 4#1])
              eq_refl eq_refl eq_refl Hnd eq_refl)
    as (pd & sh & s1 & Hrun & Hsh & _ & Hbuf).
  exists pd, sh, s1. split; [exact Hrun|]. split; [exact Hsh|exact Hbuf].
Defined.

Lemma pack_data_lays_out_trainable_parameters_witness :
  exists buf,
    pack_model (named_parameters frozen_model) = Ok buf /\
    t_data buf = [3#1; 4#1; 0; 0]%Q.
Proof.
  destruct (@pack_data_lays_out_trainable_parameters QTensorLib
              (named_parameters frozen_model)) as (buf & Hp & Hd & _).
  - repeat constructor.
  - exists buf. split; [exact Hp|]. rewrite Hd. reflexivity.
Defined.

Lemma pack_unpack_roundtrip_witness :
  exists buf,
    pack_model (named_parameters demo_model) = Ok buf /\
    unpack_model (named_parameters demo_model) buf
    = (Ok tt, named_parameters demo_model).
Proof.
  destruct (@pack_unpack_roundtrip QTensorLib
              (named_parameters demo_model)) as (buf & Hp & _ & Hu).
  - cbn. distinct_names.
  - repeat constructor.
  - repeat constructor; discriminate.
  - repeat constructor.
  - exists buf. split; [exact Hp|exact Hu].
Defined.

Lemma global_send_update_queues_fitting_record_witness :
  exists rec,
    _prev_params (snd (_global_send_update 0 1 demo_ready)) = [rec] /\
    p_batches_to_wait rec = 1 /\
    fits (named_parameters demo_model) rec.
Proof.
  assert (Hnd : NoDup (map fst (named_parameters demo_model)))
    by (cbn; distinct_names).
  assert (Hrun : _global_send_update 0 1 demo_ready
                 = (Ok tt, snd (_global_send_update 0 1 demo_ready)))
    by (vm_compute; reflexivity).
  destruct (@global_send_update_queues_fitting_record QTensorLib
              0 1 demo_ready _ demo_model eq_refl eq_refl eq_refl Hnd Hrun)
    as (_ & rec & Hq & Hb & _ & _ & Hfits).
  exists rec. split; [exact Hq|]. split; [exact Hb|exact Hfits].
Defined.

Lemma local_torch_param_update_broadcasts_witness :
  trace (snd (_local_torch_param_update (Some 0) demo_distributed))
  = [EvBroadcast 0 "w"; EvBroadcast 0 "b"] /\
  _local_torch_param_update (Some 1) demo_distributed
  = (Raise RuntimeError, demo_distributed).
Proof.
  split.
  - destruct (@local_torch_param_update_broadcasts QTensorLib LoneWorld
                demo_distributed demo_model (Some 0) eq_refl)
      as (_ & _ & Ht & _).
    exact Ht.
  - exact (@local_torch_param_update_broadcasts QTensorLib LoneWorld
             demo_distributed demo_model (Some 1) eq_refl).
Defined.

Lemma synchronous_step_leaves_nothing_pending_witness :
  _prev_params (snd (step demo_ready)) = [] /\
  _send_mod_m1 (snd (step demo_ready)) = None.
Proof.
  assert (Hg : global_skip demo_ready <= 0) by (cbn; lia).
  assert (Hok : fst (step demo_ready) = Ok tt) by (vm_compute; reflexivity).
  exact (@synchronous_step_leaves_nothing_pending QTensorLib LoneWorld
           demo_ready Hg eq_refl Hok).
Defined.

End ConcreteRest.
